(** * JC4880P443C examples: a shallow embedding of the example firmware logic

    The repository is a set of independent ESP32-P4 example sketches.  This
    development embeds the pieces of application logic that carry behaviour
    of their own:

    - [Battery]     examples/10_battery_adc : sample averaging and the
                    voltage-to-percent mapping;
    - [SdCard]      examples/06_sdcard      : the mount/unmount lifecycle
                    with the manually managed LDO power rail;
    - [WifiHttp]    05 WiFi HTTP            : the retry counter of the WiFi
                    event handler;
    - [Bluetooth]   examples/07_bluetooth   : the bounded device table;
    - [ResetDevice] examples/08_reset_device: the cancellable countdown.

    C [int] values are integers of [Z] with the 32-bit wrap-around written
    out ([CInt]).  Vendor driver calls are parameters of the model: a driver
    is a record of functions over an abstract hardware state. *)

From Stdlib Require Import ZArith Lia List.
From Stdlib.Strings Require Import String Byte.
From stdpp Require Import base tactics option list.

Local Open Scope Z_scope.

(** ** 32-bit C integers *)

Module CInt.

Definition INT_MIN : Z := - 2 ^ 31.
Definition INT_MAX : Z := 2 ^ 31 - 1.

Definition in_range (x : Z) : Prop := INT_MIN <= x <= INT_MAX.

(** Two's complement wrap-around of a mathematical result into [int]. *)
Definition wrap (x : Z) : Z := (x + 2 ^ 31) mod 2 ^ 32 - 2 ^ 31.

Definition add (a b : Z) : Z := wrap (a + b).
Definition sub (a b : Z) : Z := wrap (a - b).
Definition mul (a b : Z) : Z := wrap (a * b).
(** C division truncates toward zero. *)
Definition div (a b : Z) : Z := wrap (Z.quot a b).

End CInt.

(** [esp_err_t] is a C [int]; [ESP_OK] is zero. *)
Definition esp_err_t : Type := Z.
Definition ESP_OK : esp_err_t := 0.
Definition ESP_FAIL : esp_err_t := -1.
Definition ESP_ERR_INVALID_ARG : esp_err_t := 258.
Definition ESP_ERR_INVALID_STATE : esp_err_t := 259.
Definition ESP_ERR_TIMEOUT : esp_err_t := 263.

(** ** examples/10_battery_adc *)

Module Battery.

Definition ADC_SAMPLES : nat := 500.
Definition BATTERY_V_MAX : Z := 2500.
Definition BATTERY_V_MIN : Z := 2250.

(** [calculate_battery_percent]: clamp at both thresholds, integer linear
    interpolation between them. *)
Definition calculate_battery_percent (voltage_mv : Z) : Z :=
  if voltage_mv >=? BATTERY_V_MAX then 100
  else if voltage_mv <=? BATTERY_V_MIN then 0
  else CInt.div (CInt.mul (CInt.sub voltage_mv BATTERY_V_MIN) 100)
                (CInt.sub BATTERY_V_MAX BATTERY_V_MIN).

Section Sampling.

(** [adc_oneshot_read i] is the outcome of the [i]-th read of one call of
[read_battery_voltage]: the returned status and the value stored in
[raw_value]. *)
Variable adc_oneshot_read : nat -> esp_err_t * Z.
Variable adc_calibrated : bool.
(** The calibration curve of the ADC driver. *)
Variable adc_cali_raw_to_voltage : Z -> esp_err_t * Z.

(** The sampling loop, [n] iterations left, [i] the loop counter.
[ESP_ERROR_CHECK] aborts on a failed read: [None]. *)
Fixpoint sample_loop (n i : nat) (raw_sum : Z) : option Z :=
match n with
| O => Some raw_sum
| S n' =>
  let '(err, raw_value) := adc_oneshot_read i in
  if err =? ESP_OK
  then sample_loop n' (S i) (CInt.add raw_sum raw_value)
  else None
end.

(** [raw_avg] of [read_battery_voltage]. *)
Definition raw_average : option Z :=
match sample_loop ADC_SAMPLES 0 0 with
| Some raw_sum => Some (CInt.div raw_sum (Z.of_nat ADC_SAMPLES))
| None => None
end.

Definition read_battery_voltage : option Z :=
match raw_average with
| Some raw_avg =>
  if adc_calibrated then
    let '(err, voltage_mv) := adc_cali_raw_to_voltage raw_avg in
    if err =? ESP_OK then Some voltage_mv else None
  else Some (CInt.div (CInt.mul raw_avg 3300) 4095)
| None => None
end.

(** The raw samples stored by reads [i], [i+1], ..., [i+n-1]. *)
Definition samples_from (i n : nat) : list Z :=
map (fun j => snd (adc_oneshot_read j)) (seq i n).

(** The raw samples of one call, in reading order. *)
Definition raw_samples : list Z := samples_from 0 ADC_SAMPLES.

End Sampling.

Definition sumZ (l : list Z) : Z := fold_right Z.add 0 l.
Definition list_min (d : Z) (l : list Z) : Z := fold_right Z.min d l.
Definition list_max (d : Z) (l : list Z) : Z := fold_right Z.max d l.

(** Smallest and largest raw sample of a call. *)
Definition samples_min (rd : nat -> esp_err_t * Z) : Z :=
  list_min (snd (rd O)) (raw_samples rd).
Definition samples_max (rd : nat -> esp_err_t * Z) : Z :=
  list_max (snd (rd O)) (raw_samples rd).

(** The largest sample value for which 500 samples cannot overflow [int]. *)
Definition SAMPLE_SAFE_MAX : Z := 4294967.

(** Sample input: a 12-bit ramp (the [j]-th read returns [j mod 4096]). *)
Definition adc_ramp (j : nat) : esp_err_t * Z := (ESP_OK, Z.of_nat j mod 4096).

(** [get_battery_color]: the RGB value handed to [lv_color_hex]. *)
Definition COLOR_RED : Z := 0xFF4444.
Definition COLOR_ORANGE : Z := 0xFFAA00.
Definition COLOR_GREEN : Z := 0x44FF44.

Definition get_battery_color (percent : Z) : Z :=
  if percent <=? 20 then COLOR_RED
  else if percent <=? 50 then COLOR_ORANGE
  else COLOR_GREEN.

(** One iteration of [battery_monitor_task] up to the UI update: the new
    [current_voltage_mv] and [current_percent], and the colour [update_ui]
    gives the bar.  [None] when a fatal check aborted the task. *)
Definition battery_monitor_iteration (adc_oneshot_read : nat -> esp_err_t * Z)
    (adc_calibrated : bool) (adc_cali_raw_to_voltage : Z -> esp_err_t * Z)
    : option (Z * Z * Z) :=
  match read_battery_voltage adc_oneshot_read adc_calibrated adc_cali_raw_to_voltage with
  | Some current_voltage_mv =>
      let current_percent := calculate_battery_percent current_voltage_mv in
      Some (current_voltage_mv, current_percent, get_battery_color current_percent)
  | None => None
  end.

(** Sample inputs: an ADC whose tenth read fails, and a calibration curve
    that halves the raw value. *)
Definition adc_glitch (j : nat) : esp_err_t * Z :=
  if (j =? 9)%nat then (ESP_ERR_TIMEOUT, 0) else (ESP_OK, 2000).
Definition cali_half (raw : Z) : esp_err_t * Z := (ESP_OK, raw / 2).

End Battery.

(** ** examples/06_sdcard *)

Module SdCard.

(** [sd_pwr_ctrl_handle_t] and [sdmmc_card_t*] are pointers to driver
    objects: [None] is [NULL], [Some p] a non-null address. *)
Definition sd_pwr_ctrl_handle_t : Type := option positive.
Definition sdmmc_card_ptr : Type := option positive.

(** The vendor calls made by the example, as a record of functions over an
    abstract hardware state [W].  An out-parameter is returned as
    [Some p] when the driver stored [p] through it and [None] when the
    driver left it untouched. *)
Record sd_driver (W : Type) : Type := {
  sd_pwr_ctrl_new_on_chip_ldo : Z -> W -> esp_err_t * option positive * W;
  esp_vfs_fat_sdmmc_mount :
    sd_pwr_ctrl_handle_t -> W -> esp_err_t * option positive * W;
  sd_pwr_ctrl_del_on_chip_ldo : sd_pwr_ctrl_handle_t -> W -> W;
  esp_vfs_fat_sdcard_unmount : sdmmc_card_ptr -> W -> esp_err_t * W
}.
Arguments sd_pwr_ctrl_new_on_chip_ldo {W} _ _ _.
Arguments esp_vfs_fat_sdmmc_mount {W} _ _ _.
Arguments sd_pwr_ctrl_del_on_chip_ldo {W} _ _ _.
Arguments esp_vfs_fat_sdcard_unmount {W} _ _ _.

(** The driver calls in the order the example issued them. *)
Inductive sd_call : Type :=
| CallNewLdo (ldo_chan_id : Z)
| CallFatMount (pwr_ctrl_handle : sd_pwr_ctrl_handle_t)
| CallDelLdo (handle : sd_pwr_ctrl_handle_t)
| CallFatUnmount (card : sdmmc_card_ptr).

Record hw (W : Type) : Type := mk_hw { world : W; calls : list sd_call }.
Arguments mk_hw {W} _ _.
Arguments world {W} _.
Arguments calls {W} _.

(** Text of an LVGL label.  ["Mounted: %s (%.1f MB)"] is formatted from the
    card object behind [sd_card]. *)
Inductive label_text : Type :=
| Text (s : string)
| TextMounted (card : sdmmc_card_ptr).

(** The file-scope variables of the example. *)
Record app_state : Type := mk_app {
  sd_card : sdmmc_card_ptr;
  sd_pwr_ctrl_handle : sd_pwr_ctrl_handle_t;
  sd_mounted : bool;
  status_label : label_text;
  mount_btn_text : string
}.

Definition set_sd_card (s : app_state) (c : sdmmc_card_ptr) : app_state :=
  mk_app c (sd_pwr_ctrl_handle s) (sd_mounted s) (status_label s) (mount_btn_text s).
Definition set_sd_pwr_ctrl_handle (s : app_state) (p : sd_pwr_ctrl_handle_t) : app_state :=
  mk_app (sd_card s) p (sd_mounted s) (status_label s) (mount_btn_text s).
Definition set_sd_mounted (s : app_state) (b : bool) : app_state :=
  mk_app (sd_card s) (sd_pwr_ctrl_handle s) b (status_label s) (mount_btn_text s).
Definition set_status_label (s : app_state) (t : label_text) : app_state :=
  mk_app (sd_card s) (sd_pwr_ctrl_handle s) (sd_mounted s) t (mount_btn_text s).
Definition set_mount_btn_text (s : app_state) (t : string) : app_state :=
  mk_app (sd_card s) (sd_pwr_ctrl_handle s) (sd_mounted s) (status_label s) t.

(** The state after [create_ui]. *)
Definition initial_state : app_state :=
  mk_app None None false (Text "Press Mount to access SD card") "Mount".

(** A pointer variable after a call that received its address. *)
Definition store_out (old written : option positive) : option positive :=
  match written with
  | Some p => Some p
  | None => old
  end.

Definition LDO_CHAN_ID : Z := 4.

Section Lifecycle.

Context {W : Type} (D : sd_driver W).

Definition sd_mount (s : app_state) (h : hw W) : esp_err_t * app_state * hw W :=
let '(ret, out, w1) := sd_pwr_ctrl_new_on_chip_ldo D LDO_CHAN_ID (world h) in
let s1 := set_sd_pwr_ctrl_handle s (store_out (sd_pwr_ctrl_handle s) out) in
let h1 := mk_hw w1 (calls h ++ [CallNewLdo LDO_CHAN_ID]) in
if negb (ret =? ESP_OK) then (ret, s1, h1)
else
let '(ret, out_card, w2) :=
  esp_vfs_fat_sdmmc_mount D (sd_pwr_ctrl_handle s1) w1 in
let s2 := set_sd_card s1 (store_out (sd_card s1) out_card) in
let h2 := mk_hw w2 (calls h1 ++ [CallFatMount (sd_pwr_ctrl_handle s1)]) in
if negb (ret =? ESP_OK) then
  let w3 := sd_pwr_ctrl_del_on_chip_ldo D (sd_pwr_ctrl_handle s2) w2 in
  (ret, set_sd_pwr_ctrl_handle s2 None,
   mk_hw w3 (calls h2 ++ [CallDelLdo (sd_pwr_ctrl_handle s2)]))
else (ret, s2, h2).

Definition sd_unmount (s : app_state) (h : hw W) : esp_err_t * app_state * hw W :=
let '(ret, w1) := esp_vfs_fat_sdcard_unmount D (sd_card s) (world h) in
let h1 := mk_hw w1 (calls h ++ [CallFatUnmount (sd_card s)]) in
let s1 := set_sd_card s None in
match sd_pwr_ctrl_handle s1 with
| Some p =>
  let w2 := sd_pwr_ctrl_del_on_chip_ldo D (Some p) w1 in
  (ret, set_sd_pwr_ctrl_handle s1 None,
   mk_hw w2 (calls h1 ++ [CallDelLdo (Some p)]))
| None => (ret, s1, h1)
end.

(** [mount_btn_click_cb]; the file list refresh at its end only reads
[sd_mounted] and the directory, and draws. *)
Definition mount_btn_click_cb (s : app_state) (h : hw W) : app_state * hw W :=
if sd_mounted s then
let '(ret, s1, h1) := sd_unmount s h in
if ret =? ESP_OK then
  (set_mount_btn_text
     (set_status_label (set_sd_mounted s1 false) (Text "SD card unmounted"))
     "Mount", h1)
else (set_status_label s1 (Text "Unmount failed!"), h1)
else
let s0 := set_status_label s (Text "Mounting...") in
let '(ret, s1, h1) := sd_mount s0 h in
if ret =? ESP_OK then
  (set_mount_btn_text
     (set_status_label (set_sd_mounted s1 true) (TextMounted (sd_card s1)))
     "Unmount", h1)
else (set_status_label s1 (Text "Mount failed! Insert SD card"), h1).

(** A run of the example: before each click on the mount button the
environment may change the hardware state (card pulled, ...). *)
Fixpoint run (envs : list (W -> W)) (s : app_state) (h : hw W) : app_state * hw W :=
match envs with
| [] => (s, h)
| env :: envs' =>
  let '(s', h') := mount_btn_click_cb s (mk_hw (env (world h)) (calls h)) in
  run envs' s' h'
end.

(** What the example relies on in [sd_pwr_ctrl_new_on_chip_ldo]: a failed
call leaves [*ret_drv] untouched, a successful one stores a handle. *)
Definition ldo_failure_writes_nothing : Prop :=
forall chan w ret out w',
sd_pwr_ctrl_new_on_chip_ldo D chan w = (ret, out, w') ->
ret <> ESP_OK -> out = None.

Definition ldo_success_writes_handle : Prop :=
forall chan w ret out w',
sd_pwr_ctrl_new_on_chip_ldo D chan w = (ret, out, w') ->
ret = ESP_OK -> out <> None.

(** The two halves of the pairing of rail handle and mount flag. *)
Definition rail_implies_mounted (s : app_state) : Prop :=
sd_pwr_ctrl_handle s <> None -> sd_mounted s = true.

Definition mounted_implies_rail (s : app_state) : Prop :=
sd_mounted s = true -> sd_pwr_ctrl_handle s <> None.

Definition unmount_never_fails : Prop :=
forall card w, fst (esp_vfs_fat_sdcard_unmount D card w) = ESP_OK.

End Lifecycle.

(** A simulated slot.  The hardware state is whether LDO channel 4
    is acquired; [card_inserted] and [unmount_stuck] configure the slot. *)
Definition sim_driver (card_inserted unmount_stuck : bool) : sd_driver bool := {|
  sd_pwr_ctrl_new_on_chip_ldo := fun _ (rail_taken : bool) =>
    if rail_taken then (ESP_ERR_INVALID_STATE, None, rail_taken)
    else (ESP_OK, Some 1%positive, true);
  esp_vfs_fat_sdmmc_mount := fun _ (rail_taken : bool) =>
    if card_inserted then (ESP_OK, Some 2%positive, rail_taken)
    else (ESP_ERR_TIMEOUT, None, rail_taken);
  sd_pwr_ctrl_del_on_chip_ldo := fun _ _ => false;
  esp_vfs_fat_sdcard_unmount := fun _ (rail_taken : bool) =>
    if unmount_stuck then (ESP_FAIL, rail_taken) else (ESP_OK, rail_taken)
|}.

Definition power_on (rail_taken : bool) : hw bool := mk_hw rail_taken [].

(** *** The write button and the file list *)

(** What [write_btn_click_cb] did with the file system: nothing, an [fopen]
    of [test_<seconds>.txt] that failed, or the test file written with the
    timestamp and free-heap lines. *)
Inductive file_action : Type :=
| NoFileAccess
| FopenFailed (seconds : Z)
| FileWritten (seconds : Z) (timestamp_ms : Z) (free_heap : Z).

(** [(unsigned long)(esp_timer_get_time() / 1000000)]: [unsigned long] has
    32 bits. *)
Definition file_seconds (time_us : Z) : Z := Z.quot time_us 1000000 mod 2 ^ 32.

(** [(unsigned long long)(esp_timer_get_time() / 1000)]: [unsigned long long]
    has 64 bits. *)
Definition file_timestamp_ms (time_us : Z) : Z := Z.quot time_us 1000 mod 2 ^ 64.

(** [write_btn_click_cb].  [fopen_ok] is whether [fopen] returned a file,
    [time_us] and [time_us'] are the two readings of [esp_timer_get_time]. *)
Definition write_btn_click_cb (fopen_ok : bool) (time_us time_us' free_heap : Z)
    (s : app_state) : app_state * file_action :=
  if negb (sd_mounted s) then
    (set_status_label s (Text "Mount SD card first!"), NoFileAccess)
  else if negb fopen_ok then
    (set_status_label s (Text "Failed to create file!"), FopenFailed (file_seconds time_us))
  else
    (set_status_label s (Text "Test file created!"),
     FileWritten (file_seconds time_us) (file_timestamp_ms time_us') free_heap).

(** A directory entry as [readdir] and [stat] report it. *)
Record dirent : Type := mk_dirent {
  d_name : string;
  is_dir : bool;
  st_size : Z
}.

(** The size line of a file: ["%ld bytes"], ["%.1f KB"] or ["%.1f MB"] of
    the size. *)
Inductive size_text : Type :=
| SizeBytes (size : Z)
| SizeKB (size : Z)
| SizeMB (size : Z).

(** A child of the [file_list] container: a message label, or the item of a
    directory entry with its name label and, for a file, its size label. *)
Inductive list_child : Type :=
| Message (text : string)
| Item (name_label : string) (size_label : option size_text).

Definition size_label_of (size : Z) : size_text :=
  if size <? 1024 then SizeBytes size
  else if size <? 1024 * 1024 then SizeKB size
  else SizeMB size.

Definition item_of (e : dirent) : list_child :=
  if is_dir e then Item (String.append "[DIR] " (d_name e)) None
  else Item (d_name e) (Some (size_label_of (st_size e))).

Definition is_dot_entry (e : dirent) : bool :=
  String.eqb (d_name e) "." || String.eqb (d_name e) "..".

(** The [readdir] loop of [update_file_list]: [entries] is what is left of
    the directory stream, [file_count] the number of items created. *)
Fixpoint list_loop (entries : list dirent) (file_count : Z) : list list_child :=
  match entries with
  | [] => []
  | e :: rest =>
      if file_count <? 15 then
        if is_dot_entry e then list_loop rest file_count
        else item_of e :: list_loop rest (file_count + 1)
      else []
  end.

(** [update_file_list] on an existing container: its children afterwards.
    [dir] is the result of [opendir] ([None] for [NULL]). *)
Definition update_file_list (mounted : bool) (dir : option (list dirent))
    : list list_child :=
  if negb mounted then [Message "SD card not mounted"]
  else
    match dir with
    | None => [Message "Failed to open directory"]
    | Some entries =>
        let items := list_loop entries 0 in
        if (Z.of_nat (length items) =? 0) then [Message "SD card is empty"]
        else items
    end.

(** *** Runs with both buttons *)

Inductive ui_event (W : Type) : Type :=
| MountClick (env : W -> W)
| WriteClick (fopen_ok : bool) (time_us time_us' free_heap : Z).
Arguments MountClick {W} _.
Arguments WriteClick {W} _ _ _ _.

Fixpoint run_ui {W : Type} (D : sd_driver W) (evs : list (ui_event W))
    (s : app_state) (h : hw W) (files : list file_action)
    : app_state * hw W * list file_action :=
  match evs with
  | [] => (s, h, files)
  | MountClick env :: evs' =>
      let '(s', h') := mount_btn_click_cb D s (mk_hw (env (world h)) (calls h)) in
      run_ui D evs' s' h' files
  | WriteClick fopen_ok t t' heap :: evs' =>
      let '(s', act) := write_btn_click_cb fopen_ok t t' heap s in
      run_ui D evs' s' h (files ++ [act])
  end.

(** Did every [sd_unmount] of the run return [ESP_OK]?  A mount click calls
    [sd_unmount] when it finds [sd_mounted] set. *)
Fixpoint unmounts_succeed {W : Type} (D : sd_driver W) (evs : list (ui_event W))
    (s : app_state) (h : hw W) : bool :=
  match evs with
  | [] => true
  | MountClick env :: evs' =>
      let h0 := mk_hw (env (world h)) (calls h) in
      (if sd_mounted s then (sd_unmount D s h0).1.1 =? ESP_OK else true)
      && unmounts_succeed D evs' (mount_btn_click_cb D s h0).1 (mount_btn_click_cb D s h0).2
  | WriteClick fopen_ok time_us time_us' free_heap :: evs' =>
      unmounts_succeed D evs' (write_btn_click_cb fopen_ok time_us time_us' free_heap s).1 h
  end.

(** A simulated slot whose unmount call rejects a null card pointer and
    succeeds otherwise. *)
Definition null_checking_driver : sd_driver bool := {|
  sd_pwr_ctrl_new_on_chip_ldo := fun _ (rail_taken : bool) =>
    if rail_taken then (ESP_ERR_INVALID_STATE, None, rail_taken)
    else (ESP_OK, Some 1%positive, true);
  esp_vfs_fat_sdmmc_mount := fun _ (rail_taken : bool) =>
    (ESP_OK, Some 2%positive, rail_taken);
  sd_pwr_ctrl_del_on_chip_ldo := fun _ _ => false;
  esp_vfs_fat_sdcard_unmount := fun card (rail_taken : bool) =>
    match card with
    | None => (ESP_ERR_INVALID_ARG, rail_taken)
    | Some _ => (ESP_OK, rail_taken)
    end
|}.

(** *** Pairing of allocations and deletions in a call log *)

(** Is a rail object allocated and not yet deleted after the calls [l]? *)
Fixpoint armed_after (armed : bool) (l : list sd_call) : bool :=
  match l with
  | [] => armed
  | CallNewLdo _ :: l' => armed_after true l'
  | CallDelLdo _ :: l' => armed_after false l'
  | _ :: l' => armed_after armed l'
  end.

(** Every deletion follows an allocation, with no other deletion between. *)
Fixpoint deletes_paired (armed : bool) (l : list sd_call) : bool :=
  match l with
  | [] => true
  | CallNewLdo _ :: l' => deletes_paired true l'
  | CallDelLdo _ :: l' => armed && deletes_paired false l'
  | _ :: l' => deletes_paired armed l'
  end.

(** Sample directory: the two dot entries, a folder and a small file. *)
Definition sample_dir : list dirent :=
  [mk_dirent "." true 0; mk_dirent ".." true 0;
   mk_dirent "music" true 0; mk_dirent "test_12.txt" false 180].

(** The entries [update_file_list] does not skip. *)
Definition visible (e : dirent) : bool := negb (is_dot_entry e).

(** What the log of a run keeps true: deletions are paired, and a held
    handle means an allocation is still open. *)
Definition log_ok {W : Type} (s : app_state) (h : hw W) : Prop :=
  deletes_paired false (calls h) = true /\
  (sd_pwr_ctrl_handle s <> None -> armed_after false (calls h) = true).

End SdCard.


(** ** 05 WiFi HTTP: the WiFi event handler *)

Module WifiHttp.

Definition BIT0 : Z := 1.
Definition BIT1 : Z := 2.
Definition WIFI_CONNECTED_BIT : Z := BIT0.
Definition WIFI_FAIL_BIT : Z := BIT1.
Definition WIFI_MAX_RETRY : Z := 5.

Inductive esp_event_base_t : Type := WIFI_EVENT | IP_EVENT | OTHER_EVENT (name : string).

(** Event ids of [wifi_event_t] and [ip_event_t] (ESP-IDF). *)
Definition WIFI_EVENT_STA_START : Z := 2.
Definition WIFI_EVENT_STA_DISCONNECTED : Z := 5.
Definition IP_EVENT_STA_GOT_IP : Z := 0.

(** Calls into the WiFi stack and the RTOS made by the handler. *)
Inductive wifi_call : Type :=
| CallWifiConnect
| CallSetBits (bits : Z).

(** The file-scope variables the handler touches: the retry counter, the
    bits of [wifi_event_group], the text of [ip_label] ([None] while the
    widget does not exist; the text shows the address), and the calls made
    so far. *)
Record state : Type := mk_state {
  wifi_retry_count : Z;
  event_bits : Z;
  ip_label : option Z;
  wifi_calls : list wifi_call
}.

Definition esp_wifi_connect (s : state) : state :=
  mk_state (wifi_retry_count s) (event_bits s) (ip_label s)
           (wifi_calls s ++ [CallWifiConnect]).

Definition xEventGroupSetBits (bits : Z) (s : state) : state :=
  mk_state (wifi_retry_count s) (Z.lor (event_bits s) bits) (ip_label s)
           (wifi_calls s ++ [CallSetBits bits]).

Definition set_wifi_retry_count (n : Z) (s : state) : state :=
  mk_state n (event_bits s) (ip_label s) (wifi_calls s).

Definition set_ip_label_text (ip : Z) (s : state) : state :=
  match ip_label s with
  | Some _ => mk_state (wifi_retry_count s) (event_bits s) (Some ip) (wifi_calls s)
  | None => s
  end.

(** [wifi_event_handler]; [ip] is the address carried by the event data of
    a got-IP event. *)
Definition wifi_event_handler (event_base : esp_event_base_t) (event_id : Z)
    (ip : Z) (s : state) : state :=
  match event_base with
  | WIFI_EVENT =>
      if event_id =? WIFI_EVENT_STA_START then esp_wifi_connect s
      else if event_id =? WIFI_EVENT_STA_DISCONNECTED then
        if wifi_retry_count s <? WIFI_MAX_RETRY then
          let s1 := esp_wifi_connect s in
          set_wifi_retry_count (CInt.add (wifi_retry_count s1) 1) s1
        else xEventGroupSetBits WIFI_FAIL_BIT s
      else s
  | IP_EVENT =>
      if event_id =? IP_EVENT_STA_GOT_IP then
        set_ip_label_text ip
          (xEventGroupSetBits WIFI_CONNECTED_BIT (set_wifi_retry_count 0 s))
      else s
  | OTHER_EVENT _ => s
  end.

Definition on_disconnect : state -> state :=
  wifi_event_handler WIFI_EVENT WIFI_EVENT_STA_DISCONNECTED 0.

Definition on_got_ip (ip : Z) : state -> state :=
  wifi_event_handler IP_EVENT IP_EVENT_STA_GOT_IP ip.

(** [n] consecutive disconnect events. *)
Fixpoint disconnects (n : nat) (s : state) : state :=
  match n with
  | O => s
  | S n' => disconnects n' (on_disconnect s)
  end.

Definition is_connect (c : wifi_call) : bool :=
  match c with CallWifiConnect => true | CallSetBits _ => false end.

Definition is_fail_signal (c : wifi_call) : bool :=
  match c with
  | CallSetBits bits => negb (Z.land bits WIFI_FAIL_BIT =? 0)
  | CallWifiConnect => false
  end.

Definition reconnects (l : list wifi_call) : nat := length (List.filter is_connect l).
Definition fail_signals (l : list wifi_call) : nat := length (List.filter is_fail_signal l).

(** The handler's variables at start-up, with the IP label created. *)
Definition initial_state : state := mk_state 0 0 (Some 0) [].

(** *** Waiting for the connection *)

(** An event as the event loop hands it to the handler: base, id, and the
    address in the event data of a got-IP event. *)
Definition wifi_event : Type := (esp_event_base_t * Z * Z)%type.

(** The handler run on one event. *)
Definition step (s : state) (ev : wifi_event) : state :=
  let '(base, id, ip) := ev in wifi_event_handler base id ip s.

Definition deliver (evs : list wifi_event) (s : state) : state :=
  fold_left step evs s.

Definition is_got_ip (ev : wifi_event) : bool :=
  match ev with
  | (IP_EVENT, id, _) => id =? IP_EVENT_STA_GOT_IP
  | _ => false
  end.

Definition is_disconnect (ev : wifi_event) : bool :=
  match ev with
  | (WIFI_EVENT, id, _) => id =? WIFI_EVENT_STA_DISCONNECTED
  | _ => false
  end.

(** [bits & mask] as a C condition. *)
Definition has_bit (bits mask : Z) : bool := negb (Z.land bits mask =? 0).

(** The value [wifi_init_and_connect] returns for the bits that
    [xEventGroupWaitBits] handed back. *)
Definition connect_result (bits : Z) : esp_err_t :=
  if has_bit bits WIFI_CONNECTED_BIT then ESP_OK
  else if has_bit bits WIFI_FAIL_BIT then ESP_FAIL
  else ESP_ERR_TIMEOUT.

(** Sample events. *)
Definition ev_disconnect : wifi_event := (WIFI_EVENT, WIFI_EVENT_STA_DISCONNECTED, 0).
Definition ev_start : wifi_event := (WIFI_EVENT, WIFI_EVENT_STA_START, 0).
Definition ev_got_ip : wifi_event := (IP_EVENT, IP_EVENT_STA_GOT_IP, 3232235777).

End WifiHttp.


(** ** examples/08_reset_device: the cancellable countdown *)

Module ResetDevice.

(** Text of an LVGL label; ["Resetting in %d..."] keeps its argument. *)
Inductive label_text : Type :=
| Text (s : string)
| ResettingIn (seconds : Z).

(** Which callback called [esp_restart]. *)
Inductive reset_cause : Type := ByCountdownTimer | ByResetButton.

(** The file-scope variables of the example.  [countdown_timer] tells
    whether the pointer is non-null, that is whether the LVGL timer exists;
    a label is [None] while its widget does not exist; [restarted] records
    a call of [esp_restart]. *)
Record state : Type := mk_state {
  countdown_active : bool;
  countdown_value : Z;
  countdown_timer : bool;
  countdown_label : option label_text;
  delayed_btn_label : option label_text;
  restarted : option reset_cause
}.

(** [lv_label_set_text] guarded by [if (label)]. *)
Definition set_text_if_exists (l : option label_text) (t : label_text)
    : option label_text :=
  match l with
  | Some _ => Some t
  | None => None
  end.

(** The state after [create_ui]. *)
Definition initial_state : state :=
  mk_state false 5 false (Some (Text "Press a button to reset"))
           (Some (Text "Reset in 5s")) None.

Definition countdown_timer_cb (s : state) : state :=
  if negb (countdown_active s) then
    mk_state (countdown_active s) (countdown_value s) false
             (countdown_label s) (delayed_btn_label s) (restarted s)
  else
    let value := CInt.sub (countdown_value s) 1 in
    let label :=
      set_text_if_exists (countdown_label s)
        (if value >? 0 then ResettingIn value else Text "Resetting NOW!") in
    if value <=? 0 then
      mk_state false value false label (delayed_btn_label s) (Some ByCountdownTimer)
    else
      mk_state (countdown_active s) value (countdown_timer s) label
               (delayed_btn_label s) (restarted s).

(** [reset_btn_cb] writes the label without a null check. *)
Definition reset_btn_cb (s : state) : state :=
  mk_state (countdown_active s) (countdown_value s) (countdown_timer s)
           (Some (Text "Resetting NOW!")) (delayed_btn_label s) (Some ByResetButton).

Definition delayed_reset_btn_cb (s : state) : state :=
  if countdown_active s then
    mk_state false 5 (countdown_timer s)
             (set_text_if_exists (countdown_label s) (Text "Countdown cancelled"))
             (set_text_if_exists (delayed_btn_label s) (Text "Reset in 5s"))
             (restarted s)
  else
    mk_state true 5 true
             (set_text_if_exists (countdown_label s) (ResettingIn 5))
             (set_text_if_exists (delayed_btn_label s) (Text "Cancel"))
             (restarted s).

Inductive event : Type := ClickDelayedReset | ClickReset | TimerTick.

(** One event of the LVGL loop.  The timer callback runs only while the
    timer exists; nothing runs once the chip has been restarted. *)
Definition step (s : state) (ev : event) : state :=
  match restarted s with
  | Some _ => s
  | None =>
      match ev with
      | ClickDelayedReset => delayed_reset_btn_cb s
      | ClickReset => reset_btn_cb s
      | TimerTick => if countdown_timer s then countdown_timer_cb s else s
      end
  end.

Definition run (evs : list event) (s : state) : state := fold_left step evs s.

Definition ticks (n : nat) : list event := repeat TimerTick n.

(** What every run keeps true.  Before a restart: an active countdown has
    its timer and between 1 and 5 seconds left, an idle one stands at 5.
    After a restart by the timer: the countdown is over, at zero, its timer
    deleted. *)
Definition countdown_ok (s : state) : Prop :=
  match restarted s with
  | None =>
      if countdown_active s
      then countdown_timer s = true /\ 1 <= countdown_value s <= 5
      else countdown_value s = 5
  | Some ByCountdownTimer =>
      countdown_active s = false /\ countdown_value s = 0 /\ countdown_timer s = false
  | Some ByResetButton => True
  end.

End ResetDevice.


(** ** examples/07_bluetooth: the table of discovered devices *)

Module Bluetooth.

#[global] Instance byte_eq_decision : EqDecision byte := Byte.byte_eq_dec.

Definition MAX_DEVICES : nat := 20.
Definition NUL : byte := x00.

(** [ble_device_t]: [bda] is a [uint8_t[6]], [name] a [char[32]] buffer,
    [rssi] an [int8_t]. *)
Record ble_device_t : Type := mk_device {
  bda : list byte;
  name : list byte;
  rssi : Z;
  has_name : bool
}.

(** The file-scope variables: the [devices] array of [MAX_DEVICES] slots,
    [device_count], and whether [device_mutex] has been created. *)
Record state : Type := mk_state {
  devices : list ble_device_t;
  device_count : nat;
  device_mutex : bool
}.

(** [memcmp(a, b, 6) == 0]. *)
Definition same_bda (a b : list byte) : bool := bool_decide (take 6 a = take 6 b).

(** [memcpy(dst, src, 6)]. *)
Definition memcpy6 (dst src : list byte) : list byte := take 6 src ++ drop 6 dst.

(** The C string stored at the start of a byte sequence. *)
Fixpoint c_str (buf : list byte) : list byte :=
  match buf with
  | [] => []
  | b :: rest => if bool_decide (b = NUL) then [] else b :: c_str rest
  end.

Definition strlen (s : list byte) : nat := length (c_str s).

(** [strncpy(dst, src, n)]: the first [n] characters of [src], padded with
    NUL up to [n] bytes; the bytes of [dst] from [n] on are kept. *)
Definition strncpy (dst src : list byte) (n : nat) : list byte :=
  take n (c_str src ++ repeat NUL n) ++ drop n dst.

(** The loop of [find_device] over the first [device_count] slots; [i] is
    the index of the head of [l]. *)
Fixpoint find_in (l : list ble_device_t) (a : list byte) (i : Z) : Z :=
  match l with
  | [] => -1
  | d :: l' => if same_bda (bda d) a then i else find_in l' a (i + 1)
  end.

Definition live (st : state) : list ble_device_t :=
  take (device_count st) (devices st).

Definition find_device (st : state) (a : list byte) : Z := find_in (live st) a 0.

(** [name && strlen(name) > 0] for a possibly null [name]. *)
Definition name_given (nm : option (list byte)) : bool :=
  match nm with
  | Some s => (0 <? strlen s)%nat
  | None => false
  end.

Definition name_bytes (nm : option (list byte)) : list byte :=
  match nm with
  | Some s => s
  | None => []
  end.

(** The update of a listed entry: the RSSI always, the name only when one
    is given and the entry has none yet. *)
Definition update_entry (d : ble_device_t) (nm : option (list byte)) (r : Z)
    : ble_device_t :=
  if name_given nm && negb (has_name d)
  then mk_device (bda d) (strncpy (name d) (name_bytes nm) 31) r true
  else mk_device (bda d) (name d) r (has_name d).

(** The entry written into the free slot [d]. *)
Definition new_entry (d : ble_device_t) (a : list byte) (nm : option (list byte))
    (r : Z) : ble_device_t :=
  if name_given nm
  then mk_device (memcpy6 (bda d) a) (strncpy (name d) (name_bytes nm) 31) r true
  else mk_device (memcpy6 (bda d) a) (<[0%nat := NUL]> (name d)) r false.

Definition add_or_update_device (a : list byte) (nm : option (list byte)) (r : Z)
    (st : state) : state :=
  if negb (device_mutex st) then st
  else
    let idx := find_device st a in
    if 0 <=? idx then
      match devices st !! Z.to_nat idx with
      | Some d =>
          mk_state (<[Z.to_nat idx := update_entry d nm r]> (devices st))
                   (device_count st) (device_mutex st)
      | None => st
      end
    else if (device_count st <? MAX_DEVICES)%nat then
      match devices st !! device_count st with
      | Some d =>
          mk_state (<[device_count st := new_entry d a nm r]> (devices st))
                   (S (device_count st)) (device_mutex st)
      | None => st
      end
    else st.

(** A slot after [memset(devices, 0, sizeof(devices))]. *)
Definition zero_device : ble_device_t :=
  mk_device (repeat NUL 6) (repeat NUL 32) 0 false.

(** The table as [start_ble_scan] clears it (the mutex exists by then). *)
Definition cleared : state := mk_state (repeat zero_device MAX_DEVICES) 0 true.

(** One advertisement report: address, name (if any) and RSSI. *)
Definition report : Type := (list byte * option (list byte) * Z)%type.

Definition run_reports (rs : list report) (st : state) : state :=
  fold_left (fun s '(a, nm, r) => add_or_update_device a nm r s) rs st.

(** Number of listed entries carrying the address [a]. *)
Definition entries_for (st : state) (a : list byte) : nat :=
  length (List.filter (fun d => same_bda (bda d) a) (live st)).

(** The 6-byte address stored in a slot. *)
Definition key (d : ble_device_t) : list byte := take 6 (bda d).

(** The shape every slot keeps: a 32-byte name buffer whose last byte,
    which [strncpy(.., 31)] never writes, is NUL. *)
Definition slot_ok (d : ble_device_t) : Prop :=
  length (name d) = 32%nat /\ name d !! 31%nat = Some NUL.

(** Well-formed tables: all [MAX_DEVICES] slots present and in shape, the
    count within the array, and no address listed twice. *)
Definition wf (st : state) : Prop :=
  length (devices st) = MAX_DEVICES /\
  (device_count st <= MAX_DEVICES)%nat /\
  Forall slot_ok (devices st) /\
  NoDup (map key (live st)).

(** Sample data: the address [00:11:22:33:44:i] and twenty named devices. *)
Definition test_addr (i : nat) : list byte :=
  [x00; x11; x22; x33; x44; default x00 (Byte.of_nat i)].

Definition twenty_named : list report :=
  map (fun i => (test_addr i, Some (list_byte_of_string "dev"), -50)) (seq 0 20).

Definition full_table : state := run_reports twenty_named cleared.

(** *** Formatting an address and taking the name of an advertisement *)

(** The digit [printf] writes for a value below 16 under [%X]. *)
Definition hex_digit (n : N) : byte :=
  nth (N.to_nat n) (list_byte_of_string "0123456789ABCDEF") "?"%byte.

(** [%02X] of a [uint8_t]. *)
Definition hex2 (b : byte) : list byte :=
  [hex_digit (Byte.to_N b / 16); hex_digit (Byte.to_N b mod 16)].

Definition COLON : byte := ":"%byte.

(** The text of ["%02X:%02X:%02X:%02X:%02X:%02X"] for [bda[0]] .. [bda[5]]. *)
Definition bda_text (a : list byte) : list byte :=
  match a with
  | b0 :: b1 :: b2 :: b3 :: b4 :: b5 :: _ =>
      hex2 b0 ++ COLON :: hex2 b1 ++ COLON :: hex2 b2 ++ COLON ::
      hex2 b3 ++ COLON :: hex2 b4 ++ COLON :: hex2 b5
  | _ => []
  end.

(** [bda_to_str]: the characters [snprintf] stores in [str] before the
    terminator, for a buffer of [str_len] > 0 bytes. *)
Definition bda_to_str (a : list byte) (str_len : nat) : list byte :=
  take (str_len - 1) (bda_text a).

(** The local [name] buffer of the scan-result branch of
    [gap_event_handler].  [cmpl] and [short] are the complete-name and
    short-name fields found by [esp_ble_resolve_adv_data] ([None] when the
    field is absent); the length of a field fits a [uint8_t]. *)
Definition adv_name_buffer (cmpl short : option (list byte)) : list byte :=
  let adv_name := match cmpl with Some n => Some n | None => short end in
  match adv_name with
  | Some n =>
      if (0 <? length n)%nat then
        let copy_len := if (length n <? 31)%nat then length n else 31%nat in
        <[copy_len := NUL]> (take copy_len n ++ drop copy_len (repeat NUL 32))
      else repeat NUL 32
  | None => repeat NUL 32
  end.

(** [(int8_t)x] for an [int] [x]: the value modulo 2^8 in -128 .. 127. *)
Definition to_int8 (x : Z) : Z := (x + 128) mod 256 - 128.

(** The scan-result branch of [gap_event_handler] on the device table.  The
    [int] field [scan_rst.rssi] is converted to the [int8_t] parameter of
    [add_or_update_device] at the call. *)
Definition on_scan_result (a : list byte) (cmpl short : option (list byte))
    (scan_rst_rssi : Z) (st : state) : state :=
  add_or_update_device a (Some (adv_name_buffer cmpl short)) (to_int8 scan_rst_rssi) st.

(** [start_ble_scan] on the device table. *)
Definition start_ble_scan (st : state) : state :=
  mk_state (repeat zero_device MAX_DEVICES) 0 (device_mutex st).

(** The name label [update_device_list] gives an entry. *)
Definition display_name (d : ble_device_t) : list byte :=
  if has_name d && negb (bool_decide (name d !! 0%nat = Some NUL))
  then c_str (name d)
  else list_byte_of_string "(Unknown Device)".

(** The address a report carries. *)
Definition report_key (rp : report) : list byte := take 6 rp.1.1.

(** The distinct addresses of a sequence, each at its first occurrence and
    leaving out those in [seen]. *)
Fixpoint first_seen (seen ks : list (list byte)) : list (list byte) :=
  match ks with
  | [] => []
  | k :: ks' =>
      if bool_decide (k ∈ seen) then first_seen seen ks'
      else k :: first_seen (k :: seen) ks'
  end.

End Bluetooth.


(** ** 05 WiFi HTTP: the response buffer *)

Module HttpFetch.

Definition HTTP_BUFFER_SIZE : Z := 2048.
Definition NUL : byte := Bluetooth.NUL.

(** [http_buffer] and [http_buffer_len]. *)
Record state : Type := mk_state {
  http_buffer : list byte;
  http_buffer_len : Z
}.

(** An [esp_http_client_event_t]: for a data event, whether the response is
    chunked and the [data_len] bytes at [data]. *)
Inductive http_event : Type :=
| HTTP_EVENT_ON_DATA (chunked : bool) (data : list byte)
| HTTP_EVENT_ON_FINISH
| HTTP_EVENT_ERROR
| HTTP_EVENT_OTHER (id : Z).

(** [memcpy(buf + off, src, n)]. *)
Definition memcpy_at (buf : list byte) (off : nat) (src : list byte) (n : nat)
    : list byte :=
  take off buf ++ take n src ++ drop (off + n) buf.

(** [http_event_handler]; it always returns [ESP_OK]. *)
Definition http_event_handler (evt : http_event) (st : state) : state :=
  match evt with
  | HTTP_EVENT_ON_DATA chunked data =>
      if negb chunked then
        let data_len := Z.of_nat (length data) in
        let copy_len :=
          if CInt.add (http_buffer_len st) data_len >=? HTTP_BUFFER_SIZE
          then CInt.sub (CInt.sub HTTP_BUFFER_SIZE (http_buffer_len st)) 1
          else data_len in
        if copy_len >? 0 then
          let buf := memcpy_at (http_buffer st) (Z.to_nat (http_buffer_len st))
                               data (Z.to_nat copy_len) in
          let len := CInt.add (http_buffer_len st) copy_len in
          mk_state (<[Z.to_nat len := NUL]> buf) len
        else st
      else st
  | _ => st
  end.

(** The buffer as [http_fetch] clears it before a request. *)
Definition cleared : state :=
  mk_state (repeat NUL (Z.to_nat HTTP_BUFFER_SIZE)) 0.

Definition receive (evs : list http_event) (st : state) : state :=
  fold_left (fun s evt => http_event_handler evt s) evs st.

(** The bytes of the non-chunked data events, in order. *)
Definition payload (evs : list http_event) : list byte :=
  flat_map (fun evt =>
              match evt with
              | HTTP_EVENT_ON_DATA false data => data
              | _ => []
              end) evs.

(** What the handler keeps true of the buffer. *)
Definition buffer_ok (st : state) : Prop :=
  length (http_buffer st) = Z.to_nat HTTP_BUFFER_SIZE /\
  0 <= http_buffer_len st <= HTTP_BUFFER_SIZE - 1 /\
  http_buffer st !! Z.to_nat (http_buffer_len st) = Some NUL.

(** A data event whose length the [int] arithmetic of the handler can
    take. *)
Definition event_fits (evt : http_event) : Prop :=
  match evt with
  | HTTP_EVENT_ON_DATA _ data =>
      Z.of_nat (length data) <= CInt.INT_MAX - HTTP_BUFFER_SIZE
  | _ => True
  end.

(** [strcat(dst, src)]. *)
Definition strcat (dst src : list byte) : list byte :=
  let n := Bluetooth.strlen dst in
  take n dst ++ src ++ NUL :: drop (n + length src + 1) dst.

Definition ELLIPSIS : list byte := list_byte_of_string "...".

(** The cut [http_fetch] applies to the buffer before showing it in
    [response_label]. *)
Definition truncate_for_display (buf : list byte) : list byte :=
  if (500 <? Bluetooth.strlen buf)%nat
  then strcat (<[500%nat := NUL]> buf) ELLIPSIS
  else buf.

End HttpFetch.

(** * Properties *)

(** ** 32-bit arithmetic *)

Lemma cint_wrap_id (x : Z) : CInt.in_range x -> CInt.wrap x = x.
Proof.
  unfold CInt.in_range, CInt.INT_MIN, CInt.INT_MAX, CInt.wrap. intros H.
  rewrite Z.mod_small; lia.
Qed.

Lemma cint_wrap_in_range (x : Z) : CInt.in_range (CInt.wrap x).
Proof.
  unfold CInt.in_range, CInt.INT_MIN, CInt.INT_MAX, CInt.wrap.
  pose proof (Z.mod_pos_bound (x + 2 ^ 31) (2 ^ 32)). lia.
Qed.

(** Side conditions "this value fits an [int]". *)
Ltac cint_range :=
  unfold CInt.in_range, CInt.INT_MIN, CInt.INT_MAX in *; lia.

Lemma cint_add_exact (a b : Z) :
  CInt.in_range (a + b) -> CInt.add a b = a + b.
Proof. apply cint_wrap_id. Qed.

Lemma cint_div_nonneg (a b : Z) :
  0 <= a <= CInt.INT_MAX -> 0 < b -> CInt.div a b = a / b.
Proof.
  intros Ha Hb. unfold CInt.div.
  rewrite Z.quot_div_nonneg by lia.
  apply cint_wrap_id. unfold CInt.in_range, CInt.INT_MIN, CInt.INT_MAX in *.
  pose proof (Z.div_pos a b). pose proof (Z.div_le_upper_bound a b (2 ^ 31 - 1)).
  assert (a / b <= a) by (apply Z.div_le_upper_bound; nia).
  lia.
Qed.

(** ** Battery: percentage mapping *)

Section BatteryPercent.
Import Battery.

Lemma percent_high (v : Z) :
BATTERY_V_MAX <= v -> calculate_battery_percent v = 100.
Proof.
intros H. unfold calculate_battery_percent.
destruct (Z.geb_spec v BATTERY_V_MAX); [reflexivity | lia].
Qed.

Lemma percent_low (v : Z) :
v <= BATTERY_V_MIN -> calculate_battery_percent v = 0.
Proof.
intros H. unfold calculate_battery_percent, BATTERY_V_MAX, BATTERY_V_MIN in *.
destruct (Z.geb_spec v 2500); [lia |].
destruct (Z.leb_spec v 2250); [reflexivity | lia].
Qed.

Lemma percent_mid (v : Z) :
BATTERY_V_MIN < v < BATTERY_V_MAX ->
calculate_battery_percent v = (v - 2250) * 100 / 250.
Proof.
unfold calculate_battery_percent, BATTERY_V_MAX, BATTERY_V_MIN. intros H.
destruct (Z.geb_spec v 2500); [lia |].
destruct (Z.leb_spec v 2250); [lia |].
unfold CInt.sub, CInt.mul.
rewrite (cint_wrap_id (v - 2250))
by cint_range.
rewrite (cint_wrap_id ((v - 2250) * 100))
by cint_range.
change (CInt.wrap (2500 - 2250)) with 250.
apply cint_div_nonneg; unfold CInt.INT_MAX; lia.
Qed.

Lemma percent_mid_range (v : Z) :
BATTERY_V_MIN < v < BATTERY_V_MAX ->
0 <= calculate_battery_percent v <= 99.
Proof.
intros H. rewrite percent_mid by exact H.
unfold BATTERY_V_MAX, BATTERY_V_MIN in H.
split.
- apply Z.div_pos; lia.
- apply Z.lt_succ_r. apply Z.div_lt_upper_bound; lia.
Qed.

End BatteryPercent.

(** C5. [calculate_battery_percent] is 100 at or above 2500 mV, 0 at or below
    2250 mV, exactly 50 at the midpoint 2375 mV, and the integer linear
    interpolation [(v - 2250) * 100 / (2500 - 2250)] strictly between the two
    thresholds. *)
Theorem battery_percent_table (v : Z) :
  (2500 <= v -> Battery.calculate_battery_percent v = 100) /\
  (v <= 2250 -> Battery.calculate_battery_percent v = 0) /\
  (2250 < v < 2500 ->
     Battery.calculate_battery_percent v = (v - 2250) * 100 / (2500 - 2250)) /\
  Battery.calculate_battery_percent 2375 = 50.
Proof.
  split; [apply percent_high |].
  split; [apply percent_low |].
  split; [apply percent_mid | reflexivity].
Qed.

Lemma battery_percent_table_witness :
  Battery.calculate_battery_percent 2500 = 100 /\
  Battery.calculate_battery_percent 2250 = 0 /\
  Battery.calculate_battery_percent 2300 = (2300 - 2250) * 100 / (2500 - 2250).
Proof.
  split; [| split].
  - apply (proj1 (battery_percent_table 2500)). lia.
  - apply (proj1 (proj2 (battery_percent_table 2250))). lia.
  - apply (proj1 (proj2 (proj2 (battery_percent_table 2300)))). lia.
Defined.

(** C6. For every integer voltage the percentage lies in [0, 100], and the
    mapping is monotonically non-decreasing in the voltage. *)
Theorem battery_percent_bounded_monotone (v1 v2 : Z) :
  0 <= Battery.calculate_battery_percent v1 <= 100 /\
  (v1 <= v2 ->
   Battery.calculate_battery_percent v1 <= Battery.calculate_battery_percent v2).
Proof.
  assert (Hrange : forall v, 0 <= Battery.calculate_battery_percent v <= 100).
  { intros v.
    destruct (Z_le_gt_dec Battery.BATTERY_V_MAX v) as [Hhi | Hhi].
    - rewrite percent_high by exact Hhi. lia.
    - destruct (Z_le_gt_dec v Battery.BATTERY_V_MIN) as [Hlo | Hlo].
      + rewrite percent_low by exact Hlo. lia.
      + pose proof (percent_mid_range v). lia. }
  split; [apply Hrange |].
  intros Hle.
  destruct (Z_le_gt_dec Battery.BATTERY_V_MAX v2) as [Hhi2 | Hhi2].
  { rewrite (percent_high v2) by exact Hhi2. apply Hrange. }
  destruct (Z_le_gt_dec v1 Battery.BATTERY_V_MIN) as [Hlo1 | Hlo1].
  { rewrite (percent_low v1) by exact Hlo1. apply Hrange. }
  rewrite !percent_mid by lia.
  apply Z.div_le_mono; lia.
Qed.

Lemma battery_percent_bounded_monotone_witness :
  Battery.calculate_battery_percent 2300 <= Battery.calculate_battery_percent 2400.
Proof.
  apply (proj2 (battery_percent_bounded_monotone 2300 2400)). lia.
Defined.

(** ** Battery: sample averaging *)

Section BatterySampling.
Import Battery.

Variable rd : nat -> esp_err_t * Z.

(** As long as the running sum stays inside [int], the loop returns the
mathematical sum of the samples it read. *)
Lemma sample_loop_exact (B : Z) (n : nat) :
forall (i : nat) (acc : Z),
(forall j, (i <= j < i + n)%nat ->
         fst (rd j) = ESP_OK /\ 0 <= snd (rd j) <= B) ->
0 <= acc ->
acc + Z.of_nat n * B <= CInt.INT_MAX ->
sample_loop rd n i acc = Some (acc + sumZ (samples_from rd i n))
/\ 0 <= sumZ (samples_from rd i n) <= Z.of_nat n * B.
Proof.
induction n as [| n IH]; intros i acc Hrd Hacc Hfit.
- cbn. split; [f_equal; lia | lia].
- destruct (Hrd i ltac:(lia)) as [Hok Hval].
cbn [sample_loop]. destruct (rd i) as [err raw] eqn:Hri.
cbn in Hok, Hval. subst err. cbn [Z.eqb ESP_OK].
assert (Hadd : CInt.add acc raw = acc + raw).
{ apply cint_add_exact.
unfold CInt.in_range, CInt.INT_MIN, CInt.INT_MAX in *. nia. }
rewrite Hadd.
destruct (IH (S i) (acc + raw)) as [Hloop Hsum].
+ intros j Hj. apply Hrd. lia.
+ lia.
+ nia.
+ unfold samples_from in *. cbn [seq map sumZ fold_right].
rewrite Hri. cbn [snd]. fold (sumZ (map (fun j => snd (rd j)) (seq (S i) n))).
rewrite Hloop. split; [f_equal; lia | nia].
Qed.

Lemma sumZ_bounds (lo hi : Z) (l : list Z) :
(forall x, In x l -> lo <= x <= hi) ->
Z.of_nat (length l) * lo <= sumZ l <= Z.of_nat (length l) * hi.
Proof.
induction l as [| x l IH]; intros H.
- cbn. lia.
- cbn [sumZ fold_right length]. fold (sumZ l).
pose proof (H x (or_introl eq_refl)).
assert (Z.of_nat (length l) * lo <= sumZ l <= Z.of_nat (length l) * hi)
by (apply IH; intros y Hy; apply H; right; exact Hy).
lia.
Qed.

Lemma list_min_le (d : Z) (l : list Z) (x : Z) :
In x l -> list_min d l <= x.
Proof.
induction l as [| y l IH]; intros Hin; [destruct Hin |].
cbn. destruct Hin as [-> | Hin]; [lia |]. specialize (IH Hin).
unfold list_min in IH. lia.
Qed.

Lemma list_max_ge (d : Z) (l : list Z) (x : Z) :
In x l -> x <= list_max d l.
Proof.
induction l as [| y l IH]; intros Hin; [destruct Hin |].
cbn. destruct Hin as [-> | Hin]; [lia |]. specialize (IH Hin).
unfold list_max in IH. lia.
Qed.

Lemma raw_samples_from : raw_samples rd = samples_from rd 0 ADC_SAMPLES.
Proof. reflexivity. Qed.

Lemma raw_samples_length : length (raw_samples rd) = ADC_SAMPLES.
Proof. unfold raw_samples, samples_from. rewrite length_map, length_seq. reflexivity. Qed.

(** The average of a run whose samples are small enough not to overflow
the 32-bit accumulator. *)
Lemma raw_average_exact :
(forall j, (j < ADC_SAMPLES)%nat ->
       fst (rd j) = ESP_OK /\ 0 <= snd (rd j) <= SAMPLE_SAFE_MAX) ->
raw_average rd = Some (sumZ (raw_samples rd) / 500).
Proof.
intros Hrd. unfold raw_average.
destruct (sample_loop_exact SAMPLE_SAFE_MAX ADC_SAMPLES 0 0) as [Hloop Hsum].
- intros j Hj. apply Hrd. lia.
- lia.
- unfold ADC_SAMPLES, SAMPLE_SAFE_MAX, CInt.INT_MAX. lia.
- rewrite Hloop, Z.add_0_l, <- raw_samples_from. f_equal.
rewrite raw_samples_from.
change (Z.of_nat ADC_SAMPLES) with 500 in *.
apply cint_div_nonneg; [| lia].
unfold SAMPLE_SAFE_MAX, CInt.INT_MAX in *. lia.
Qed.

End BatterySampling.

(** C7. For every ADC sample set, that is every run of 500 successful reads
    of 12-bit raw values 0 .. 4095 (and, beyond the ADC's range, of any raw
    values from 0 to 4294967, for which the sum still fits the 32-bit
    accumulator), the integer average computed by [read_battery_voltage] is
    the sum divided by 500 and lies between the smallest and the largest raw
    sample, inclusive. *)
Theorem raw_average_between_min_max (rd : nat -> esp_err_t * Z) :
  (forall j, (j < Battery.ADC_SAMPLES)%nat ->
             fst (rd j) = ESP_OK /\ 0 <= snd (rd j) <= Battery.SAMPLE_SAFE_MAX) ->
  exists avg,
    Battery.raw_average rd = Some avg /\
    avg = Battery.sumZ (Battery.raw_samples rd) / 500 /\
    Battery.samples_min rd <= avg <= Battery.samples_max rd.
Proof.
  intros Hrd. exists (Battery.sumZ (Battery.raw_samples rd) / 500).
  split; [apply raw_average_exact; exact Hrd |]. split; [reflexivity |].
  pose proof (sumZ_bounds (Battery.samples_min rd) (Battery.samples_max rd)
                (Battery.raw_samples rd)) as Hb.
  rewrite raw_samples_length in Hb.
  change (Z.of_nat Battery.ADC_SAMPLES) with 500 in Hb.
  destruct Hb as [Hlo Hhi].
  { intros x Hx. split.
    - apply list_min_le. exact Hx.
    - apply list_max_ge. exact Hx. }
  split.
  - apply Z.div_le_lower_bound; lia.
  - apply Z.div_le_upper_bound; lia.
Qed.

Lemma raw_average_between_min_max_witness :
  exists avg,
    Battery.raw_average Battery.adc_ramp = Some avg /\
    avg = Battery.sumZ (Battery.raw_samples Battery.adc_ramp) / 500 /\
    Battery.samples_min Battery.adc_ramp <= avg <= Battery.samples_max Battery.adc_ramp.
Proof.
  apply (raw_average_between_min_max Battery.adc_ramp).
  intros j Hj. unfold Battery.adc_ramp, Battery.SAMPLE_SAFE_MAX. cbn [fst snd].
  split; [reflexivity |].
  pose proof (Z.mod_pos_bound (Z.of_nat j) 4096). lia.
Defined.

(** ** SD card: power rail lifecycle *)

Section SdCardFacts.
Import SdCard.
Context {W : Type} (D : sd_driver W).

Lemma sd_unmount_clears (s : app_state) (h : hw W) :
sd_pwr_ctrl_handle (sd_unmount D s h).1.2 = None /\
sd_card (sd_unmount D s h).1.2 = None /\
sd_mounted (sd_unmount D s h).1.2 = sd_mounted s.
Proof.
unfold sd_unmount.
destruct (esp_vfs_fat_sdcard_unmount D (sd_card s) (world h)) as [ret w1].
cbn. destruct (sd_pwr_ctrl_handle s) eqn:Hh; cbn; rewrite ?Hh; repeat split; reflexivity.
Qed.

Lemma sd_unmount_ret (s : app_state) (h : hw W) :
(sd_unmount D s h).1.1 = fst (esp_vfs_fat_sdcard_unmount D (sd_card s) (world h)).
Proof.
unfold sd_unmount.
destruct (esp_vfs_fat_sdcard_unmount D (sd_card s) (world h)) as [ret w1].
cbn. destruct (sd_pwr_ctrl_handle s); reflexivity.
Qed.

Lemma sd_mount_keeps_flag (s : app_state) (h : hw W) :
sd_mounted (sd_mount D s h).1.2 = sd_mounted s.
Proof.
unfold sd_mount.
destruct (sd_pwr_ctrl_new_on_chip_ldo D LDO_CHAN_ID (world h)) as [[ret out] w1].
destruct (negb (ret =? ESP_OK)); [reflexivity |].
cbn [sd_pwr_ctrl_handle set_sd_pwr_ctrl_handle].
destruct (esp_vfs_fat_sdmmc_mount D _ w1) as [[ret' oc] w2].
destruct (negb (ret' =? ESP_OK)); reflexivity.
Qed.

(** A failing [sd_mount] entered with a null handle leaves it null. *)
Lemma sd_mount_failure_null (s : app_state) (h : hw W) :
ldo_failure_writes_nothing D ->
sd_pwr_ctrl_handle s = None ->
(sd_mount D s h).1.1 <> ESP_OK ->
sd_pwr_ctrl_handle (sd_mount D s h).1.2 = None.
Proof.
intros Hldo Hnull. unfold sd_mount.
destruct (sd_pwr_ctrl_new_on_chip_ldo D LDO_CHAN_ID (world h))
as [[ret out] w1] eqn:Hnew.
destruct (Z.eqb_spec ret ESP_OK) as [-> | Hret]; cbn [negb].
- cbn [sd_pwr_ctrl_handle set_sd_pwr_ctrl_handle].
destruct (esp_vfs_fat_sdmmc_mount D _ w1) as [[ret' oc] w2].
destruct (Z.eqb_spec ret' ESP_OK) as [-> | Hret']; cbn [negb]; cbn.
+ intros Hc. exfalso. apply Hc. reflexivity.
+ reflexivity.
- cbn. intros _. rewrite Hnull.
rewrite (Hldo _ _ _ _ _ Hnew Hret). reflexivity.
Qed.

(** A successful [sd_mount] leaves the handle the driver stored. *)
Lemma sd_mount_success_handle (s : app_state) (h : hw W) :
ldo_success_writes_handle D ->
(sd_mount D s h).1.1 = ESP_OK ->
sd_pwr_ctrl_handle (sd_mount D s h).1.2 <> None.
Proof.
intros Hldo. unfold sd_mount.
destruct (sd_pwr_ctrl_new_on_chip_ldo D LDO_CHAN_ID (world h))
as [[ret out] w1] eqn:Hnew.
destruct (Z.eqb_spec ret ESP_OK) as [-> | Hret]; cbn [negb].
- cbn [sd_pwr_ctrl_handle set_sd_pwr_ctrl_handle].
pose proof (Hldo _ _ _ _ _ Hnew eq_refl) as Hout.
destruct out as [p |]; [| congruence]. cbn [store_out].
destruct (esp_vfs_fat_sdmmc_mount D _ w1) as [[ret' oc] w2].
destruct (Z.eqb_spec ret' ESP_OK) as [-> | Hret']; cbn [negb]; cbn.
+ intros _. discriminate.
+ intros Hc. contradiction.
- cbn. intros Hc. contradiction.
Qed.

Lemma click_rail_implies_mounted (s : app_state) (h : hw W) :
ldo_failure_writes_nothing D ->
rail_implies_mounted s ->
rail_implies_mounted (mount_btn_click_cb D s h).1.
Proof.
intros Hldo Hinv. unfold mount_btn_click_cb, rail_implies_mounted in *.
destruct (sd_mounted s) eqn:Hm.
- pose proof (sd_unmount_clears s h) as (Hh & _ & _).
destruct (sd_unmount D s h) as [[ret s1] h1]. cbn in Hh.
destruct (ret =? ESP_OK); cbn; rewrite Hh; congruence.
- set (s0 := set_status_label s (Text "Mounting...")).
assert (Hnull : sd_pwr_ctrl_handle s0 = None).
{ cbn. destruct (sd_pwr_ctrl_handle s); [| reflexivity].
assert (false = true) by (apply Hinv; discriminate). discriminate. }
pose proof (sd_mount_failure_null s0 h Hldo Hnull) as Hfail.
destruct (sd_mount D s0 h) as [[ret s1] h1]. cbn in Hfail.
destruct (Z.eqb_spec ret ESP_OK) as [-> | Hret]; cbn.
+ reflexivity.
+ rewrite (Hfail Hret). congruence.
Qed.

Lemma run_rail_implies_mounted (envs : list (W -> W)) :
ldo_failure_writes_nothing D ->
forall (s : app_state) (h : hw W),
rail_implies_mounted s -> rail_implies_mounted (run D envs s h).1.
Proof.
intros Hldo. induction envs as [| env envs IH]; intros s h Hinv.
- exact Hinv.
- cbn [run].
pose proof (click_rail_implies_mounted s (mk_hw (env (world h)) (calls h))
            Hldo Hinv) as Hstep.
destruct (mount_btn_click_cb D s _) as [s' h']. apply IH. exact Hstep.
Qed.

(** Hence [sd_mount], which the callback calls only while [sd_mounted] is
  false, is always entered with a null rail handle. *)
Lemma sd_mount_entry_null (envs : list (W -> W)) (w0 : W) :
ldo_failure_writes_nothing D ->
sd_mounted (run D envs initial_state (mk_hw w0 [])).1 = false ->
sd_pwr_ctrl_handle (run D envs initial_state (mk_hw w0 [])).1 = None.
Proof.
intros Hldo Hm.
assert (Hinit : rail_implies_mounted initial_state)
  by (intros Hc; cbn in Hc; congruence).
pose proof (run_rail_implies_mounted envs Hldo initial_state (mk_hw w0 []) Hinit)
  as Hinv.
unfold rail_implies_mounted in Hinv.
destruct (sd_pwr_ctrl_handle (run D envs initial_state (mk_hw w0 [])).1) eqn:Hh;
  [| reflexivity].
rewrite Hinv in Hm by discriminate. discriminate Hm.
Qed.

End SdCardFacts.

Section SdSimulation.
Import SdCard.

Lemma sim_ldo_failure_writes_nothing (card stuck : bool) :
ldo_failure_writes_nothing (sim_driver card stuck).
Proof.
intros chan w ret out w' Hcall Hret. cbn in Hcall.
destruct w; injection Hcall as <- <- <-; [reflexivity | contradiction].
Qed.

Lemma sim_ldo_success_writes_handle (card stuck : bool) :
ldo_success_writes_handle (sim_driver card stuck).
Proof.
intros chan w ret out w' Hcall Hret. cbn in Hcall.
destruct w; injection Hcall as <- <- <-; [discriminate Hret | discriminate].
Qed.

End SdSimulation.

(** C1, evaluated where the code breaks it.  On a slot whose unmount call
    fails, a mount click followed by an unmount click leaves the card flagged
    mounted although the rail object was deleted and its handle set to null:
    [sd_unmount] releases the rail whatever the unmount call returned, and
    [mount_btn_click_cb] keeps [sd_mounted] set on failure.  On the same
    clicks with an unmount call that succeeds, the sibling path clears the
    flag together with the handle. *)
Theorem sd_failed_unmount_breaks_pairing :
  let failed := SdCard.run (SdCard.sim_driver true true) [id; id]
                  SdCard.initial_state (SdCard.power_on false) in
  let passed := SdCard.run (SdCard.sim_driver true false) [id; id]
                  SdCard.initial_state (SdCard.power_on false) in
  (SdCard.sd_mounted failed.1 = true /\
   SdCard.sd_pwr_ctrl_handle failed.1 = None /\
   SdCard.sd_card failed.1 = None /\
   SdCard.status_label failed.1 = SdCard.Text "Unmount failed!" /\
   SdCard.calls failed.2 =
     [SdCard.CallNewLdo 4; SdCard.CallFatMount (Some 1%positive);
      SdCard.CallFatUnmount (Some 2%positive); SdCard.CallDelLdo (Some 1%positive)] /\
   ~ SdCard.mounted_implies_rail failed.1) /\
  (SdCard.sd_mounted passed.1 = false /\
   SdCard.sd_pwr_ctrl_handle passed.1 = None /\
   SdCard.calls passed.2 = SdCard.calls failed.2 /\
   SdCard.mounted_implies_rail passed.1).
Proof.
  cbv zeta. split.
  - repeat (split; [reflexivity |]).
    intros H. apply H; reflexivity.
  - repeat (split; [reflexivity |]).
    intros H. discriminate H.
Qed.

(** C2. For an execution of [sd_mount] (entered, as every execution is, with
    a null rail handle): if allocating the rail control object fails,
    [sd_mount] returns that error having made no other driver call and
    changed no variable, so the handle remains null; if the filesystem mount
    fails, it deletes the rail object, sets the handle to null and returns
    the mount error.  Hence after any failing [sd_mount] the handle is
    null. *)
Theorem sd_mount_failure_paths {W : Type} (D : SdCard.sd_driver W)
    (s : SdCard.app_state) (h : SdCard.hw W) :
  SdCard.ldo_failure_writes_nothing D ->
  SdCard.sd_pwr_ctrl_handle s = None ->
  (forall ret out w1,
     SdCard.sd_pwr_ctrl_new_on_chip_ldo D SdCard.LDO_CHAN_ID (SdCard.world h)
       = (ret, out, w1) ->
     ret <> ESP_OK ->
     SdCard.sd_mount D s h =
       (ret, s, SdCard.mk_hw w1 (SdCard.calls h ++ [SdCard.CallNewLdo SdCard.LDO_CHAN_ID])))
  /\
  (forall out w1 ret out_card w2,
     SdCard.sd_pwr_ctrl_new_on_chip_ldo D SdCard.LDO_CHAN_ID (SdCard.world h)
       = (ESP_OK, out, w1) ->
     SdCard.esp_vfs_fat_sdmmc_mount D out w1 = (ret, out_card, w2) ->
     ret <> ESP_OK ->
     exists s',
       SdCard.sd_mount D s h =
         (ret, s',
          SdCard.mk_hw (SdCard.sd_pwr_ctrl_del_on_chip_ldo D out w2)
            (SdCard.calls h ++ [SdCard.CallNewLdo SdCard.LDO_CHAN_ID;
                                SdCard.CallFatMount out; SdCard.CallDelLdo out]))
       /\ SdCard.sd_pwr_ctrl_handle s' = None)
  /\
  (forall ret s' h',
     SdCard.sd_mount D s h = (ret, s', h') ->
     ret <> ESP_OK ->
     SdCard.sd_pwr_ctrl_handle s' = None).
Proof.
  intros Hldo Hnull. split; [| split].
  - intros ret out w1 Hnew Hret. unfold SdCard.sd_mount. rewrite Hnew.
    destruct (Z.eqb_spec ret ESP_OK) as [-> | _]; [contradiction |]. cbn [negb].
    rewrite (Hldo _ _ _ _ _ Hnew Hret), Hnull.
    destruct s as [c p m t b]. cbn in Hnull. subst p. reflexivity.
  - intros out w1 ret out_card w2 Hnew Hmnt Hret. unfold SdCard.sd_mount.
    rewrite Hnew. cbn [Z.eqb ESP_OK negb].
    rewrite Hnull.
    assert (Hst : SdCard.store_out None out = out) by (destruct out; reflexivity).
    rewrite Hst. cbn [SdCard.sd_pwr_ctrl_handle SdCard.set_sd_pwr_ctrl_handle].
    rewrite Hmnt.
    destruct (Z.eqb_spec ret ESP_OK) as [-> | _]; [contradiction |]. cbn [negb].
    eexists. split.
    + cbn. rewrite <- !app_assoc. reflexivity.
    + reflexivity.
  - intros ret s' h' Hrun Hret.
    pose proof (sd_mount_failure_null D s h Hldo Hnull) as Hf.
    rewrite Hrun in Hf. apply Hf. exact Hret.
Qed.

Lemma sd_mount_failure_paths_witness :
  SdCard.sd_mount (SdCard.sim_driver true false) SdCard.initial_state (SdCard.power_on true)
    = (ESP_ERR_INVALID_STATE, SdCard.initial_state,
       SdCard.mk_hw true [SdCard.CallNewLdo 4])
  /\
  (exists s',
     SdCard.sd_mount (SdCard.sim_driver false false) SdCard.initial_state
       (SdCard.power_on false)
     = (ESP_ERR_TIMEOUT, s',
        SdCard.mk_hw false [SdCard.CallNewLdo 4; SdCard.CallFatMount (Some 1%positive);
                            SdCard.CallDelLdo (Some 1%positive)])
     /\ SdCard.sd_pwr_ctrl_handle s' = None).
Proof.
  split.
  - apply (proj1 (sd_mount_failure_paths (SdCard.sim_driver true false)
                    SdCard.initial_state (SdCard.power_on true)
                    (sim_ldo_failure_writes_nothing true false) eq_refl)
             ESP_ERR_INVALID_STATE None true); [reflexivity | discriminate].
  - apply (proj1 (proj2 (sd_mount_failure_paths (SdCard.sim_driver false false)
                    SdCard.initial_state (SdCard.power_on false)
                    (sim_ldo_failure_writes_nothing false false) eq_refl))
             (Some 1%positive) true ESP_ERR_TIMEOUT None true);
      [reflexivity | reflexivity | discriminate].
Defined.



(** ** WiFi HTTP: retry counter *)

Section WifiRetry.
Import WifiHttp.

(** While retries remain, each disconnect reconnects once and counts it. *)
Lemma disconnects_retrying (n : nat) :
forall s : state,
0 <= wifi_retry_count s ->
wifi_retry_count s + Z.of_nat n <= WIFI_MAX_RETRY ->
wifi_retry_count (disconnects n s) = wifi_retry_count s + Z.of_nat n /\
wifi_calls (disconnects n s) = wifi_calls s ++ repeat CallWifiConnect n /\
event_bits (disconnects n s) = event_bits s /\
ip_label (disconnects n s) = ip_label s.
Proof.
induction n as [| n IH]; intros s Hlo Hhi.
- cbn. rewrite app_nil_r. repeat split; lia.
- cbn [disconnects]. unfold WIFI_MAX_RETRY in *.
assert (Hstep : on_disconnect s =
        mk_state (wifi_retry_count s + 1) (event_bits s) (ip_label s)
                 (wifi_calls s ++ [CallWifiConnect])).
{ unfold on_disconnect, wifi_event_handler. cbn [Z.eqb WIFI_EVENT_STA_DISCONNECTED
  WIFI_EVENT_STA_START Pos.eqb].
unfold WIFI_MAX_RETRY.
destruct (Z.ltb_spec (wifi_retry_count s) 5); [| lia].
unfold set_wifi_retry_count, esp_wifi_connect. cbn.
rewrite cint_add_exact; [reflexivity |].
cint_range. }
rewrite Hstep.
destruct (IH (mk_state (wifi_retry_count s + 1) (event_bits s) (ip_label s)
              (wifi_calls s ++ [CallWifiConnect]))) as (Hc & Hl & Hb & Hi).
+ cbn. lia.
+ cbn. lia.
+ cbn in Hc, Hl, Hb, Hi. rewrite Hc, Hl, Hb, Hi.
repeat split; [lia |]. rewrite <- app_assoc. reflexivity.
Qed.

(** Once the retries are used up, a disconnect only raises the failure bit. *)
Lemma disconnects_exhausted (n : nat) :
forall s : state,
WIFI_MAX_RETRY <= wifi_retry_count s ->
wifi_retry_count (disconnects n s) = wifi_retry_count s /\
wifi_calls (disconnects n s) =
wifi_calls s ++ repeat (CallSetBits WIFI_FAIL_BIT) n /\
(0 < n -> event_bits (disconnects n s) = Z.lor (event_bits s) WIFI_FAIL_BIT)%nat.
Proof.
induction n as [| n IH]; intros s Hfull.
- cbn. rewrite app_nil_r. repeat split; lia.
- cbn [disconnects]. unfold WIFI_MAX_RETRY in *.
assert (Hstep : on_disconnect s = xEventGroupSetBits WIFI_FAIL_BIT s).
{ unfold on_disconnect, wifi_event_handler. cbn [Z.eqb WIFI_EVENT_STA_DISCONNECTED
  WIFI_EVENT_STA_START Pos.eqb].
unfold WIFI_MAX_RETRY.
destruct (Z.ltb_spec (wifi_retry_count s) 5); [lia | reflexivity]. }
rewrite Hstep.
destruct (IH (xEventGroupSetBits WIFI_FAIL_BIT s)) as (Hc & Hl & Hb).
+ cbn. lia.
+ rewrite Hc, Hl. cbn [xEventGroupSetBits wifi_retry_count wifi_calls event_bits] in *.
split; [reflexivity |]. split; [rewrite <- app_assoc; reflexivity |].
intros _. destruct n as [| n'].
* reflexivity.
* rewrite Hb by lia. rewrite <- Z.lor_assoc, Z.lor_diag. reflexivity.
Qed.

Lemma disconnects_add (n m : nat) (s : state) :
disconnects (n + m) s = disconnects m (disconnects n s).
Proof.
revert s. induction n as [| n IH]; intros s; [reflexivity |].
cbn [Nat.add disconnects]. apply IH.
Qed.

Lemma reconnects_app (l1 l2 : list wifi_call) :
reconnects (l1 ++ l2) = (reconnects l1 + reconnects l2)%nat.
Proof. unfold reconnects. rewrite List.filter_app, List.length_app. reflexivity. Qed.

Lemma fail_signals_app (l1 l2 : list wifi_call) :
fail_signals (l1 ++ l2) = (fail_signals l1 + fail_signals l2)%nat.
Proof. unfold fail_signals. rewrite List.filter_app, List.length_app. reflexivity. Qed.

Lemma reconnects_repeat_connect (n : nat) :
reconnects (repeat CallWifiConnect n) = n.
Proof.
induction n as [| n IH]; [reflexivity |].
unfold reconnects in *. cbn [repeat List.filter is_connect length]. rewrite IH. reflexivity.
Qed.

Lemma reconnects_repeat_fail (n : nat) :
reconnects (repeat (CallSetBits WIFI_FAIL_BIT) n) = 0%nat.
Proof. induction n as [| n IH]; [reflexivity |]. exact IH. Qed.

End WifiRetry.

Lemma land_lor_same (a b : Z) : Z.land (Z.lor a b) b = b.
Proof.
  apply Z.bits_inj'. intros n Hn.
  rewrite Z.land_spec, Z.lor_spec.
  destruct (Z.testbit a n), (Z.testbit b n); reflexivity.
Qed.

(** C4. Starting from retry counter 0: for every N <= 5, N consecutive
    disconnect events make N reconnect attempts and bring the counter to
    exactly N, and a following got-IP event resets it to 0 (and raises the
    connected bit).  Six consecutive disconnect events make five reconnect
    attempts and then raise WIFI_FAIL_BIT, exactly once; any further
    disconnect events attempt no reconnect. *)
Theorem wifi_retry_logic (s : WifiHttp.state) :
  WifiHttp.wifi_retry_count s = 0 ->
  (forall (N : nat) (ip : Z), (N <= 5)%nat ->
     WifiHttp.wifi_retry_count (WifiHttp.disconnects N s) = Z.of_nat N /\
     WifiHttp.wifi_calls (WifiHttp.disconnects N s) =
       WifiHttp.wifi_calls s ++ repeat WifiHttp.CallWifiConnect N /\
     WifiHttp.wifi_retry_count (WifiHttp.on_got_ip ip (WifiHttp.disconnects N s)) = 0 /\
     Z.land (WifiHttp.event_bits (WifiHttp.on_got_ip ip (WifiHttp.disconnects N s)))
            WifiHttp.WIFI_CONNECTED_BIT = WifiHttp.WIFI_CONNECTED_BIT)
  /\
  WifiHttp.wifi_calls (WifiHttp.disconnects 6 s) =
    WifiHttp.wifi_calls s ++ repeat WifiHttp.CallWifiConnect 5
      ++ [WifiHttp.CallSetBits WifiHttp.WIFI_FAIL_BIT]
  /\
  WifiHttp.fail_signals (WifiHttp.wifi_calls (WifiHttp.disconnects 6 s)) =
    (WifiHttp.fail_signals (WifiHttp.wifi_calls s) + 1)%nat
  /\
  Z.land (WifiHttp.event_bits (WifiHttp.disconnects 6 s)) WifiHttp.WIFI_FAIL_BIT
    = WifiHttp.WIFI_FAIL_BIT
  /\
  (forall m : nat,
     WifiHttp.reconnects (WifiHttp.wifi_calls (WifiHttp.disconnects (6 + m) s)) =
       (WifiHttp.reconnects (WifiHttp.wifi_calls s) + 5)%nat).
Proof.
  intros H0.
  assert (Hfive : forall N : nat, (N <= 5)%nat ->
            WifiHttp.wifi_retry_count (WifiHttp.disconnects N s) = Z.of_nat N /\
            WifiHttp.wifi_calls (WifiHttp.disconnects N s) =
              WifiHttp.wifi_calls s ++ repeat WifiHttp.CallWifiConnect N /\
            WifiHttp.event_bits (WifiHttp.disconnects N s) = WifiHttp.event_bits s).
  { intros N HN.
    destruct (disconnects_retrying N s) as (Hc & Hl & Hb & _).
    - lia.
    - unfold WifiHttp.WIFI_MAX_RETRY. lia.
    - rewrite Hc, H0. auto. }
  assert (Hmore : forall m : nat,
            WifiHttp.wifi_calls (WifiHttp.disconnects (5 + m) s) =
              (WifiHttp.wifi_calls s ++ repeat WifiHttp.CallWifiConnect 5) ++
              repeat (WifiHttp.CallSetBits WifiHttp.WIFI_FAIL_BIT) m /\
            ((0 < m)%nat ->
             WifiHttp.event_bits (WifiHttp.disconnects (5 + m) s) =
               Z.lor (WifiHttp.event_bits s) WifiHttp.WIFI_FAIL_BIT)).
  { intros m. rewrite disconnects_add.
    destruct (Hfive 5%nat (le_n 5)) as (Hc & Hl & Hb).
    destruct (disconnects_exhausted m (WifiHttp.disconnects 5 s)) as (_ & Hl' & Hb').
    - rewrite Hc. unfold WifiHttp.WIFI_MAX_RETRY. lia.
    - rewrite Hl', Hl. split; [reflexivity |].
      intros Hm. rewrite Hb' by exact Hm. rewrite Hb. reflexivity. }
  split; [| split; [| split; [| split]]].
  - intros N ip HN. destruct (Hfive N HN) as (Hc & Hl & _).
    split; [exact Hc |]. split; [exact Hl |].
    unfold WifiHttp.on_got_ip, WifiHttp.wifi_event_handler.
    cbn [Z.eqb WifiHttp.IP_EVENT_STA_GOT_IP].
    unfold WifiHttp.set_ip_label_text.
    destruct (WifiHttp.ip_label _); cbn; split; try reflexivity; apply land_lor_same.
  - destruct (Hmore 1%nat) as [Hl _]. change (5 + 1)%nat with 6%nat in Hl.
    rewrite Hl, <- app_assoc. reflexivity.
  - destruct (Hmore 1%nat) as [Hl _]. change (5 + 1)%nat with 6%nat in Hl.
    rewrite Hl, !fail_signals_app.
    assert (Hr : forall k, WifiHttp.fail_signals (repeat WifiHttp.CallWifiConnect k) = 0%nat)
      by (induction k as [| k IHk]; [reflexivity | exact IHk]).
    rewrite Hr. change (WifiHttp.fail_signals (repeat (WifiHttp.CallSetBits WifiHttp.WIFI_FAIL_BIT) 1)) with 1%nat. lia.
  - destruct (Hmore 1%nat) as [_ Hb]. change (5 + 1)%nat with 6%nat in Hb.
    rewrite Hb by lia. apply land_lor_same.
  - intros m. destruct (Hmore (S m)) as [Hl _].
    replace (6 + m)%nat with (5 + S m)%nat by lia.
    rewrite Hl, !reconnects_app, reconnects_repeat_connect, reconnects_repeat_fail. lia.
Qed.

Lemma wifi_retry_logic_witness :
  WifiHttp.wifi_retry_count (WifiHttp.disconnects 3 WifiHttp.initial_state) = 3 /\
  WifiHttp.wifi_retry_count
    (WifiHttp.on_got_ip 3232235777 (WifiHttp.disconnects 3 WifiHttp.initial_state)) = 0 /\
  WifiHttp.fail_signals (WifiHttp.wifi_calls (WifiHttp.disconnects 6 WifiHttp.initial_state))
    = 1%nat.
Proof.
  pose proof (wifi_retry_logic WifiHttp.initial_state eq_refl) as (HN & _ & Hfail & _).
  destruct (HN 3%nat 3232235777 ltac:(lia)) as (Hc & _ & Hr & _).
  split; [exact Hc |]. split; [exact Hr | exact Hfail].
Defined.

(** ** Reset device: countdown and cancellation *)

Section ResetCountdown.
Import ResetDevice.

(** A running countdown that has more than [k] seconds left only counts
during its next [k] ticks. *)
Lemma ticks_counting (k : nat) :
forall s : state,
restarted s = None -> countdown_active s = true -> countdown_timer s = true ->
Z.of_nat k < countdown_value s <= 5 ->
restarted (run (ticks k) s) = None /\
countdown_active (run (ticks k) s) = true /\
countdown_timer (run (ticks k) s) = true /\
countdown_value (run (ticks k) s) = countdown_value s - Z.of_nat k /\
delayed_btn_label (run (ticks k) s) = delayed_btn_label s /\
(countdown_label s = None <-> countdown_label (run (ticks k) s) = None).
Proof.
induction k as [| k IH]; intros s Hr Ha Ht Hv.
- cbn. repeat split; auto; lia.
- cbn [ticks repeat run fold_left]. fold (ticks k). fold (run (ticks k) (step s TimerTick)).
assert (Hsub : CInt.sub (countdown_value s) 1 = countdown_value s - 1).
{ apply cint_wrap_id. cint_range. }
assert (Hstep : step s TimerTick =
          mk_state true (countdown_value s - 1) true
            (set_text_if_exists (countdown_label s)
               (ResettingIn (countdown_value s - 1)))
            (delayed_btn_label s) None).
{ unfold step. rewrite Hr, Ht. unfold countdown_timer_cb. rewrite Ha, Hsub, Hr, Ht.
  cbn [negb].
  destruct (Z.leb_spec (countdown_value s - 1) 0); [lia |].
  destruct (Z.gtb_spec (countdown_value s - 1) 0); [reflexivity | lia]. }
rewrite Hstep.
destruct (IH (mk_state true (countdown_value s - 1) true
            (set_text_if_exists (countdown_label s)
               (ResettingIn (countdown_value s - 1)))
            (delayed_btn_label s) None)) as (H1 & H2 & H3 & H4 & H5 & H6);
  try reflexivity.
+ cbn. lia.
+ cbn in H4, H5, H6. repeat split; auto; try lia.
  * intros Hn. apply H6. rewrite Hn. reflexivity.
  * intros Hn. apply H6 in Hn. destruct (countdown_label s); [discriminate | reflexivity].
Qed.

(** With no countdown active, timer ticks only delete a left-over timer. *)
Lemma ticks_idle (n : nat) :
forall s : state,
restarted s = None -> countdown_active s = false ->
restarted (run (ticks n) s) = None /\
countdown_active (run (ticks n) s) = false /\
countdown_value (run (ticks n) s) = countdown_value s /\
countdown_label (run (ticks n) s) = countdown_label s /\
delayed_btn_label (run (ticks n) s) = delayed_btn_label s /\
((0 < n)%nat -> countdown_timer (run (ticks n) s) = false).
Proof.
induction n as [| n IH]; intros s Hr Ha.
- cbn. repeat split; auto; lia.
- cbn [ticks repeat run fold_left]. fold (ticks n). fold (run (ticks n) (step s TimerTick)).
assert (Hstep : step s TimerTick =
          mk_state false (countdown_value s) false (countdown_label s)
                   (delayed_btn_label s) None).
{ unfold step. rewrite Hr. destruct (countdown_timer s) eqn:Ht.
  - unfold countdown_timer_cb. rewrite Ha, Hr. reflexivity.
  - destruct s as [a v t l b r]. cbn in *. subst. reflexivity. }
rewrite Hstep.
destruct (IH (mk_state false (countdown_value s) false (countdown_label s)
                   (delayed_btn_label s) None)) as (H1 & H2 & H3 & H4 & H5 & H6);
  try reflexivity.
cbn in H3, H4, H5. repeat split; auto.
intros _. destruct n as [| n']; [reflexivity | apply H6; lia].
Qed.

(** Left alone, a started countdown does restart the chip at its fifth
  tick. *)
Lemma countdown_completes :
restarted (run (ClickDelayedReset :: ticks 4) initial_state) = None /\
restarted (run (ClickDelayedReset :: ticks 5) initial_state) = Some ByCountdownTimer.
Proof. split; reflexivity. Qed.

End ResetCountdown.

(** C9 (as amended). When the delayed-reset countdown is started and then
    cancelled with the button before the counter reaches zero (after [k] < 5
    timer ticks), no number of later timer ticks calls [esp_restart]; the
    cancel leaves the countdown inactive with its value back at 5, the button
    caption back at its idle text "Reset in 5s", and the message label
    showing "Countdown cancelled"; the left-over timer deletes itself at its
    next tick. *)
Theorem countdown_cancel_prevents_reset (s : ResetDevice.state) (k n : nat) :
  ResetDevice.restarted s = None ->
  ResetDevice.countdown_active s = false ->
  (k < 5)%nat ->
  let started := ResetDevice.run (ResetDevice.ClickDelayedReset :: ResetDevice.ticks k) s in
  let cancelled := ResetDevice.step started ResetDevice.ClickDelayedReset in
  let later := ResetDevice.run (ResetDevice.ticks n) cancelled in
  ResetDevice.countdown_active started = true /\
  ResetDevice.restarted later = None /\
  ResetDevice.countdown_active later = false /\
  ResetDevice.countdown_value later = 5 /\
  ResetDevice.delayed_btn_label later =
    ResetDevice.set_text_if_exists (ResetDevice.delayed_btn_label s)
      (ResetDevice.Text "Reset in 5s") /\
  ResetDevice.countdown_label later =
    ResetDevice.set_text_if_exists (ResetDevice.countdown_label s)
      (ResetDevice.Text "Countdown cancelled") /\
  ((0 < n)%nat -> ResetDevice.countdown_timer later = false).
Proof.
  intros Hr Ha Hk started cancelled later.
  assert (Hstart : ResetDevice.step s ResetDevice.ClickDelayedReset =
            ResetDevice.mk_state true 5 true
              (ResetDevice.set_text_if_exists (ResetDevice.countdown_label s)
                 (ResetDevice.ResettingIn 5))
              (ResetDevice.set_text_if_exists (ResetDevice.delayed_btn_label s)
                 (ResetDevice.Text "Cancel"))
              None).
  { unfold ResetDevice.step, ResetDevice.delayed_reset_btn_cb. rewrite Hr, Ha. reflexivity. }
  destruct (ticks_counting k (ResetDevice.step s ResetDevice.ClickDelayedReset))
    as (H1 & H2 & H3 & H4 & H5 & H6);
    try (rewrite Hstart; reflexivity).
  { rewrite Hstart. cbn. lia. }
  change (ResetDevice.run (ResetDevice.ticks k)
            (ResetDevice.step s ResetDevice.ClickDelayedReset)) with started in *.
  assert (Hcancel : cancelled =
            ResetDevice.mk_state false 5 true
              (ResetDevice.set_text_if_exists (ResetDevice.countdown_label started)
                 (ResetDevice.Text "Countdown cancelled"))
              (ResetDevice.set_text_if_exists (ResetDevice.delayed_btn_label started)
                 (ResetDevice.Text "Reset in 5s"))
              None).
  { unfold cancelled, ResetDevice.step, ResetDevice.delayed_reset_btn_cb.
    rewrite H1, H2, H3. reflexivity. }
  destruct (ticks_idle n cancelled) as (I1 & I2 & I3 & I4 & I5 & I6);
    try (rewrite Hcancel; reflexivity).
  fold later in I1, I2, I3, I4, I5, I6.
  split; [exact H2 |]. split; [exact I1 |]. split; [exact I2 |].
  split; [rewrite I3, Hcancel; reflexivity |].
  split.
  - rewrite I5, Hcancel. cbn [ResetDevice.delayed_btn_label]. rewrite H5, Hstart.
    cbn. destruct (ResetDevice.delayed_btn_label s); reflexivity.
  - split; [| exact I6].
    rewrite I4, Hcancel. cbn [ResetDevice.countdown_label].
    rewrite Hstart in H6. cbn [ResetDevice.countdown_label] in H6.
    destruct (ResetDevice.countdown_label s) as [t |] eqn:Hl;
      cbn [ResetDevice.set_text_if_exists] in H6 |- *.
    + destruct (ResetDevice.countdown_label started) eqn:Hs; [reflexivity |].
      destruct H6 as [_ H6]. discriminate (H6 eq_refl).
    + destruct H6 as [H6 _]. rewrite (H6 eq_refl). reflexivity.
Qed.

Lemma countdown_cancel_prevents_reset_witness :
  let started :=
    ResetDevice.run (ResetDevice.ClickDelayedReset :: ResetDevice.ticks 4)
      ResetDevice.initial_state in
  let cancelled := ResetDevice.step started ResetDevice.ClickDelayedReset in
  let later := ResetDevice.run (ResetDevice.ticks 10) cancelled in
  ResetDevice.restarted later = None /\
  ResetDevice.delayed_btn_label later = Some (ResetDevice.Text "Reset in 5s") /\
  ResetDevice.countdown_label later = Some (ResetDevice.Text "Countdown cancelled").
Proof.
  pose proof (countdown_cancel_prevents_reset ResetDevice.initial_state 4 10
                eq_refl eq_refl ltac:(lia)) as (_ & Hr & _ & _ & Hb & Hl & _).
  split; [exact Hr |]. split; [exact Hb | exact Hl].
Defined.

(** C9 as stated fails in its last part: after the cancel the message label
    does not show the idle prompt "Press a button to reset" again, it shows
    "Countdown cancelled" (no reset happens, and the button caption is back
    at "Reset in 5s"). *)
Lemma countdown_cancel_prompt_counterexample :
  let later :=
    ResetDevice.run
      (ResetDevice.ClickDelayedReset :: ResetDevice.ticks 2 ++
       ResetDevice.ClickDelayedReset :: ResetDevice.ticks 3)
      ResetDevice.initial_state in
  ResetDevice.restarted later = None /\
  ResetDevice.countdown_label ResetDevice.initial_state =
    Some (ResetDevice.Text "Press a button to reset") /\
  ResetDevice.countdown_label later = Some (ResetDevice.Text "Countdown cancelled") /\
  ResetDevice.countdown_label later <> ResetDevice.countdown_label ResetDevice.initial_state.
Proof.
  cbv zeta. split; [reflexivity |]. split; [reflexivity |]. split; [reflexivity |].
  vm_compute. discriminate.
Qed.

(** ** Bluetooth: the device table *)

Section BleBytes.
Import Bluetooth.

Lemma same_bda_true (a b : list byte) :
same_bda a b = true <-> take 6 a = take 6 b.
Proof. unfold same_bda. apply bool_decide_eq_true. Qed.

Lemma same_bda_false (a b : list byte) :
same_bda a b = false <-> take 6 a <> take 6 b.
Proof. unfold same_bda. apply bool_decide_eq_false. Qed.

Lemma memcpy6_key (dst a : list byte) :
(6 <= length a)%nat -> take 6 (memcpy6 dst a) = take 6 a.
Proof.
intros Hlen. unfold memcpy6. apply take_app_length'.
rewrite length_take. lia.
Qed.

Lemma c_str_no_nul (s : list byte) : Forall (fun b => b <> NUL) (c_str s).
Proof.
induction s as [| b s IH]; cbn; [constructor |].
case_bool_decide; [constructor |]. constructor; assumption.
Qed.

Lemma c_str_app_nul (s t : list byte) :
Forall (fun b => b <> NUL) s -> c_str (s ++ NUL :: t) = s.
Proof.
induction 1 as [| b s Hb _ IH]; cbn.
- case_bool_decide; [reflexivity | contradiction].
- case_bool_decide; [contradiction |]. rewrite IH. reflexivity.
Qed.

Lemma length_strncpy (dst src : list byte) :
length dst = 32%nat -> length (strncpy dst src 31) = 32%nat.
Proof.
intros Hd. unfold strncpy.
rewrite length_app, length_take, length_app, repeat_length, length_drop. lia.
Qed.

Lemma lookup_strncpy_last (dst src : list byte) :
length dst = 32%nat -> strncpy dst src 31 !! 31%nat = dst !! 31%nat.
Proof.
intros Hd. unfold strncpy.
assert (Hlt : length (take 31 (c_str src ++ repeat NUL 31)) = 31%nat)
  by (rewrite length_take, length_app, repeat_length; lia).
rewrite lookup_app_r by lia. rewrite Hlt, lookup_drop. reflexivity.
Qed.

(** The stored name is the given one, cut to the 31 characters that fit
  the field before its terminator. *)
Lemma c_str_strncpy (dst src : list byte) :
length dst = 32%nat -> dst !! 31%nat = Some NUL ->
c_str (strncpy dst src 31) = take 31 (c_str src).
Proof.
intros Hd Hlast. unfold strncpy.
rewrite take_app, (drop_S _ _ _ Hlast), <- app_assoc.
assert (Hno : Forall (fun b => b <> NUL) (take 31 (c_str src)))
  by (apply Forall_take, c_str_no_nul).
destruct (31 - length (c_str src))%nat as [| m].
- cbn [firstn app]. apply c_str_app_nul. exact Hno.
- replace (repeat NUL 31) with (NUL :: repeat NUL 30) by reflexivity.
  cbn [firstn app]. apply c_str_app_nul. exact Hno.
Qed.

Lemma slot_ok_strncpy (d : ble_device_t) (src : list byte) (r : Z) (b : bool) (a : list byte) :
slot_ok d -> slot_ok (mk_device a (strncpy (name d) src 31) r b).
Proof.
intros [Hl Hn]. split; cbn.
- apply length_strncpy. exact Hl.
- rewrite lookup_strncpy_last by exact Hl. exact Hn.
Qed.

Lemma slot_ok_rssi (d : ble_device_t) (r : Z) (b : bool) (a : list byte) :
slot_ok d -> slot_ok (mk_device a (name d) r b).
Proof. intros H. exact H. Qed.

Lemma slot_ok_clear_name (d : ble_device_t) (r : Z) (b : bool) (a : list byte) :
slot_ok d -> slot_ok (mk_device a (<[0%nat := NUL]> (name d)) r b).
Proof.
intros [Hl Hn]. split; cbn.
- rewrite length_insert. exact Hl.
- rewrite list_lookup_insert_ne by lia. exact Hn.
Qed.

End BleBytes.

Section BleTable.
Import Bluetooth.

(** [find_in] either misses every entry, or returns the index of the first
entry carrying the address. *)
Lemma find_in_spec (l : list ble_device_t) (a : list byte) :
forall i : Z,
(find_in l a i = -1 /\ Forall (fun d => key d <> take 6 a) l) \/
(exists (k : nat) (d : ble_device_t),
    find_in l a i = i + Z.of_nat k /\ l !! k = Some d /\ key d = take 6 a).
Proof.
induction l as [| d l IH]; intros i; cbn [find_in].
- left. split; [reflexivity | constructor].
- destruct (same_bda (bda d) a) eqn:Hs.
+ right. exists 0%nat, d. apply same_bda_true in Hs.
  split; [lia |]. split; [reflexivity | exact Hs].
+ apply same_bda_false in Hs.
  destruct (IH (i + 1)) as [[Hf Hall] | (k & d' & Hf & Hk & Hd)].
  * left. split; [exact Hf | constructor; assumption].
  * right. exists (S k), d'. split; [lia |]. split; assumption.
Qed.

Lemma find_in_keys (l1 : list ble_device_t) (a : list byte) :
forall (l2 : list ble_device_t) (i : Z),
map key l1 = map key l2 -> find_in l1 a i = find_in l2 a i.
Proof.
induction l1 as [| d1 l1 IH]; intros [| d2 l2] i Hk; try discriminate Hk.
- reflexivity.
- cbn in Hk. injection Hk as Hd Hl. cbn [find_in].
replace (same_bda (bda d1) a) with (same_bda (bda d2) a)
  by (unfold same_bda, key in *; rewrite Hd; reflexivity).
rewrite (IH l2 (i + 1) Hl). reflexivity.
Qed.

Lemma find_in_app_miss (l : list ble_device_t) (a : list byte) (d : ble_device_t) :
forall i : Z,
Forall (fun d => key d <> take 6 a) l -> key d = take 6 a ->
find_in (l ++ [d]) a i = i + Z.of_nat (length l).
Proof.
induction l as [| d0 l IH]; intros i Hall Hd.
- cbn. apply same_bda_true in Hd. rewrite Hd. lia.
- inversion Hall as [| ? ? Hd0 Hall']; subst.
cbn [app find_in length]. apply same_bda_false in Hd0. rewrite Hd0.
rewrite (IH (i + 1) Hall' Hd). lia.
Qed.

Lemma filter_keys (a : list byte) (l1 : list ble_device_t) :
forall l2 : list ble_device_t,
map key l1 = map key l2 ->
length (List.filter (fun d => same_bda (bda d) a) l1) =
length (List.filter (fun d => same_bda (bda d) a) l2).
Proof.
induction l1 as [| d1 l1 IH]; intros [| d2 l2] Hk; try discriminate Hk.
- reflexivity.
- cbn in Hk. injection Hk as Hd Hl. cbn [List.filter].
replace (same_bda (bda d1) a) with (same_bda (bda d2) a)
  by (unfold same_bda, key in *; rewrite Hd; reflexivity).
specialize (IH l2 Hl).
destruct (same_bda (bda d2) a); cbn [length]; rewrite IH; reflexivity.
Qed.

Lemma filter_miss (a : list byte) (l : list ble_device_t) :
Forall (fun d => key d <> take 6 a) l ->
List.filter (fun d => same_bda (bda d) a) l = [].
Proof.
induction 1 as [| d l Hd _ IH]; [reflexivity |].
cbn [List.filter]. apply same_bda_false in Hd. rewrite Hd. exact IH.
Qed.

(** In a table without duplicate addresses, a listed address has exactly
one entry. *)
Lemma filter_unique (a : list byte) (l : list ble_device_t) :
NoDup (map key l) ->
forall (k : nat) (d : ble_device_t),
l !! k = Some d -> key d = take 6 a ->
length (List.filter (fun d => same_bda (bda d) a) l) = 1%nat.
Proof.
induction l as [| d0 l IH]; intros Hnd k d Hk Hd; [discriminate Hk |].
cbn in Hnd. apply NoDup_cons in Hnd as [Hnotin Hnd].
cbn [List.filter]. destruct (same_bda (bda d0) a) eqn:Hs.
- apply same_bda_true in Hs. cbn [length]. f_equal.
rewrite filter_miss; [reflexivity |].
apply Forall_forall. intros d1 Hin Hd1. apply Hnotin.
apply list_elem_of_fmap. exists d1. split; [| exact Hin].
unfold key in *. congruence.
- apply same_bda_false in Hs. destruct k as [| k].
+ cbn in Hk. injection Hk as ->. unfold key in Hd. contradiction.
+ apply (IH Hnd k d Hk Hd).
Qed.

Lemma live_lookup (st : state) (k : nat) (d : ble_device_t) :
live st !! k = Some d -> devices st !! k = Some d /\ (k < device_count st)%nat.
Proof.
unfold live. intros H. apply lookup_take_Some in H. exact H.
Qed.

(** [find_device] on a table: a miss, or the index of a listed entry. *)
Lemma find_device_spec (st : state) (a : list byte) :
(find_device st a = -1 /\ Forall (fun d => key d <> take 6 a) (live st)) \/
(exists (k : nat) (d : ble_device_t),
  find_device st a = Z.of_nat k /\ devices st !! k = Some d /\
  (k < device_count st)%nat /\ key d = take 6 a).
Proof.
unfold find_device.
destruct (find_in_spec (live st) a 0) as [H | (k & d & Hf & Hk & Hd)].
- left. exact H.
- right. exists k, d. apply live_lookup in Hk as [Hk Hlt].
split; [lia |]. split; [exact Hk |]. split; assumption.
Qed.

End BleTable.

Section BlePaths.
Import Bluetooth.

Lemma report_update (st : state) (a : list byte) (nm : option (list byte)) (r : Z)
(k : nat) (d : ble_device_t) :
device_mutex st = true ->
find_device st a = Z.of_nat k ->
devices st !! k = Some d ->
add_or_update_device a nm r st =
mk_state (<[k := update_entry d nm r]> (devices st)) (device_count st) true.
Proof.
intros Hm Hf Hk. unfold add_or_update_device. rewrite Hm, Hf. cbn [negb].
destruct (Z.leb_spec 0 (Z.of_nat k)); [| lia].
rewrite Nat2Z.id, Hk. reflexivity.
Qed.

Lemma report_new (st : state) (a : list byte) (nm : option (list byte)) (r : Z)
(d : ble_device_t) :
device_mutex st = true ->
find_device st a = -1 ->
(device_count st < MAX_DEVICES)%nat ->
devices st !! device_count st = Some d ->
add_or_update_device a nm r st =
mk_state (<[device_count st := new_entry d a nm r]> (devices st))
         (S (device_count st)) true.
Proof.
intros Hm Hf Hc Hk. unfold add_or_update_device. rewrite Hm, Hf. cbn [negb Z.leb Z.compare].
destruct (Nat.ltb_spec (device_count st) MAX_DEVICES); [| lia].
rewrite Hk. reflexivity.
Qed.

Lemma report_full (st : state) (a : list byte) (nm : option (list byte)) (r : Z) :
find_device st a = -1 ->
(MAX_DEVICES <= device_count st)%nat ->
add_or_update_device a nm r st = st.
Proof.
intros Hf Hc. unfold add_or_update_device. rewrite Hf. cbn [Z.leb Z.compare].
destruct (negb (device_mutex st)); [reflexivity |].
destruct (Nat.ltb_spec (device_count st) MAX_DEVICES); [lia | reflexivity].
Qed.

Lemma key_update_entry (d : ble_device_t) (nm : option (list byte)) (r : Z) :
key (update_entry d nm r) = key d.
Proof. unfold update_entry. destruct (_ && _); reflexivity. Qed.

Lemma key_new_entry (d : ble_device_t) (a : list byte) (nm : option (list byte)) (r : Z) :
(6 <= length a)%nat -> key (new_entry d a nm r) = take 6 a.
Proof.
intros Ha. unfold new_entry, key.
destruct (name_given nm); cbn [bda]; apply memcpy6_key; exact Ha.
Qed.

Lemma slot_ok_update_entry (d : ble_device_t) (nm : option (list byte)) (r : Z) :
slot_ok d -> slot_ok (update_entry d nm r).
Proof.
intros Hd. unfold update_entry. destruct (_ && _).
- apply slot_ok_strncpy. exact Hd.
- exact Hd.
Qed.

Lemma slot_ok_new_entry (d : ble_device_t) (a : list byte) (nm : option (list byte)) (r : Z) :
slot_ok d -> slot_ok (new_entry d a nm r).
Proof.
intros Hd. unfold new_entry. destruct (name_given nm).
- apply slot_ok_strncpy. exact Hd.
- apply slot_ok_clear_name. exact Hd.
Qed.

Lemma keys_insert_same (l : list ble_device_t) (k : nat) (d d' : ble_device_t) :
l !! k = Some d -> key d' = key d -> map key (<[k := d']> l) = map key l.
Proof.
intros Hk Hd. change (key <$> <[k := d']> l = key <$> l).
rewrite list_fmap_insert. apply list_insert_id.
rewrite list_lookup_fmap, Hk, Hd. reflexivity.
Qed.

Lemma live_update (st : state) (k : nat) (d' : ble_device_t) (m : bool) :
(k < device_count st)%nat ->
live (mk_state (<[k := d']> (devices st)) (device_count st) m) =
<[k := d']> (live st).
Proof. intros Hk. unfold live. cbn. apply take_insert_lt. exact Hk. Qed.

Lemma live_new (st : state) (d d' : ble_device_t) (m : bool) :
devices st !! device_count st = Some d ->
live (mk_state (<[device_count st := d']> (devices st)) (S (device_count st)) m) =
live st ++ [d'].
Proof.
intros Hk. unfold live. cbn.
rewrite (take_S_r _ _ d').
- rewrite take_insert_ge by lia. reflexivity.
- apply list_lookup_insert_eq. eapply lookup_lt_Some. exact Hk.
Qed.

Lemma wf_update (st : state) (k : nat) (d d' : ble_device_t) (m : bool) :
wf st -> devices st !! k = Some d -> (k < device_count st)%nat ->
slot_ok d' -> key d' = key d ->
wf (mk_state (<[k := d']> (devices st)) (device_count st) m).
Proof.
intros (Hlen & Hc & Hslots & Hnd) Hk Hlt Hok Hkey.
split; [| split; [| split]].
- cbn. rewrite length_insert. exact Hlen.
- exact Hc.
- cbn. apply Forall_insert; assumption.
- rewrite live_update by exact Hlt.
rewrite (keys_insert_same (live st) k d d'); [exact Hnd | | exact Hkey].
unfold live. rewrite lookup_take_lt by exact Hlt. exact Hk.
Qed.

Lemma wf_new (st : state) (d d' : ble_device_t) (m : bool) :
wf st -> (device_count st < MAX_DEVICES)%nat ->
devices st !! device_count st = Some d ->
slot_ok d' -> Forall (fun e => key e <> key d') (live st) ->
wf (mk_state (<[device_count st := d']> (devices st)) (S (device_count st)) m).
Proof.
intros (Hlen & Hc & Hslots & Hnd) Hlt Hk Hok Hfresh.
split; [| split; [| split]].
- cbn. rewrite length_insert. exact Hlen.
- cbn. lia.
- cbn. apply Forall_insert; assumption.
- rewrite (live_new st d d' m Hk).
change (NoDup (key <$> live st ++ [d'])). rewrite fmap_app.
apply NoDup_app. split; [exact Hnd |]. split; [| apply NoDup_singleton].
intros x Hx Hx'. apply list_elem_of_fmap in Hx as (e & -> & He).
cbn in Hx'. apply list_elem_of_singleton in Hx'.
rewrite Forall_forall in Hfresh. exact (Hfresh e He Hx').
Qed.

(** Every report keeps the table well-formed. *)
Lemma wf_report (st : state) (a : list byte) (nm : option (list byte)) (r : Z) :
wf st -> (6 <= length a)%nat -> wf (add_or_update_device a nm r st).
Proof.
intros Hwf Ha.
destruct (device_mutex st) eqn:Hm;
[| unfold add_or_update_device; rewrite Hm; exact Hwf].
destruct (find_device_spec st a) as [[Hf Hall] | (k & d & Hf & Hk & Hlt & Hd)].
- destruct (Nat.lt_ge_cases (device_count st) MAX_DEVICES) as [Hc | Hc].
+ destruct Hwf as (Hlen & Hc' & Hslots & Hnd).
  destruct (lookup_lt_is_Some_2 (devices st) (device_count st)) as [d Hk]; [lia |].
  rewrite (report_new st a nm r d Hm Hf Hc Hk).
  apply (wf_new st d); try assumption.
  * repeat split; assumption.
  * apply slot_ok_new_entry. eapply Forall_lookup_1; eassumption.
  * rewrite key_new_entry by exact Ha. exact Hall.
+ rewrite report_full by assumption. exact Hwf.
- rewrite (report_update st a nm r k d Hm Hf Hk).
apply (wf_update st k d); try assumption.
+ apply slot_ok_update_entry. destruct Hwf as (_ & _ & Hslots & _).
  eapply Forall_lookup_1; eassumption.
+ apply key_update_entry.
Qed.

Lemma wf_cleared : wf cleared.
Proof.
split; [reflexivity |]. split; [unfold cleared, MAX_DEVICES; cbn; lia |].
split; [| constructor].
apply Forall_forall. intros d Hd. unfold cleared, devices in Hd.
apply list_elem_of_In, repeat_spec in Hd. subst d. split; reflexivity.
Qed.

(** Every table reached from a well-formed one by reports of 6-byte
  addresses is well-formed. *)
Lemma wf_run_reports (rs : list report) :
forall st : state,
  wf st -> Forall (fun rp : report => (6 <= length rp.1.1)%nat) rs ->
  wf (run_reports rs st).
Proof.
induction rs as [| [[a nm] r] rs IH]; intros st Hwf Hrs; [exact Hwf |].
inversion Hrs as [| ? ? Ha Hrs']; subst. cbn [run_reports fold_left].
apply IH; [| exact Hrs']. apply wf_report; [exact Hwf | exact Ha].
Qed.

Lemma wf_full_table : wf full_table.
Proof.
apply wf_run_reports; [apply wf_cleared |].
apply Forall_forall. intros rp Hin.
apply list_elem_of_In, in_map_iff in Hin as (i & <- & _). cbn. lia.
Qed.

End BlePaths.

Section BleReports.
Import Bluetooth.

Lemma find_device_hit (st : state) (a : list byte) (k : nat) (d : ble_device_t) :
find_device st a = Z.of_nat k -> devices st !! k = Some d ->
(k < device_count st)%nat /\ key d = take 6 a.
Proof.
intros Hf Hk.
destruct (find_device_spec st a) as [[Hm _] | (k' & d' & Hf' & Hk' & Hlt & Hd)].
- lia.
- assert (k' = k) by lia. subst k'. rewrite Hk in Hk'. injection Hk' as <-.
split; assumption.
Qed.

Lemma find_device_miss (st : state) (a : list byte) :
find_device st a = -1 -> Forall (fun d => key d <> take 6 a) (live st).
Proof.
intros Hf.
destruct (find_device_spec st a) as [[_ Hall] | (k' & d' & Hf' & _)];
[exact Hall | lia].
Qed.

(** A listed address has exactly one entry in a well-formed table. *)
Lemma entries_for_listed (st : state) (a : list byte) (k : nat) (d : ble_device_t) :
wf st -> devices st !! k = Some d -> (k < device_count st)%nat ->
key d = take 6 a -> entries_for st a = 1%nat.
Proof.
intros (_ & _ & _ & Hnd) Hk Hlt Hd. unfold entries_for.
apply (filter_unique a (live st) Hnd k d); [| exact Hd].
unfold live. rewrite lookup_take_lt by exact Hlt. exact Hk.
Qed.

Lemma find_device_after_update (st : state) (a : list byte) (k : nat)
(d d' : ble_device_t) (m : bool) :
devices st !! k = Some d -> (k < device_count st)%nat -> key d' = key d ->
find_device (mk_state (<[k := d']> (devices st)) (device_count st) m) a =
find_device st a.
Proof.
intros Hk Hlt Hd. unfold find_device. rewrite live_update by exact Hlt.
apply find_in_keys. apply (keys_insert_same _ k d d'); [| exact Hd].
unfold live. rewrite lookup_take_lt by exact Hlt. exact Hk.
Qed.

(** First report of the scenario: afterwards the address is listed, without
a name. *)
Lemma report_unnamed_step (st : state) (a : list byte) (first : option (list byte))
(r1 : Z) :
wf st -> device_mutex st = true -> length a = 6%nat ->
name_given first = false ->
((find_device st a = -1 /\ (device_count st < MAX_DEVICES)%nat) \/
 (exists (k : nat) (d : ble_device_t),
   find_device st a = Z.of_nat k /\ devices st !! k = Some d /\
   has_name d = false)) ->
let st1 := add_or_update_device a first r1 st in
wf st1 /\ device_mutex st1 = true /\
exists (k : nat) (d1 : ble_device_t),
find_device st1 a = Z.of_nat k /\ devices st1 !! k = Some d1 /\
has_name d1 = false.
Proof.
intros Hwf Hm Ha Hfirst Hpre st1.
split; [apply wf_report; [exact Hwf | lia] |].
destruct Hpre as [[Hf Hc] | (k & d & Hf & Hk & Hn)].
- pose proof Hwf as (Hlen & _ & _ & _).
destruct (lookup_lt_is_Some_2 (devices st) (device_count st)) as [d Hk]; [lia |].
unfold st1. rewrite (report_new st a first r1 d Hm Hf Hc Hk).
split; [reflexivity |].
exists (device_count st), (new_entry d a first r1).
split; [| split].
+ unfold find_device. rewrite (live_new st d _ true Hk).
  rewrite find_in_app_miss.
  * unfold live. rewrite length_take_le by lia. lia.
  * apply find_device_miss. exact Hf.
  * apply key_new_entry. lia.
+ cbn [devices]. apply list_lookup_insert_eq. lia.
+ unfold new_entry. rewrite Hfirst. reflexivity.
- destruct (find_device_hit st a k d Hf Hk) as [Hlt Hd].
unfold st1. rewrite (report_update st a first r1 k d Hm Hf Hk).
split; [reflexivity |].
exists k, (update_entry d first r1). split; [| split].
+ rewrite (find_device_after_update st a k d); try assumption.
  apply key_update_entry.
+ cbn [devices]. apply list_lookup_insert_eq. eapply lookup_lt_Some. exact Hk.
+ unfold update_entry. rewrite Hfirst. cbn. exact Hn.
Qed.

(** Second report of the scenario: a name arrives for a listed entry that
has none. *)
Lemma report_named_step (st : state) (a nm : list byte) (r : Z) (k : nat)
(d : ble_device_t) :
wf st -> device_mutex st = true -> length a = 6%nat ->
(0 < strlen nm)%nat ->
find_device st a = Z.of_nat k -> devices st !! k = Some d -> has_name d = false ->
let st' := add_or_update_device a (Some nm) r st in
entries_for st' a = 1%nat /\
device_count st' = device_count st /\
exists d' : ble_device_t,
find_device st' a = Z.of_nat k /\ devices st' !! k = Some d' /\
(k < device_count st')%nat /\
rssi d' = r /\ has_name d' = true /\ c_str (name d') = take 31 (c_str nm).
Proof.
intros Hwf Hm Ha Hnm Hf Hk Hn st'.
destruct (find_device_hit st a k d Hf Hk) as [Hlt Hd].
assert (Hwf' : wf st') by (apply wf_report; [exact Hwf | lia]).
assert (Hup : update_entry d (Some nm) r =
            mk_device (bda d) (strncpy (name d) nm 31) r true).
{ unfold update_entry, name_given. rewrite Hn.
destruct (Nat.ltb_spec 0 (strlen nm)); [reflexivity | lia]. }
unfold st' in *. rewrite (report_update st a (Some nm) r k d Hm Hf Hk) in *.
rewrite Hup in *.
assert (Hk' : <[k := mk_device (bda d) (strncpy (name d) nm 31) r true]> (devices st)
            !! k = Some (mk_device (bda d) (strncpy (name d) nm 31) r true)).
{ apply list_lookup_insert_eq. eapply lookup_lt_Some. exact Hk. }
split; [| split; [reflexivity |]].
- apply (entries_for_listed _ a k _ Hwf' Hk'); [exact Hlt | exact Hd].
- eexists. split; [| split; [exact Hk' |]].
+ rewrite (find_device_after_update st a k d); [exact Hf | | | reflexivity]; assumption.
+ split; [exact Hlt |]. split; [reflexivity |]. split; [reflexivity |].
  cbn [name]. destruct Hwf as (_ & _ & Hslots & _).
  destruct (Forall_lookup_1 _ _ _ _ Hslots Hk) as [Hl Hlast].
  apply c_str_strncpy; [exact Hl | exact Hlast].
Qed.

Lemma run_reports_count (rs : list report) :
forall st : state,
(device_count st <= MAX_DEVICES)%nat ->
(device_count (run_reports rs st) <= MAX_DEVICES)%nat.
Proof.
induction rs as [| [[a nm] r] rs IH]; intros st Hc; [exact Hc |].
cbn [run_reports fold_left]. apply IH.
unfold add_or_update_device.
destruct (negb (device_mutex st)); [exact Hc |].
destruct (0 <=? find_device st a).
- destruct (devices st !! Z.to_nat (find_device st a)); exact Hc.
- destruct (Nat.ltb_spec (device_count st) MAX_DEVICES); [| exact Hc].
destruct (devices st !! device_count st); [cbn; lia | exact Hc].
Qed.

End BleReports.

(** C8 (as amended). In a well-formed device table (mutex created), if the
    same address is reported twice, first without a name and then with a
    non-empty name, and the address either is not listed yet while the table
    has a free slot, or is listed without a name: the table then holds
    exactly one entry for that address, carrying the RSSI of the second
    report and its name (the first 31 characters, which is what the name
    field holds). *)
Theorem ble_same_address_twice (st : Bluetooth.state) (a nm : list byte)
    (first : option (list byte)) (r1 r2 : Z) :
  Bluetooth.wf st -> Bluetooth.device_mutex st = true -> length a = 6%nat ->
  Bluetooth.name_given first = false ->
  (0 < Bluetooth.strlen nm)%nat ->
  ((Bluetooth.find_device st a = -1 /\
    (Bluetooth.device_count st < Bluetooth.MAX_DEVICES)%nat) \/
   (exists (k : nat) (d : Bluetooth.ble_device_t),
       Bluetooth.find_device st a = Z.of_nat k /\
       Bluetooth.devices st !! k = Some d /\ Bluetooth.has_name d = false)) ->
  let st2 :=
    Bluetooth.add_or_update_device a (Some nm) r2
      (Bluetooth.add_or_update_device a first r1 st) in
  Bluetooth.entries_for st2 a = 1%nat /\
  exists (k : nat) (d : Bluetooth.ble_device_t),
    Bluetooth.find_device st2 a = Z.of_nat k /\
    Bluetooth.devices st2 !! k = Some d /\
    (k < Bluetooth.device_count st2)%nat /\
    Bluetooth.rssi d = r2 /\
    Bluetooth.has_name d = true /\
    Bluetooth.c_str (Bluetooth.name d) = take 31 (Bluetooth.c_str nm).
Proof.
  intros Hwf Hm Ha Hfirst Hnm Hpre st2.
  destruct (report_unnamed_step st a first r1 Hwf Hm Ha Hfirst Hpre)
    as (Hwf1 & Hm1 & k & d1 & Hf1 & Hk1 & Hn1).
  destruct (report_named_step _ a nm r2 k d1 Hwf1 Hm1 Ha Hnm Hf1 Hk1 Hn1)
    as (Hone & _ & d2 & Hf2 & Hk2 & Hrest).
  split; [exact Hone |]. exists k, d2. split; [exact Hf2 |]. split; [exact Hk2 | exact Hrest].
Qed.

Lemma ble_same_address_twice_witness :
  let a := Bluetooth.test_addr 3 in
  let nm := list_byte_of_string "Thermo" in
  let st2 :=
    Bluetooth.add_or_update_device a (Some nm) (-40)
      (Bluetooth.add_or_update_device a (Some []) (-60) Bluetooth.cleared) in
  Bluetooth.entries_for st2 a = 1%nat /\
  exists (k : nat) (d : Bluetooth.ble_device_t),
    Bluetooth.find_device st2 a = Z.of_nat k /\
    Bluetooth.devices st2 !! k = Some d /\
    (k < Bluetooth.device_count st2)%nat /\
    Bluetooth.rssi d = -40 /\
    Bluetooth.has_name d = true /\
    Bluetooth.c_str (Bluetooth.name d) = take 31 (Bluetooth.c_str nm).
Proof.
  intros a nm.
  apply (ble_same_address_twice Bluetooth.cleared a nm (Some []) (-60) (-40)).
  - apply wf_cleared.
  - reflexivity.
  - reflexivity.
  - reflexivity.
  - vm_compute. lia.
  - left. split; [reflexivity | vm_compute; lia].
Defined.

(** C8 as stated fails: with the table full (twenty other devices listed), an
    address reported twice, the second time with a name, has no entry at
    all. *)
Lemma ble_full_table_counterexample :
  let a := Bluetooth.test_addr 20 in
  let st2 :=
    Bluetooth.add_or_update_device a (Some (list_byte_of_string "Thermo")) (-40)
      (Bluetooth.add_or_update_device a (Some []) (-60) Bluetooth.full_table) in
  Bluetooth.wf Bluetooth.full_table /\
  Bluetooth.device_mutex Bluetooth.full_table = true /\
  Bluetooth.device_count Bluetooth.full_table = 20%nat /\
  Bluetooth.entries_for st2 a = 0%nat /\
  Bluetooth.entries_for st2 a <> 1%nat.
Proof.
  cbv zeta. split; [apply wf_full_table |]. split; [reflexivity |].
  split; [vm_compute; reflexivity |].
  assert (H : Bluetooth.entries_for
                (Bluetooth.add_or_update_device (Bluetooth.test_addr 20)
                   (Some (list_byte_of_string "Thermo")) (-40)
                   (Bluetooth.add_or_update_device (Bluetooth.test_addr 20)
                      (Some []) (-60) Bluetooth.full_table))
                (Bluetooth.test_addr 20) = 0%nat) by (vm_compute; reflexivity).
  split; [exact H | rewrite H; discriminate].
Qed.

(** C10 (as amended). Along every sequence of reports the device count never
    exceeds MAX_DEVICES (20).  Once the table is full, a report for an
    address that is not listed leaves the table unchanged, while a report for
    a listed address still updates that entry: its RSSI always, and its name
    when the report carries a non-empty name and the entry has none yet (an
    entry that already has a name keeps it). *)
Theorem ble_table_capacity (st : Bluetooth.state) (rs : list Bluetooth.report)
    (a : list byte) (nm : option (list byte)) (r : Z) :
  (Bluetooth.device_count st <= Bluetooth.MAX_DEVICES)%nat ->
  (Bluetooth.device_count (Bluetooth.run_reports rs st) <= Bluetooth.MAX_DEVICES)%nat
  /\
  (Bluetooth.device_count st = Bluetooth.MAX_DEVICES ->
   Bluetooth.find_device st a = -1 ->
   Bluetooth.add_or_update_device a nm r st = st)
  /\
  (Bluetooth.device_count st = Bluetooth.MAX_DEVICES ->
   Bluetooth.device_mutex st = true ->
   forall k : nat,
     Bluetooth.find_device st a = Z.of_nat k ->
     exists d : Bluetooth.ble_device_t,
       Bluetooth.devices st !! k = Some d /\
       Bluetooth.add_or_update_device a nm r st =
         Bluetooth.mk_state (<[k := Bluetooth.update_entry d nm r]> (Bluetooth.devices st))
                            Bluetooth.MAX_DEVICES true /\
       Bluetooth.bda (Bluetooth.update_entry d nm r) = Bluetooth.bda d /\
       Bluetooth.rssi (Bluetooth.update_entry d nm r) = r /\
       (Bluetooth.name_given nm = true -> Bluetooth.has_name d = false ->
        Bluetooth.name (Bluetooth.update_entry d nm r) =
          Bluetooth.strncpy (Bluetooth.name d) (Bluetooth.name_bytes nm) 31 /\
        Bluetooth.has_name (Bluetooth.update_entry d nm r) = true) /\
       (Bluetooth.name_given nm = false \/ Bluetooth.has_name d = true ->
        Bluetooth.name (Bluetooth.update_entry d nm r) = Bluetooth.name d /\
        Bluetooth.has_name (Bluetooth.update_entry d nm r) = Bluetooth.has_name d)).
Proof.
  intros Hc. split; [apply run_reports_count; exact Hc |]. split.
  - intros Hfull Hmiss. apply report_full; [exact Hmiss | lia].
  - intros Hfull Hm k Hf.
    destruct (find_device_spec st a) as [[Hmiss _] | (k' & d & Hf' & Hk & _ & _)];
      [lia |].
    assert (k' = k) by lia. subst k'. exists d.
    split; [exact Hk |].
    split; [rewrite <- Hfull; apply report_update; assumption |].
    unfold Bluetooth.update_entry.
    split; [destruct (_ && _); reflexivity |].
    split; [destruct (_ && _); reflexivity |].
    split.
    + intros Hg Hn. rewrite Hg, Hn. split; reflexivity.
    + intros [Hg | Hn].
      * rewrite Hg. split; reflexivity.
      * rewrite Hn, andb_false_r. split; [reflexivity | cbn; congruence].
Qed.

Lemma ble_table_capacity_witness :
  (Bluetooth.device_count
     (Bluetooth.run_reports Bluetooth.twenty_named Bluetooth.full_table) <= 20)%nat /\
  Bluetooth.add_or_update_device (Bluetooth.test_addr 20)
    (Some (list_byte_of_string "Thermo")) (-40) Bluetooth.full_table
    = Bluetooth.full_table /\
  exists d : Bluetooth.ble_device_t,
    Bluetooth.devices Bluetooth.full_table !! 5%nat = Some d /\
    Bluetooth.rssi (Bluetooth.update_entry d None (-33)) = -33.
Proof.
  assert (Hc : (Bluetooth.device_count Bluetooth.full_table <= Bluetooth.MAX_DEVICES)%nat)
    by (vm_compute; lia).
  split; [| split].
  - apply (proj1 (ble_table_capacity Bluetooth.full_table Bluetooth.twenty_named
                    (Bluetooth.test_addr 20) None 0 Hc)).
  - apply (proj1 (proj2 (ble_table_capacity Bluetooth.full_table []
                    (Bluetooth.test_addr 20) (Some (list_byte_of_string "Thermo"))
                    (-40) Hc))); vm_compute; reflexivity.
  - destruct (proj2 (proj2 (ble_table_capacity Bluetooth.full_table []
                    (Bluetooth.test_addr 5) None (-33) Hc))
                ltac:(vm_compute; reflexivity) ltac:(reflexivity) 5%nat
                ltac:(vm_compute; reflexivity))
      as (d & Hk & _ & _ & Hr & _).
    exists d. split; [exact Hk | exact Hr].
Defined.

(** C10 as stated fails in its last part: in the full table the entry of
    address 00:11:22:33:44:00 is named "dev"; a report for that address with
    the name "new" updates the RSSI but not the name. *)
Lemma ble_named_entry_counterexample :
  let st' :=
    Bluetooth.add_or_update_device (Bluetooth.test_addr 0)
      (Some (list_byte_of_string "new")) (-40) Bluetooth.full_table in
  Bluetooth.device_count Bluetooth.full_table = Bluetooth.MAX_DEVICES /\
  Bluetooth.find_device Bluetooth.full_table (Bluetooth.test_addr 0) = 0 /\
  exists d : Bluetooth.ble_device_t,
    Bluetooth.devices st' !! 0%nat = Some d /\
    Bluetooth.rssi d = -40 /\
    Bluetooth.c_str (Bluetooth.name d) = list_byte_of_string "dev" /\
    Bluetooth.c_str (Bluetooth.name d) <> list_byte_of_string "new".
Proof.
  cbv zeta. split; [vm_compute; reflexivity |]. split; [vm_compute; reflexivity |].
  eexists. split; [vm_compute; reflexivity |].
  split; [reflexivity |]. split; [vm_compute; reflexivity |].
  vm_compute. discriminate.
Qed.

(** ** Battery: colour, fallback conversion and fatal checks *)

Section BatteryMonitor.
Import Battery.

Lemma sample_loop_reads_ok (rd : nat -> esp_err_t * Z) (n : nat) :
forall (i : nat) (acc s : Z),
  sample_loop rd n i acc = Some s ->
  forall j : nat, (i <= j < i + n)%nat -> fst (rd j) = ESP_OK.
Proof.
induction n as [| n IH]; intros i acc s Hloop j Hj; [lia |].
cbn [sample_loop] in Hloop. destruct (rd i) as [err raw] eqn:Hri.
destruct (Z.eqb_spec err ESP_OK) as [-> | Hne]; [| discriminate Hloop].
destruct (Nat.eq_dec j i) as [-> | Hji].
- rewrite Hri. reflexivity.
- apply (IH (S i) _ s Hloop). lia.
Qed.

(** The average of 12-bit samples is a 12-bit value between the smallest and
  the largest sample. *)
Lemma raw_average_12bit (rd : nat -> esp_err_t * Z) :
(forall j, (j < ADC_SAMPLES)%nat -> fst (rd j) = ESP_OK /\ 0 <= snd (rd j) <= 4095) ->
exists avg,
  raw_average rd = Some avg /\ 0 <= avg <= 4095 /\
  samples_min rd <= avg <= samples_max rd.
Proof.
intros Hrd. exists (sumZ (raw_samples rd) / 500).
split.
{ apply raw_average_exact. intros j Hj. destruct (Hrd j Hj) as [Hok Hv].
  split; [exact Hok |]. unfold SAMPLE_SAFE_MAX. lia. }
pose proof (sumZ_bounds 0 4095 (raw_samples rd)) as Hb.
pose proof (sumZ_bounds (samples_min rd) (samples_max rd) (raw_samples rd)) as Hm.
rewrite raw_samples_length in Hb, Hm.
change (Z.of_nat ADC_SAMPLES) with 500 in Hb, Hm.
destruct Hb as [Hlo Hhi].
{ intros x Hx. unfold raw_samples, samples_from in Hx.
  apply in_map_iff in Hx as (j & <- & Hj). apply in_seq in Hj.
  apply Hrd. lia. }
destruct Hm as [Hlo' Hhi'].
{ intros x Hx. split; [apply list_min_le | apply list_max_ge]; exact Hx. }
split; split.
- apply Z.div_le_lower_bound; lia.
- apply Z.div_le_upper_bound; lia.
- apply Z.div_le_lower_bound; lia.
- apply Z.div_le_upper_bound; lia.
Qed.

End BatteryMonitor.

(** X1. The colour of the battery bar as a function of the measured voltage:
    red up to 2302 mV, orange from 2303 to 2377 mV, green from 2378 mV. *)
Theorem battery_color_by_voltage (v : Z) :
  (v <= 2302 ->
   Battery.get_battery_color (Battery.calculate_battery_percent v) = Battery.COLOR_RED) /\
  (2303 <= v <= 2377 ->
   Battery.get_battery_color (Battery.calculate_battery_percent v) = Battery.COLOR_ORANGE) /\
  (2378 <= v ->
   Battery.get_battery_color (Battery.calculate_battery_percent v) = Battery.COLOR_GREEN).
Proof.
  unfold Battery.get_battery_color. split; [| split]; intros Hv.
  - destruct (Z_le_gt_dec v Battery.BATTERY_V_MIN) as [Hlo | Hlo].
    + rewrite percent_low by exact Hlo. reflexivity.
    + unfold Battery.BATTERY_V_MIN in Hlo.
      rewrite percent_mid by (unfold Battery.BATTERY_V_MIN, Battery.BATTERY_V_MAX; lia).
      assert ((v - 2250) * 100 / 250 < 21) by (apply Z.div_lt_upper_bound; lia).
      destruct (Z.leb_spec ((v - 2250) * 100 / 250) 20); [reflexivity | lia].
  - rewrite percent_mid by (unfold Battery.BATTERY_V_MIN, Battery.BATTERY_V_MAX; lia).
    assert (21 <= (v - 2250) * 100 / 250) by (apply Z.div_le_lower_bound; lia).
    assert ((v - 2250) * 100 / 250 < 51) by (apply Z.div_lt_upper_bound; lia).
    destruct (Z.leb_spec ((v - 2250) * 100 / 250) 20); [lia |].
    destruct (Z.leb_spec ((v - 2250) * 100 / 250) 50); [reflexivity | lia].
  - destruct (Z_le_gt_dec Battery.BATTERY_V_MAX v) as [Hhi | Hhi].
    + rewrite percent_high by exact Hhi. reflexivity.
    + unfold Battery.BATTERY_V_MAX in Hhi.
      rewrite percent_mid by (unfold Battery.BATTERY_V_MIN, Battery.BATTERY_V_MAX; lia).
      assert (51 <= (v - 2250) * 100 / 250) by (apply Z.div_le_lower_bound; lia).
      destruct (Z.leb_spec ((v - 2250) * 100 / 250) 20); [lia |].
      destruct (Z.leb_spec ((v - 2250) * 100 / 250) 50); [lia | reflexivity].
Qed.

Lemma battery_color_by_voltage_witness :
  Battery.get_battery_color (Battery.calculate_battery_percent 2302) = Battery.COLOR_RED /\
  Battery.get_battery_color (Battery.calculate_battery_percent 2303) = Battery.COLOR_ORANGE /\
  Battery.get_battery_color (Battery.calculate_battery_percent 2378) = Battery.COLOR_GREEN.
Proof.
  split; [| split].
  - apply (proj1 (battery_color_by_voltage 2302)). lia.
  - apply (proj1 (proj2 (battery_color_by_voltage 2303))). lia.
  - apply (proj2 (proj2 (battery_color_by_voltage 2378))). lia.
Defined.

(** X2. Without calibration, 500 successful reads of 12-bit samples make
    [read_battery_voltage] return [raw_avg * 3300 / 4095] for the average
    [raw_avg] of the samples: a value between 0 and 3300 mV, and between the
    conversions of the smallest and of the largest sample. *)
Theorem read_battery_voltage_uncalibrated (rd : nat -> esp_err_t * Z)
    (cali : Z -> esp_err_t * Z) :
  (forall j, (j < Battery.ADC_SAMPLES)%nat ->
             fst (rd j) = ESP_OK /\ 0 <= snd (rd j) <= 4095) ->
  exists avg v,
    Battery.raw_average rd = Some avg /\
    Battery.read_battery_voltage rd false cali = Some v /\
    v = avg * 3300 / 4095 /\
    0 <= v <= 3300 /\
    Battery.samples_min rd * 3300 / 4095 <= v <= Battery.samples_max rd * 3300 / 4095.
Proof.
  intros Hrd. destruct (raw_average_12bit rd Hrd) as (avg & Havg & Hr & Hm).
  exists avg, (avg * 3300 / 4095).
  split; [exact Havg |]. split.
  { unfold Battery.read_battery_voltage. rewrite Havg. f_equal.
    unfold CInt.mul. rewrite cint_wrap_id by cint_range.
    apply cint_div_nonneg; [unfold CInt.INT_MAX |]; lia. }
  split; [reflexivity |]. split; [split |split].
  - apply Z.div_pos; lia.
  - apply Z.div_le_upper_bound; lia.
  - apply Z.div_le_mono; lia.
  - apply Z.div_le_mono; lia.
Qed.

Lemma read_battery_voltage_uncalibrated_witness :
  exists avg v,
    Battery.raw_average Battery.adc_ramp = Some avg /\
    Battery.read_battery_voltage Battery.adc_ramp false Battery.cali_half = Some v /\
    v = avg * 3300 / 4095 /\
    0 <= v <= 3300 /\
    Battery.samples_min Battery.adc_ramp * 3300 / 4095 <= v
      <= Battery.samples_max Battery.adc_ramp * 3300 / 4095.
Proof.
  apply (read_battery_voltage_uncalibrated Battery.adc_ramp Battery.cali_half).
  intros j Hj. unfold Battery.adc_ramp. cbn [fst snd].
  split; [reflexivity |].
  pose proof (Z.mod_pos_bound (Z.of_nat j) 4096). lia.
Defined.

(** A voltage is returned only if every one of the 500 reads succeeded and,
    with calibration, the conversion of the average succeeded too; the
    voltage is then the converted average. *)
Lemma read_battery_voltage_checked (rd : nat -> esp_err_t * Z) (calibrated : bool)
    (cali : Z -> esp_err_t * Z) (v : Z) :
  Battery.read_battery_voltage rd calibrated cali = Some v ->
  (forall j, (j < Battery.ADC_SAMPLES)%nat -> fst (rd j) = ESP_OK) /\
  exists avg,
    Battery.raw_average rd = Some avg /\
    (calibrated = true -> cali avg = (ESP_OK, v)).
Proof.
  unfold Battery.read_battery_voltage, Battery.raw_average.
  destruct (Battery.sample_loop rd Battery.ADC_SAMPLES 0 0) as [s |] eqn:Hloop;
    [| discriminate].
  intros Hv. split.
  - intros j Hj. apply (sample_loop_reads_ok rd _ _ _ _ Hloop). lia.
  - eexists. split; [reflexivity |]. intros ->.
    destruct (cali _) as [err mv].
    destruct (Z.eqb_spec err ESP_OK) as [-> | Hne]; [| discriminate Hv].
    injection Hv as ->. reflexivity.
Qed.

(** X3. A failed read aborts the measurement: if any of the 500 reads
    reports an error, [read_battery_voltage] returns no voltage and the
    monitor iteration publishes nothing. *)
Theorem read_battery_voltage_aborts (rd : nat -> esp_err_t * Z) (calibrated : bool)
    (cali : Z -> esp_err_t * Z) (j : nat) :
  (j < Battery.ADC_SAMPLES)%nat -> fst (rd j) <> ESP_OK ->
  Battery.read_battery_voltage rd calibrated cali = None /\
  Battery.battery_monitor_iteration rd calibrated cali = None.
Proof.
  intros Hj Hfail.
  assert (Hnone : Battery.read_battery_voltage rd calibrated cali = None).
  { destruct (Battery.read_battery_voltage rd calibrated cali) as [v |] eqn:Hv;
      [| reflexivity].
    exfalso. apply Hfail.
    unfold Battery.read_battery_voltage, Battery.raw_average in Hv.
    destruct (Battery.sample_loop rd Battery.ADC_SAMPLES 0 0) as [s |] eqn:Hloop;
      [| discriminate Hv].
    apply (sample_loop_reads_ok rd _ _ _ _ Hloop). lia. }
  split; [exact Hnone |].
  unfold Battery.battery_monitor_iteration. rewrite Hnone. reflexivity.
Qed.

Lemma read_battery_voltage_aborts_witness :
  Battery.read_battery_voltage Battery.adc_glitch true Battery.cali_half = None /\
  Battery.battery_monitor_iteration Battery.adc_glitch true Battery.cali_half = None.
Proof.
  apply (read_battery_voltage_aborts Battery.adc_glitch true Battery.cali_half 9).
  - unfold Battery.ADC_SAMPLES. lia.
  - cbn. discriminate.
Defined.

(** ** SD card: file list, write button and call pairing *)

Section SdFileList.
Import SdCard.



Lemma list_loop_spec (entries : list dirent) :
forall n : Z,
  0 <= n <= 15 ->
  list_loop entries n =
  map item_of (take (Z.to_nat (15 - n)) (List.filter visible entries)).
Proof.
induction entries as [| e rest IH]; intros n Hn; cbn [list_loop List.filter].
- rewrite take_nil. reflexivity.
- destruct (Z.ltb_spec n 15) as [Hlt | Hge].
  + unfold visible at 1. destruct (is_dot_entry e); cbn [negb].
    * apply IH. lia.
    * replace (Z.to_nat (15 - n)) with (S (Z.to_nat (15 - (n + 1)))) by lia.
      cbn [firstn map]. f_equal. apply IH. lia.
  + replace (Z.to_nat (15 - n)) with 0%nat by lia. reflexivity.
Qed.

End SdFileList.

(** X4. On a mounted card whose directory opens, [update_file_list] shows the
    entries other than "." and ".." in directory order, at most the first 15
    of them, each as its item (directories prefixed "[DIR] " and without a
    size line); it shows "SD card is empty" exactly when there is no such
    entry. *)
Theorem file_list_shows_first_15 (entries : list SdCard.dirent) :
  SdCard.update_file_list true (Some entries) =
    match List.filter SdCard.visible entries with
    | [] => [SdCard.Message "SD card is empty"]
    | shown => map SdCard.item_of (take 15 shown)
    end
  /\ (length (SdCard.update_file_list true (Some entries)) <= 15)%nat.
Proof.
  unfold SdCard.update_file_list. cbn [negb].
  rewrite list_loop_spec by lia. change (Z.to_nat (15 - 0)) with 15%nat.
  destruct (List.filter SdCard.visible entries) as [| e shown] eqn:Hf.
  - split; [reflexivity |]. change (1 <= 15)%nat. lia.
  - cbn [firstn map length].
    destruct (Z.eqb_spec (Z.of_nat (S (length (map SdCard.item_of (take 14 shown))))) 0)
      as [Hz | _]; [lia |].
    split; [reflexivity |].
    cbn [length]. rewrite length_map, length_take. lia.
Qed.

Section SdUiRuns.
Import SdCard.
Context {W : Type} (D : sd_driver W).

Lemma write_click_frame (fopen_ok : bool) (t t' heap : Z) (s : app_state) :
sd_card (write_btn_click_cb fopen_ok t t' heap s).1 = sd_card s /\
sd_pwr_ctrl_handle (write_btn_click_cb fopen_ok t t' heap s).1 = sd_pwr_ctrl_handle s /\
sd_mounted (write_btn_click_cb fopen_ok t t' heap s).1 = sd_mounted s /\
mount_btn_text (write_btn_click_cb fopen_ok t t' heap s).1 = mount_btn_text s.
Proof.
unfold write_btn_click_cb.
destruct (negb (sd_mounted s)); [repeat split |].
destruct (negb fopen_ok); repeat split.
Qed.

Lemma run_ui_rail_implies_mounted (evs : list (ui_event W)) :
ldo_failure_writes_nothing D ->
forall (s : app_state) (h : hw W) (files : list file_action),
  rail_implies_mounted s -> rail_implies_mounted (run_ui D evs s h files).1.1.
Proof.
intros Hldo. induction evs as [| ev evs IH]; intros s h files Hinv; [exact Hinv |].
destruct ev as [env | ok t t' heap]; cbn [run_ui].
- pose proof (click_rail_implies_mounted D s (mk_hw (env (world h)) (calls h))
                Hldo Hinv) as Hstep.
  destruct (mount_btn_click_cb D s _) as [s' h']. apply IH. exact Hstep.
- destruct (write_click_frame ok t t' heap s) as (_ & Hh & Hm & _).
  destruct (write_btn_click_cb ok t t' heap s) as [s' act]. apply IH.
  unfold rail_implies_mounted in *. cbn in Hh, Hm. rewrite Hh, Hm. exact Hinv.
Qed.

(** A mount click keeps "mounted implies rail held" unless the [sd_unmount]
  it calls returns an error. *)
Lemma click_keeps_rail (s : app_state) (h : hw W) :
ldo_success_writes_handle D ->
(sd_mounted s = true -> (sd_unmount D s h).1.1 = ESP_OK) ->
mounted_implies_rail s ->
mounted_implies_rail (mount_btn_click_cb D s h).1.
Proof.
intros Hldo Hun Hinv. unfold mount_btn_click_cb, mounted_implies_rail in *.
destruct (sd_mounted s) eqn:Hm.
- specialize (Hun eq_refl).
  destruct (sd_unmount D s h) as [[ret s1] h1]. cbn in Hun. subst ret.
  cbn. discriminate.
- set (s0 := set_status_label s (Text "Mounting...")).
  pose proof (sd_mount_success_handle D s0 h Hldo) as Hok.
  pose proof (sd_mount_keeps_flag D s0 h) as Hflag.
  destruct (sd_mount D s0 h) as [[ret s1] h1]. cbn in Hok, Hflag.
  destruct (Z.eqb_spec ret ESP_OK) as [-> | Hret]; cbn.
  + intros _. apply Hok. reflexivity.
  + rewrite Hflag, Hm. discriminate.
Qed.

Lemma run_ui_mounted_implies_rail (evs : list (ui_event W)) :
ldo_success_writes_handle D ->
forall (s : app_state) (h : hw W) (files : list file_action),
  unmounts_succeed D evs s h = true ->
  mounted_implies_rail s -> mounted_implies_rail (run_ui D evs s h files).1.1.
Proof.
intros Hldo. induction evs as [| ev evs IH]; intros s h files Hrun Hinv; [exact Hinv |].
destruct ev as [env | ok t t' heap]; cbn [run_ui unmounts_succeed] in *.
- apply andb_true_iff in Hrun as [Hcall Hrest].
  assert (Hstep : mounted_implies_rail
                    (mount_btn_click_cb D s (mk_hw (env (world h)) (calls h))).1).
  { apply click_keeps_rail; [exact Hldo | | exact Hinv].
    intros Hm. rewrite Hm in Hcall. apply Z.eqb_eq. exact Hcall. }
  destruct (mount_btn_click_cb D s _) as [s' h']. apply IH; assumption.
- destruct (write_click_frame ok t t' heap s) as (_ & Hh & Hm & _).
  destruct (write_btn_click_cb ok t t' heap s) as [s' act]. apply IH; [exact Hrun |].
  unfold mounted_implies_rail in *. cbn in Hh, Hm. rewrite Hh, Hm. exact Hinv.
Qed.

(** A driver whose unmount call never fails makes every [sd_unmount] of
  every run succeed. *)
Lemma unmount_never_fails_run (evs : list (ui_event W)) :
unmount_never_fails D ->
forall (s : app_state) (h : hw W), unmounts_succeed D evs s h = true.
Proof.
intros Hun. induction evs as [| ev evs IH]; intros s h; [reflexivity |].
destruct ev as [env | ok t t' heap]; cbn [unmounts_succeed].
- rewrite IH, andb_true_r. destruct (sd_mounted s); [| reflexivity].
  rewrite sd_unmount_ret. apply Z.eqb_eq. apply Hun.
- apply IH.
Qed.

(** Every file access in the log of a run was made by a write click on a
  card flagged mounted: an unmounted click logs [NoFileAccess]. *)
Lemma write_click_unmounted (fopen_ok : bool) (t t' heap : Z) (s : app_state) :
sd_mounted s = false ->
write_btn_click_cb fopen_ok t t' heap s =
  (set_status_label s (Text "Mount SD card first!"), NoFileAccess).
Proof. intros Hm. unfold write_btn_click_cb. rewrite Hm. reflexivity. Qed.

End SdUiRuns.

Lemma null_checking_ldo_failure_writes_nothing :
  SdCard.ldo_failure_writes_nothing SdCard.null_checking_driver.
Proof.
  intros chan w ret out w' Hcall Hret. cbn in Hcall.
  destruct w; injection Hcall as <- <- <-; [reflexivity | contradiction].
Qed.

Lemma null_checking_ldo_success_writes_handle :
  SdCard.ldo_success_writes_handle SdCard.null_checking_driver.
Proof.
  intros chan w ret out w' Hcall Hret. cbn in Hcall.
  destruct w; injection Hcall as <- <- <-; [discriminate Hret | discriminate].
Qed.

(** X5. The write button cannot disturb the rail pairing.  Along every run
    that interleaves mount-button and write-button clicks, for a driver
    whose failed rail allocation stores no handle: the rail handle is never
    non-null while the card is flagged unmounted; when moreover a successful
    allocation stores a non-null handle and no [sd_unmount] of the run has
    returned an error, the handle is non-null exactly while the card is
    flagged mounted; and a write click on an unmounted card touches no file,
    it only sets the status to "Mount SD card first!". *)
Theorem sd_rail_pairing_with_writes {W : Type} (D : SdCard.sd_driver W)
    (evs : list (SdCard.ui_event W)) (w0 : W) :
  SdCard.ldo_failure_writes_nothing D ->
  let s := (SdCard.run_ui D evs SdCard.initial_state (SdCard.mk_hw w0 []) []).1.1 in
  (SdCard.sd_pwr_ctrl_handle s <> None -> SdCard.sd_mounted s = true) /\
  (SdCard.ldo_success_writes_handle D ->
   SdCard.unmounts_succeed D evs SdCard.initial_state (SdCard.mk_hw w0 []) = true ->
   (SdCard.sd_pwr_ctrl_handle s <> None <-> SdCard.sd_mounted s = true)) /\
  (forall fopen_ok t t' heap,
     SdCard.sd_mounted s = false ->
     SdCard.write_btn_click_cb fopen_ok t t' heap s =
       (SdCard.set_status_label s (SdCard.Text "Mount SD card first!"),
        SdCard.NoFileAccess)).
Proof.
  intros Hfail s.
  assert (H1 : SdCard.rail_implies_mounted s).
  { apply run_ui_rail_implies_mounted; [exact Hfail |].
    intros Hc. cbn in Hc. congruence. }
  split; [exact H1 |]. split.
  - intros Hok Hrun. split; [exact H1 |].
    apply (run_ui_mounted_implies_rail D evs Hok); [exact Hrun |].
    intros Hc. discriminate Hc.
  - intros ok t t' heap Hm. apply write_click_unmounted. exact Hm.
Qed.

Lemma sd_rail_pairing_with_writes_witness :
  let s := (SdCard.run_ui SdCard.null_checking_driver
              [SdCard.WriteClick true 5000000 5000100 200000; SdCard.MountClick id;
               SdCard.WriteClick true 7000000 7000100 200000; SdCard.MountClick id]
              SdCard.initial_state (SdCard.mk_hw false []) []).1.1 in
  (SdCard.sd_pwr_ctrl_handle s <> None <-> SdCard.sd_mounted s = true) /\
  SdCard.write_btn_click_cb true 9000000 9000100 200000 s =
    (SdCard.set_status_label s (SdCard.Text "Mount SD card first!"), SdCard.NoFileAccess).
Proof.
  intros s.
  destruct (sd_rail_pairing_with_writes SdCard.null_checking_driver
              [SdCard.WriteClick true 5000000 5000100 200000; SdCard.MountClick id;
               SdCard.WriteClick true 7000000 7000100 200000; SdCard.MountClick id]
              false null_checking_ldo_failure_writes_nothing) as (_ & Hiff & Hw).
  split.
  - apply Hiff; [apply null_checking_ldo_success_writes_handle | reflexivity].
  - apply Hw. reflexivity.
Defined.

Section SdCallPairing.
Import SdCard.
Context {W : Type} (D : sd_driver W).

Lemma armed_after_app (l1 l2 : list sd_call) :
forall a : bool, armed_after a (l1 ++ l2) = armed_after (armed_after a l1) l2.
Proof.
induction l1 as [| c l1 IH]; intros a; [reflexivity |].
destruct c; cbn [app armed_after]; apply IH.
Qed.

Lemma deletes_paired_app (l1 l2 : list sd_call) :
forall a : bool,
  deletes_paired a (l1 ++ l2) =
  deletes_paired a l1 && deletes_paired (armed_after a l1) l2.
Proof.
induction l1 as [| c l1 IH]; intros a; [reflexivity |].
destruct c; cbn [app deletes_paired armed_after]; rewrite IH;
  try reflexivity.
rewrite andb_assoc. reflexivity.
Qed.

(** The calls one [sd_mount] adds to the log. *)
Lemma sd_mount_calls (s : app_state) (h : hw W) :
exists l : list sd_call,
  calls (sd_mount D s h).2 = calls h ++ CallNewLdo LDO_CHAN_ID :: l /\
  (l = [] \/
   (exists x, l = [CallFatMount x]) \/
   (exists x y, l = [CallFatMount x; CallDelLdo y] /\
                sd_pwr_ctrl_handle (sd_mount D s h).1.2 = None)).
Proof.
unfold sd_mount.
destruct (sd_pwr_ctrl_new_on_chip_ldo D LDO_CHAN_ID (world h)) as [[ret out] w1].
destruct (negb (ret =? ESP_OK)).
- exists []. split; [reflexivity | left; reflexivity].
- cbn [calls].
  destruct (esp_vfs_fat_sdmmc_mount D _ w1) as [[ret' oc] w2].
  destruct (negb (ret' =? ESP_OK)).
  + eexists. cbn [snd fst calls]. rewrite <- !app_assoc. cbn [app].
    split; [reflexivity |]. right. right. eexists _, _. split; reflexivity.
  + eexists. cbn [snd fst calls]. rewrite <- !app_assoc. cbn [app].
    split; [reflexivity |]. right. left. eexists. reflexivity.
Qed.

(** The calls one [sd_unmount] adds: the unmount, and the deletion of the
    handle when one is held. *)
Lemma sd_unmount_calls (s : app_state) (h : hw W) :
calls (sd_unmount D s h).2 =
  calls h ++ CallFatUnmount (sd_card s) ::
    match sd_pwr_ctrl_handle s with
    | Some p => [CallDelLdo (Some p)]
    | None => []
    end.
Proof.
unfold sd_unmount.
destruct (esp_vfs_fat_sdcard_unmount D (sd_card s) (world h)) as [ret w1].
cbn [sd_pwr_ctrl_handle set_sd_card].
destruct (sd_pwr_ctrl_handle s); cbn [snd calls]; rewrite <- ?app_assoc; reflexivity.
Qed.

Lemma click_state_calls (s : app_state) (h : hw W) :
(sd_mounted s = true /\
 calls (mount_btn_click_cb D s h).2 = calls (sd_unmount D s h).2 /\
 sd_pwr_ctrl_handle (mount_btn_click_cb D s h).1 = None) \/
(sd_mounted s = false /\
 calls (mount_btn_click_cb D s h).2 =
   calls (sd_mount D (set_status_label s (Text "Mounting...")) h).2 /\
 sd_pwr_ctrl_handle (mount_btn_click_cb D s h).1 =
   sd_pwr_ctrl_handle (sd_mount D (set_status_label s (Text "Mounting...")) h).1.2).
Proof.
unfold mount_btn_click_cb. destruct (sd_mounted s).
- left. split; [reflexivity |].
  pose proof (sd_unmount_clears D s h) as (Hh & _ & _).
  destruct (sd_unmount D s h) as [[ret s1] h1]. cbn in Hh.
  destruct (ret =? ESP_OK); cbn; split; (reflexivity || exact Hh).
- right. split; [reflexivity |].
  destruct (sd_mount D _ h) as [[ret s1] h1].
  destruct (ret =? ESP_OK); cbn; split; reflexivity.
Qed.

Lemma click_log_ok (s : app_state) (h : hw W) :
log_ok s h ->
log_ok (mount_btn_click_cb D s h).1 (mount_btn_click_cb D s h).2.
Proof.
intros [Hp Ha]. unfold log_ok.
destruct (click_state_calls s h) as [(_ & Hc & Hh) | (_ & Hc & Hh)];
  rewrite Hc, Hh.
- rewrite sd_unmount_calls, deletes_paired_app, Hp.
  split; [| intros Hn; contradiction].
  destruct (sd_pwr_ctrl_handle s) as [p |]; [| reflexivity].
  cbn. rewrite Ha by discriminate. reflexivity.
- destruct (sd_mount_calls (set_status_label s (Text "Mounting...")) h)
    as (l & Hl & Hcases).
  cbn [calls set_status_label] in Hl. rewrite Hl.
  rewrite deletes_paired_app, armed_after_app, Hp.
  destruct Hcases as [-> | [[x ->] | (x & y & -> & Hnull)]].
  + split; reflexivity.
  + split; reflexivity.
  + split; [reflexivity |]. rewrite Hnull. intros Hn; contradiction.
Qed.

Lemma run_ui_log_ok (evs : list (ui_event W)) :
forall (s : app_state) (h : hw W) (files : list file_action),
  log_ok s h ->
  log_ok (run_ui D evs s h files).1.1 (run_ui D evs s h files).1.2.
Proof.
induction evs as [| ev evs IH]; intros s h files Hinv; [exact Hinv |].
destruct ev as [env | ok t t' heap]; cbn [run_ui].
- pose proof (click_log_ok s (mk_hw (env (world h)) (calls h)) Hinv) as Hstep.
  destruct (mount_btn_click_cb D s _) as [s' h']. apply IH. exact Hstep.
- destruct (write_click_frame ok t t' heap s) as (_ & Hh & _ & _).
  destruct (write_btn_click_cb ok t t' heap s) as [s' act]. apply IH.
  unfold log_ok in *. cbn in Hh. rewrite Hh. exact Hinv.
Qed.

End SdCallPairing.

Section SdNullDelete.
Import SdCard.
Context {W : Type} (D : sd_driver W).

Lemma sd_mount_no_null_delete (s : app_state) (h : hw W) :
ldo_success_writes_handle D ->
CallDelLdo None ∉ calls h ->
CallDelLdo None ∉ calls (sd_mount D s h).2.
Proof.
intros Hldo Hh. unfold sd_mount.
destruct (sd_pwr_ctrl_new_on_chip_ldo D LDO_CHAN_ID (world h))
  as [[ret out] w1] eqn:Hnew.
destruct (Z.eqb_spec ret ESP_OK) as [-> | Hret]; cbn [negb].
- pose proof (Hldo _ _ _ _ _ Hnew eq_refl) as Hout.
  destruct out as [p |]; [| congruence].
  cbn [store_out sd_pwr_ctrl_handle set_sd_pwr_ctrl_handle calls].
  destruct (esp_vfs_fat_sdmmc_mount D _ w1) as [[ret' oc] w2].
  destruct (negb (ret' =? ESP_OK)); cbn [snd calls sd_pwr_ctrl_handle set_sd_card];
    rewrite !not_elem_of_app; repeat split; try exact Hh;
    intros Hc; apply list_elem_of_singleton in Hc; discriminate Hc.
- cbn [snd calls]. rewrite not_elem_of_app. split; [exact Hh |].
  intros Hc. apply list_elem_of_singleton in Hc. discriminate Hc.
Qed.

Lemma click_no_null_delete (s : app_state) (h : hw W) :
ldo_success_writes_handle D ->
CallDelLdo None ∉ calls h ->
CallDelLdo None ∉ calls (mount_btn_click_cb D s h).2.
Proof.
intros Hldo Hh.
destruct (click_state_calls D s h) as [(_ & Hc & _) | (_ & Hc & _)]; rewrite Hc.
- rewrite sd_unmount_calls, not_elem_of_app. split; [exact Hh |].
  destruct (sd_pwr_ctrl_handle s); intros Hin;
    repeat (apply elem_of_cons in Hin as [Hin | Hin]; [discriminate Hin |]);
    apply elem_of_nil in Hin; exact Hin.
- apply sd_mount_no_null_delete; assumption.
Qed.

Lemma run_ui_no_null_delete (evs : list (ui_event W)) :
ldo_success_writes_handle D ->
forall (s : app_state) (h : hw W) (files : list file_action),
  CallDelLdo None ∉ calls h ->
  CallDelLdo None ∉ calls (run_ui D evs s h files).1.2.
Proof.
intros Hldo. induction evs as [| ev evs IH]; intros s h files Hh; [exact Hh |].
destruct ev as [env | ok t t' heap]; cbn [run_ui].
- pose proof (click_no_null_delete s (mk_hw (env (world h)) (calls h)) Hldo Hh)
    as Hstep.
  destruct (mount_btn_click_cb D s _) as [s' h']. apply IH. exact Hstep.
- destruct (write_btn_click_cb ok t t' heap s) as [s' act]. apply IH. exact Hh.
Qed.

End SdNullDelete.

(** X6. The example never deletes a rail object twice: in the driver calls
    of every run of mount and write clicks, each [sd_pwr_ctrl_del_on_chip_ldo]
    follows a [sd_pwr_ctrl_new_on_chip_ldo] with no other deletion in
    between; and when a successful allocation stores its handle, the
    deletion is never called with a null handle. *)
Theorem sd_deletes_paired {W : Type} (D : SdCard.sd_driver W)
    (evs : list (SdCard.ui_event W)) (w0 : W) :
  let h := (SdCard.run_ui D evs SdCard.initial_state (SdCard.mk_hw w0 []) []).1.2 in
  SdCard.deletes_paired false (SdCard.calls h) = true /\
  (SdCard.ldo_success_writes_handle D ->
   SdCard.CallDelLdo None ∉ SdCard.calls h).
Proof.
  intros h. split.
  - apply (run_ui_log_ok D evs SdCard.initial_state (SdCard.mk_hw w0 []) []).
    split; [reflexivity |]. intros Hc. cbn in Hc. congruence.
  - intros Hldo. apply run_ui_no_null_delete; [exact Hldo |]. apply not_elem_of_nil.
Qed.

Lemma sd_deletes_paired_witness :
  let h := (SdCard.run_ui (SdCard.sim_driver false false)
              [SdCard.MountClick id; SdCard.MountClick id]
              SdCard.initial_state (SdCard.mk_hw false []) []).1.2 in
  SdCard.calls h =
    [SdCard.CallNewLdo 4; SdCard.CallFatMount (Some 1%positive);
     SdCard.CallDelLdo (Some 1%positive);
     SdCard.CallNewLdo 4; SdCard.CallFatMount (Some 1%positive);
     SdCard.CallDelLdo (Some 1%positive)] /\
  SdCard.CallDelLdo None ∉ SdCard.calls h.
Proof.
  intros h. split; [reflexivity |].
  apply (proj2 (sd_deletes_paired (SdCard.sim_driver false false)
                  [SdCard.MountClick id; SdCard.MountClick id] false)).
  apply sim_ldo_success_writes_handle.
Defined.

(** X7. A failed unmount cannot be retried with the card: when the driver's
    unmount call fails, the click leaves the card flagged mounted with the
    status "Unmount failed!", but with the card pointer and the rail handle
    already null; so the next click calls the driver's unmount with a null
    card and deletes nothing. *)
Theorem sd_unmount_failure_loses_card {W : Type} (D : SdCard.sd_driver W)
    (s : SdCard.app_state) (h : SdCard.hw W) (env : W -> W) :
  SdCard.sd_mounted s = true ->
  fst (SdCard.esp_vfs_fat_sdcard_unmount D (SdCard.sd_card s) (SdCard.world h)) <> ESP_OK ->
  let s1 := (SdCard.mount_btn_click_cb D s h).1 in
  let h1 := (SdCard.mount_btn_click_cb D s h).2 in
  SdCard.sd_mounted s1 = true /\
  SdCard.sd_card s1 = None /\
  SdCard.sd_pwr_ctrl_handle s1 = None /\
  SdCard.status_label s1 = SdCard.Text "Unmount failed!" /\
  SdCard.calls
    (SdCard.mount_btn_click_cb D s1 (SdCard.mk_hw (env (SdCard.world h1)) (SdCard.calls h1))).2
  = SdCard.calls h1 ++ [SdCard.CallFatUnmount None].
Proof.
  intros Hm Hfail s1 h1.
  assert (Hs1 : SdCard.sd_mounted s1 = true /\ SdCard.sd_card s1 = None /\
                SdCard.sd_pwr_ctrl_handle s1 = None /\
                SdCard.status_label s1 = SdCard.Text "Unmount failed!").
  { unfold s1, SdCard.mount_btn_click_cb. rewrite Hm.
    pose proof (sd_unmount_clears D s h) as (Hh & Hc & Hf).
    pose proof (sd_unmount_ret D s h) as Hr.
    destruct (SdCard.sd_unmount D s h) as [[ret s'] h']. cbn in Hh, Hc, Hf, Hr.
    subst ret.
    destruct (Z.eqb_spec
                (SdCard.esp_vfs_fat_sdcard_unmount D (SdCard.sd_card s) (SdCard.world h)).1
                ESP_OK) as [He | _]; [contradiction |].
    cbn. rewrite Hh, Hc, Hf, Hm. repeat split. }
  destruct Hs1 as (Hm1 & Hc1 & Hh1 & Hst1).
  repeat (split; [assumption |]).
  destruct (click_state_calls D s1
              (SdCard.mk_hw (env (SdCard.world h1)) (SdCard.calls h1)))
    as [(_ & Hcalls & _) | (Hno & _)]; [| congruence].
  rewrite Hcalls, sd_unmount_calls, Hc1, Hh1. reflexivity.
Qed.

Lemma sd_unmount_failure_loses_card_witness :
  let D := SdCard.sim_driver true true in
  let mounted := SdCard.mount_btn_click_cb D SdCard.initial_state (SdCard.power_on false) in
  let s1 := (SdCard.mount_btn_click_cb D mounted.1 mounted.2).1 in
  let h1 := (SdCard.mount_btn_click_cb D mounted.1 mounted.2).2 in
  SdCard.sd_mounted s1 = true /\
  SdCard.sd_card s1 = None /\
  SdCard.sd_pwr_ctrl_handle s1 = None /\
  SdCard.status_label s1 = SdCard.Text "Unmount failed!" /\
  SdCard.calls
    (SdCard.mount_btn_click_cb D s1 (SdCard.mk_hw (id (SdCard.world h1)) (SdCard.calls h1))).2
  = SdCard.calls h1 ++ [SdCard.CallFatUnmount None].
Proof.
  intros D mounted.
  apply (sd_unmount_failure_loses_card D mounted.1 mounted.2 id).
  - reflexivity.
  - cbn. discriminate.
Defined.

(** ** WiFi HTTP: the outcome of the connection wait *)

Section WifiOutcome.
Import WifiHttp.

Lemma has_bit_set (b m : Z) : m <> 0 -> has_bit (Z.lor b m) m = true.
Proof.
intros Hm. unfold has_bit. rewrite land_lor_same.
destruct (Z.eqb_spec m 0); [contradiction | reflexivity].
Qed.

Lemma has_connected_after_fail (b : Z) :
has_bit (Z.lor b WIFI_FAIL_BIT) WIFI_CONNECTED_BIT = has_bit b WIFI_CONNECTED_BIT.
Proof.
unfold has_bit. rewrite Z.land_lor_distr_l.
change (Z.land WIFI_FAIL_BIT WIFI_CONNECTED_BIT) with 0.
rewrite Z.lor_0_r. reflexivity.
Qed.

Lemma has_fail_after_connected (b : Z) :
has_bit (Z.lor b WIFI_CONNECTED_BIT) WIFI_FAIL_BIT = has_bit b WIFI_FAIL_BIT.
Proof.
unfold has_bit. rewrite Z.land_lor_distr_l.
change (Z.land WIFI_CONNECTED_BIT WIFI_FAIL_BIT) with 0.
rewrite Z.lor_0_r. reflexivity.
Qed.

Lemma deliver_cons (ev : wifi_event) (evs : list wifi_event) (s : state) :
deliver (ev :: evs) s = deliver evs (step s ev).
Proof. destruct ev as [[base id] ip]. reflexivity. Qed.

(** A got-IP event raises the connected bit. *)
Lemma step_got_ip (s : state) (ev : wifi_event) :
is_got_ip ev = true ->
has_bit (event_bits (step s ev)) WIFI_CONNECTED_BIT = true.
Proof.
destruct ev as [[base id] ip]. destruct base; try discriminate.
cbn [is_got_ip step]. intros Hid. unfold wifi_event_handler. rewrite Hid.
unfold set_ip_label_text. destruct (ip_label _); cbn; apply has_bit_set; discriminate.
Qed.

(** No event clears the connected bit. *)
Lemma step_keeps_connected (s : state) (ev : wifi_event) :
has_bit (event_bits s) WIFI_CONNECTED_BIT = true ->
has_bit (event_bits (step s ev)) WIFI_CONNECTED_BIT = true.
Proof.
intros Hc. destruct ev as [[base id] ip]. cbn [step]. unfold wifi_event_handler.
destruct base.
- destruct (id =? WIFI_EVENT_STA_START); [exact Hc |].
  destruct (id =? WIFI_EVENT_STA_DISCONNECTED); [| exact Hc].
  destruct (wifi_retry_count s <? WIFI_MAX_RETRY); [exact Hc |].
  cbn. rewrite has_connected_after_fail. exact Hc.
- destruct (id =? IP_EVENT_STA_GOT_IP); [| exact Hc].
  unfold set_ip_label_text. destruct (ip_label _); cbn; apply has_bit_set; discriminate.
- exact Hc.
Qed.

(** What an event other than got-IP does to the counter and the bits. *)
Lemma step_no_ip (s : state) (ev : wifi_event) :
is_got_ip ev = false -> 0 <= wifi_retry_count s <= 5 ->
has_bit (event_bits (step s ev)) WIFI_CONNECTED_BIT =
  has_bit (event_bits s) WIFI_CONNECTED_BIT /\
(if is_disconnect ev
 then (wifi_retry_count s < 5 /\
       wifi_retry_count (step s ev) = wifi_retry_count s + 1 /\
       has_bit (event_bits (step s ev)) WIFI_FAIL_BIT =
         has_bit (event_bits s) WIFI_FAIL_BIT) \/
      (wifi_retry_count s = 5 /\
       wifi_retry_count (step s ev) = 5 /\
       has_bit (event_bits (step s ev)) WIFI_FAIL_BIT = true)
 else wifi_retry_count (step s ev) = wifi_retry_count s /\
      has_bit (event_bits (step s ev)) WIFI_FAIL_BIT =
        has_bit (event_bits s) WIFI_FAIL_BIT).
Proof.
intros Hip Hr. destruct ev as [[base id] ip]. cbn [step is_disconnect is_got_ip] in *.
unfold wifi_event_handler. destruct base.
- destruct (Z.eqb_spec id WIFI_EVENT_STA_START) as [-> | Hstart].
  + cbn. split; [reflexivity | split; reflexivity].
  + destruct (Z.eqb_spec id WIFI_EVENT_STA_DISCONNECTED) as [-> | Hdis].
    * unfold WIFI_MAX_RETRY.
      destruct (Z.ltb_spec (wifi_retry_count s) 5).
      -- cbn. split; [reflexivity |]. left. split; [assumption |].
         split; [| reflexivity]. apply cint_add_exact. cint_range.
      -- cbn. split; [apply has_connected_after_fail |]. right.
         split; [lia |]. split; [lia |]. apply has_bit_set. discriminate.
    * split; [reflexivity | split; reflexivity].
- rewrite Hip. split; [reflexivity | split; reflexivity].
- split; [reflexivity | split; reflexivity].
Qed.

Lemma deliver_keeps_connected (evs : list wifi_event) :
forall s : state,
  has_bit (event_bits s) WIFI_CONNECTED_BIT = true ->
  has_bit (event_bits (deliver evs s)) WIFI_CONNECTED_BIT = true.
Proof.
induction evs as [| ev evs IH]; intros s Hc; [exact Hc |].
rewrite deliver_cons. apply IH. apply step_keeps_connected. exact Hc.
Qed.

Lemma deliver_got_ip (evs : list wifi_event) :
forall s : state,
  existsb is_got_ip evs = true ->
  has_bit (event_bits (deliver evs s)) WIFI_CONNECTED_BIT = true.
Proof.
induction evs as [| ev evs IH]; intros s Hex; [discriminate Hex |].
rewrite deliver_cons. cbn [existsb] in Hex.
destruct (is_got_ip ev) eqn:Hev.
- apply deliver_keeps_connected. apply step_got_ip. exact Hev.
- apply IH. exact Hex.
Qed.

Lemma deliver_no_ip (evs : list wifi_event) :
forall s : state,
  existsb is_got_ip evs = false -> 0 <= wifi_retry_count s <= 5 ->
  has_bit (event_bits (deliver evs s)) WIFI_CONNECTED_BIT =
    has_bit (event_bits s) WIFI_CONNECTED_BIT /\
  has_bit (event_bits (deliver evs s)) WIFI_FAIL_BIT =
    has_bit (event_bits s) WIFI_FAIL_BIT ||
    (6 <=? wifi_retry_count s + Z.of_nat (length (List.filter is_disconnect evs))).
Proof.
induction evs as [| ev evs IH]; intros s Hex Hr.
- cbn [deliver fold_left List.filter length]. split; [reflexivity |].
  destruct (6 <=? _) eqn:E; [apply Z.leb_le in E; cbn in E; lia |].
  rewrite orb_false_r. reflexivity.
- rewrite deliver_cons. cbn [existsb] in Hex. apply orb_false_iff in Hex as [Hev Hex].
  destruct (step_no_ip s ev Hev Hr) as [Hc Hd].
  cbn [List.filter]. destruct (is_disconnect ev).
  + destruct Hd as [(Hlt & Hr1 & Hf) | (Heq & Hr1 & Hf)];
      destruct (IH (step s ev) Hex ltac:(lia)) as [Hc' Hf'];
      rewrite Hc', Hf', Hc, Hf, Hr1; (split; [reflexivity |]); cbn [length].
    * f_equal. f_equal. lia.
    * destruct (Z.leb_spec 6
        (wifi_retry_count s + Z.of_nat (S (length (List.filter is_disconnect evs)))));
        [| lia].
      rewrite orb_true_r. reflexivity.
  + destruct Hd as [Hr1 Hf].
    destruct (IH (step s ev) Hex ltac:(lia)) as [Hc' Hf'].
    rewrite Hc', Hf', Hc, Hf, Hr1. split; reflexivity.
Qed.

End WifiOutcome.

(** X8. What [wifi_init_and_connect] returns for the events handled before
    the wait ends, starting from a fresh event group and retry counter 0:
    ESP_OK as soon as a got-IP event was among them (later disconnects do
    not take it back); otherwise ESP_FAIL if at least six disconnect events
    were handled; otherwise ESP_ERR_TIMEOUT. *)
Theorem wifi_connect_outcome (evs : list WifiHttp.wifi_event) (s : WifiHttp.state) :
  WifiHttp.wifi_retry_count s = 0 ->
  WifiHttp.event_bits s = 0 ->
  WifiHttp.connect_result (WifiHttp.event_bits (WifiHttp.deliver evs s)) =
    if existsb WifiHttp.is_got_ip evs then ESP_OK
    else if 6 <=? Z.of_nat (length (List.filter WifiHttp.is_disconnect evs))
         then ESP_FAIL
         else ESP_ERR_TIMEOUT.
Proof.
  intros Hr Hb. unfold WifiHttp.connect_result.
  destruct (existsb WifiHttp.is_got_ip evs) eqn:Hex.
  - rewrite deliver_got_ip by exact Hex. reflexivity.
  - destruct (deliver_no_ip evs s Hex ltac:(lia)) as [Hc Hf].
    rewrite Hc, Hf, Hb, Hr. cbn [WifiHttp.has_bit Z.land Z.eqb negb orb Z.add].
    reflexivity.
Qed.

Lemma wifi_connect_outcome_witness :
  WifiHttp.connect_result
    (WifiHttp.event_bits
       (WifiHttp.deliver
          [WifiHttp.ev_start; WifiHttp.ev_disconnect; WifiHttp.ev_disconnect;
           WifiHttp.ev_got_ip; WifiHttp.ev_disconnect]
          WifiHttp.initial_state)) = ESP_OK.
Proof.
  apply (wifi_connect_outcome
           [WifiHttp.ev_start; WifiHttp.ev_disconnect; WifiHttp.ev_disconnect;
            WifiHttp.ev_got_ip; WifiHttp.ev_disconnect]
           WifiHttp.initial_state eq_refl eq_refl).
Defined.

(** ** WiFi HTTP: the response buffer *)

Section HttpBuffer.
Import HttpFetch.

Lemma take_min_length {A : Type} (l : list A) (k : nat) :
  take (min (length l) k) l = take k l.
Proof.
  destruct (Nat.le_gt_cases (length l) k) as [Hle | Hgt].
  - rewrite Nat.min_l by exact Hle. rewrite !take_ge by lia. reflexivity.
  - rewrite Nat.min_r by lia. reflexivity.
Qed.

(** One data event of a plain response: the buffer takes as much of the
    data as still fits below its last byte. *)
Lemma http_data_step (st : state) (data : list byte) :
  buffer_ok st ->
  Z.of_nat (length data) <= CInt.INT_MAX - HTTP_BUFFER_SIZE ->
  let st' := http_event_handler (HTTP_EVENT_ON_DATA false data) st in
  buffer_ok st' /\
  http_buffer_len st' =
    Z.min (HTTP_BUFFER_SIZE - 1) (http_buffer_len st + Z.of_nat (length data)) /\
  take (Z.to_nat (http_buffer_len st')) (http_buffer st') =
    take (Z.to_nat (http_buffer_len st)) (http_buffer st) ++
    take (Z.to_nat (HTTP_BUFFER_SIZE - 1 - http_buffer_len st)) data.
Proof.
  intros (Hlen & Hrange & Hnul) Hfit st'. unfold HTTP_BUFFER_SIZE in *.
  set (len := http_buffer_len st) in *. set (n := Z.of_nat (length data)) in *.
  assert (Hadd : CInt.add len n = len + n) by (apply cint_add_exact; cint_range).
  assert (Hsub : CInt.sub (CInt.sub 2048 len) 1 = 2047 - len).
  { unfold CInt.sub. rewrite (cint_wrap_id (2048 - len)) by cint_range.
    rewrite cint_wrap_id by cint_range. lia. }
  set (copy := Z.min n (2047 - len)).
  assert (Hst' : st' =
            if copy >? 0 then
              mk_state (<[Z.to_nat (len + copy) := NUL]>
                          (memcpy_at (http_buffer st) (Z.to_nat len) data (Z.to_nat copy)))
                       (len + copy)
            else st).
  { unfold st', http_event_handler. cbn [negb]. fold len. fold n.
    unfold HTTP_BUFFER_SIZE. rewrite Hadd, Hsub.
    destruct (Z.geb_spec (len + n) 2048) as [Hge | Hlt].
    - replace copy with (2047 - len) by (unfold copy; lia).
      destruct (2047 - len >? 0) eqn:Hc; [| reflexivity].
      rewrite cint_add_exact by cint_range. reflexivity.
    - replace copy with n by (unfold copy; lia).
      destruct (n >? 0) eqn:Hc; [| reflexivity].
      rewrite Hadd. reflexivity. }
  assert (Hcopy : 0 <= copy <= 2047 - len) by (unfold copy, n; lia).
  assert (Htake : take (Z.to_nat (2047 - len)) data = take (Z.to_nat copy) data).
  { rewrite <- (take_min_length data (Z.to_nat (2047 - len))). f_equal.
    unfold copy, n. lia. }
  replace (2048 - 1 - len) with (2047 - len) by lia.
  replace (2048 - 1) with 2047 by lia.
  rewrite Hst'. destruct (Z.gtb_spec copy 0) as [Hpos | Hzero].
  - assert (Hlc : length (take (Z.to_nat copy) data) = Z.to_nat copy)
      by (rewrite length_take; unfold copy, n; lia).
    assert (Hl1 : length (memcpy_at (http_buffer st) (Z.to_nat len) data (Z.to_nat copy))
                  = Z.to_nat 2048).
    { unfold memcpy_at. rewrite !length_app, length_take, Hlc, length_drop. lia. }
    split; [| split].
    + unfold buffer_ok, HTTP_BUFFER_SIZE.
      split; [| split]; cbn [http_buffer http_buffer_len].
      * rewrite length_insert. exact Hl1.
      * lia.
      * apply list_lookup_insert_eq. lia.
    + cbn [http_buffer_len]. unfold copy. lia.
    + cbn [http_buffer http_buffer_len]. rewrite take_insert_ge by lia.
      unfold memcpy_at. rewrite Htake, app_assoc.
      apply take_app_length'.
      rewrite length_app, length_take, Hlc. lia.
  - assert (copy = 0) by lia.
    split; [unfold buffer_ok, HTTP_BUFFER_SIZE; fold len; repeat split; assumption || lia |].
    split; [fold len; unfold copy in *; lia |].
    fold len. rewrite Htake. replace (Z.to_nat copy) with 0%nat by lia.
    cbn [firstn]. rewrite app_nil_r. reflexivity.
Qed.

(** Every event other than plain data leaves the buffer alone. *)
Lemma http_other_step (evt : http_event) (st : state) :
  match evt with HTTP_EVENT_ON_DATA false _ => False | _ => True end ->
  http_event_handler evt st = st.
Proof. destruct evt as [[|] data | | | id]; intros H; (reflexivity || contradiction). Qed.

Lemma receive_ok (evs : list http_event) :
  forall st : state,
    buffer_ok st -> Forall event_fits evs -> buffer_ok (receive evs st).
Proof.
  induction evs as [| evt evs IH]; intros st Hok Hfit; [exact Hok |].
  inversion Hfit as [| ? ? Hevt Hfit']; subst. cbn [receive fold_left].
  apply IH; [| exact Hfit'].
  destruct evt as [[|] data | | | id]; try exact Hok.
  apply http_data_step; [exact Hok | exact Hevt].
Qed.

Lemma receive_content (evs : list http_event) :
  forall (st : state) (acc : list byte),
    buffer_ok st -> Forall event_fits evs ->
    http_buffer_len st = Z.min (HTTP_BUFFER_SIZE - 1) (Z.of_nat (length acc)) ->
    take (Z.to_nat (http_buffer_len st)) (http_buffer st) = take 2047 acc ->
    http_buffer_len (receive evs st) =
      Z.min (HTTP_BUFFER_SIZE - 1) (Z.of_nat (length (acc ++ payload evs))) /\
    take (Z.to_nat (http_buffer_len (receive evs st))) (http_buffer (receive evs st)) =
      take 2047 (acc ++ payload evs).
Proof.
  induction evs as [| evt evs IH]; intros st acc Hok Hfit Hlen Hpre.
  - cbn [receive fold_left payload flat_map]. rewrite app_nil_r. split; assumption.
  - inversion Hfit as [| ? ? Hevt Hfit']; subst. cbn [receive fold_left].
    destruct evt as [[|] data | | | id];
      try (cbn [payload flat_map app]; apply (IH st acc); assumption).
    cbn [payload flat_map]. rewrite app_assoc.
    destruct (http_data_step st data Hok Hevt) as (Hok' & Hlen' & Hpre').
    apply IH; [exact Hok' | exact Hfit' | |].
    + rewrite Hlen', Hlen, length_app. unfold HTTP_BUFFER_SIZE. lia.
    + rewrite Hpre', Hpre, take_app. f_equal. f_equal.
      rewrite Hlen. unfold HTTP_BUFFER_SIZE. lia.
Qed.

Lemma cleared_ok : buffer_ok cleared.
Proof.
  split; [apply repeat_length |]. split; [unfold HTTP_BUFFER_SIZE; cbn; lia |].
  reflexivity.
Qed.

End HttpBuffer.

(** X9. The response buffer never overflows and holds a prefix of the
    response: after any sequence of HTTP client events, each data event of
    at most INT_MAX - 2048 = 2147481599 bytes (so that the [int] sum
    [http_buffer_len + copy_len] cannot overflow), on the buffer that
    [http_fetch] cleared, the buffer still has its 2048 bytes with a NUL at
    [http_buffer_len], which is at most 2047; it holds the first 2047 bytes
    of the data of the plain (non-chunked) data events, in order, the data of
    chunked responses and the bytes past 2047 being dropped.  When the data
    contain no NUL byte, the text in the buffer is exactly those bytes. *)
Theorem http_buffer_content (evs : list HttpFetch.http_event) :
  Forall HttpFetch.event_fits evs ->
  let st := HttpFetch.receive evs HttpFetch.cleared in
  length (HttpFetch.http_buffer st) = 2048%nat /\
  HttpFetch.http_buffer st !! Z.to_nat (HttpFetch.http_buffer_len st)
    = Some HttpFetch.NUL /\
  HttpFetch.http_buffer_len st =
    Z.min 2047 (Z.of_nat (length (HttpFetch.payload evs))) /\
  take (Z.to_nat (HttpFetch.http_buffer_len st)) (HttpFetch.http_buffer st) =
    take 2047 (HttpFetch.payload evs) /\
  (Forall (fun b => b <> HttpFetch.NUL) (HttpFetch.payload evs) ->
   Bluetooth.c_str (HttpFetch.http_buffer st) = take 2047 (HttpFetch.payload evs)).
Proof.
  intros Hfit st.
  destruct (receive_content evs HttpFetch.cleared [] cleared_ok Hfit
              eq_refl eq_refl) as [Hlen Hpre].
  cbn [app] in Hlen, Hpre. fold st in Hlen, Hpre.
  destruct (receive_ok evs HttpFetch.cleared cleared_ok Hfit) as (Hsize & _ & Hnul).
  fold st in Hsize, Hnul.
  split; [exact Hsize |]. split; [exact Hnul |].
  split; [exact Hlen |]. split; [exact Hpre |].
  intros Hnonul.
  rewrite <- (take_drop (Z.to_nat (HttpFetch.http_buffer_len st))
                (HttpFetch.http_buffer st)).
  rewrite (drop_S _ _ _ Hnul), Hpre.
  apply c_str_app_nul. apply Forall_take. exact Hnonul.
Qed.

Lemma http_buffer_content_witness :
  let evs :=
    [HttpFetch.HTTP_EVENT_ON_DATA false (list_byte_of_string "origin: ");
     HttpFetch.HTTP_EVENT_ON_DATA true (list_byte_of_string "skipped");
     HttpFetch.HTTP_EVENT_ON_DATA false (list_byte_of_string "1.2.3.4")] in
  let st := HttpFetch.receive evs HttpFetch.cleared in
  length (HttpFetch.http_buffer st) = 2048%nat /\
  HttpFetch.http_buffer st !! Z.to_nat (HttpFetch.http_buffer_len st)
    = Some HttpFetch.NUL /\
  HttpFetch.http_buffer_len st =
    Z.min 2047 (Z.of_nat (length (HttpFetch.payload evs))) /\
  take (Z.to_nat (HttpFetch.http_buffer_len st)) (HttpFetch.http_buffer st) =
    take 2047 (HttpFetch.payload evs) /\
  (Forall (fun b => b <> HttpFetch.NUL) (HttpFetch.payload evs) ->
   Bluetooth.c_str (HttpFetch.http_buffer st) = take 2047 (HttpFetch.payload evs)).
Proof.
  intros evs. apply (http_buffer_content evs).
  repeat constructor; cbn; unfold CInt.INT_MAX, HttpFetch.HTTP_BUFFER_SIZE; lia.
Defined.

Section HttpDisplay.
Import HttpFetch.

Lemma c_str_is_prefix (buf : list byte) :
  Bluetooth.c_str buf = take (Bluetooth.strlen buf) buf.
Proof.
  unfold Bluetooth.strlen. induction buf as [| b buf IH]; [reflexivity |].
  cbn [Bluetooth.c_str]. case_bool_decide; [reflexivity |].
  cbn [length firstn]. f_equal. exact IH.
Qed.

Lemma strlen_le_length (buf : list byte) :
  (Bluetooth.strlen buf <= length buf)%nat.
Proof.
  unfold Bluetooth.strlen. induction buf as [| b buf IH]; [reflexivity |].
  cbn [Bluetooth.c_str]. case_bool_decide; cbn [length]; lia.
Qed.

Lemma ellipsis_no_nul : Forall (fun b => b <> Bluetooth.NUL) ELLIPSIS.
Proof. repeat constructor; discriminate. Qed.

(** Cutting a longer text at 500 characters. *)
Lemma c_str_cut_500 (buf : list byte) :
  (500 < Bluetooth.strlen buf)%nat ->
  <[500%nat := NUL]> buf =
    take 500 (Bluetooth.c_str buf) ++ NUL :: drop 501 buf /\
  Bluetooth.strlen (<[500%nat := NUL]> buf) = 500%nat.
Proof.
  intros Hlong. pose proof (strlen_le_length buf) as Hle.
  assert (Hcut : <[500%nat := NUL]> buf =
                 take 500 (Bluetooth.c_str buf) ++ NUL :: drop 501 buf).
  { rewrite insert_take_drop by lia. f_equal.
    rewrite c_str_is_prefix, take_take. f_equal. lia. }
  split; [exact Hcut |].
  unfold Bluetooth.strlen at 1. rewrite Hcut.
  rewrite c_str_app_nul by (apply Forall_take, c_str_no_nul).
  rewrite length_take. unfold Bluetooth.strlen in Hlong. lia.
Qed.

End HttpDisplay.

(** X10. The response shown on the display: a text of at most 500
    characters is shown as it is; a longer one is cut to its first 500
    characters followed by "...".  The cut stays inside the buffer. *)
Theorem response_display_truncation (buf : list byte) :
  length buf = 2048%nat ->
  length (HttpFetch.truncate_for_display buf) = 2048%nat /\
  Bluetooth.c_str (HttpFetch.truncate_for_display buf) =
    (if (500 <? Bluetooth.strlen buf)%nat
     then take 500 (Bluetooth.c_str buf) ++ HttpFetch.ELLIPSIS
     else Bluetooth.c_str buf) /\
  (Bluetooth.strlen (HttpFetch.truncate_for_display buf) <= 503)%nat.
Proof.
  intros Hlen. unfold HttpFetch.truncate_for_display.
  destruct (Nat.ltb_spec 500 (Bluetooth.strlen buf)) as [Hlong | Hshort].
  - destruct (c_str_cut_500 buf Hlong) as [Hcut Hs].
    unfold HttpFetch.strcat. rewrite Hs.
    assert (Hl500 : length (take 500 (Bluetooth.c_str buf)) = 500%nat)
      by (rewrite length_take; unfold Bluetooth.strlen in Hlong; lia).
    assert (Htk : take 500 (<[500%nat := HttpFetch.NUL]> buf) =
                  take 500 (Bluetooth.c_str buf)).
    { rewrite Hcut. apply take_app_length'. symmetry. exact Hl500. }
    rewrite Htk.
    assert (Hc : Bluetooth.c_str
                   (take 500 (Bluetooth.c_str buf) ++ HttpFetch.ELLIPSIS ++
                    HttpFetch.NUL :: drop (500 + length HttpFetch.ELLIPSIS + 1)
                                          (<[500%nat := HttpFetch.NUL]> buf))
                 = take 500 (Bluetooth.c_str buf) ++ HttpFetch.ELLIPSIS).
    { rewrite app_assoc. apply c_str_app_nul. apply Forall_app. split.
      - apply Forall_take, c_str_no_nul.
      - apply ellipsis_no_nul. }
    split; [| split].
    + rewrite !length_app. cbn [length]. rewrite Hl500, length_drop, length_insert, Hlen.
      reflexivity.
    + exact Hc.
    + unfold Bluetooth.strlen at 1. rewrite Hc, length_app, Hl500. cbn. lia.
  - split; [exact Hlen |]. split; [reflexivity | lia].
Qed.

Lemma response_display_truncation_witness :
  let buf := repeat "x"%byte 700 ++ repeat Bluetooth.NUL 1348 in
  length (HttpFetch.truncate_for_display buf) = 2048%nat /\
  Bluetooth.c_str (HttpFetch.truncate_for_display buf) =
    (if (500 <? Bluetooth.strlen buf)%nat
     then take 500 (Bluetooth.c_str buf) ++ HttpFetch.ELLIPSIS
     else Bluetooth.c_str buf) /\
  (Bluetooth.strlen (HttpFetch.truncate_for_display buf) <= 503)%nat.
Proof.
  intros buf. apply (response_display_truncation buf).
  unfold buf. rewrite length_app, !repeat_length. reflexivity.
Defined.

(** ** Reset device: the countdown as a whole *)

Section ResetRuns.
Import ResetDevice.

Lemma run_app (evs1 evs2 : list event) (s : state) :
  run (evs1 ++ evs2) s = run evs2 (run evs1 s).
Proof. unfold run. apply fold_left_app. Qed.

(** Nothing runs after the restart. *)
Lemma run_after_restart (evs : list event) (s : state) (c : reset_cause) :
  restarted s = Some c -> run evs s = s.
Proof.
  intros Hr. induction evs as [| ev evs IH]; [reflexivity |].
  cbn [run fold_left]. unfold step at 2. rewrite Hr. exact IH.
Qed.

(** A tick of a running countdown with more than one second left. *)
Lemma tick_counts (v : Z) (l b : option label_text) :
  1 < v <= 5 ->
  step (mk_state true v true l b None) TimerTick =
    mk_state true (v - 1) true (set_text_if_exists l (ResettingIn (v - 1))) b None.
Proof.
  intros Hv. unfold step, countdown_timer_cb. cbn [restarted countdown_timer
    countdown_active countdown_value countdown_label delayed_btn_label negb].
  assert (Hsub : CInt.sub v 1 = v - 1) by (apply cint_wrap_id; cint_range).
  rewrite Hsub.
  destruct (Z.leb_spec (v - 1) 0); [lia |].
  destruct (Z.gtb_spec (v - 1) 0); [reflexivity | lia].
Qed.

(** The tick that brings the counter to zero restarts the chip. *)
Lemma tick_fires (l b : option label_text) :
  step (mk_state true 1 true l b None) TimerTick =
    mk_state false 0 false (set_text_if_exists l (Text "Resetting NOW!")) b
             (Some ByCountdownTimer).
Proof. reflexivity. Qed.

Lemma set_text_twice (l : option label_text) (t1 t2 : label_text) :
  set_text_if_exists (set_text_if_exists l t1) t2 = set_text_if_exists l t2.
Proof. destruct l; reflexivity. Qed.

(** The state [k] ticks into a countdown that has more than [k] seconds
    left. *)
Lemma ticks_state (k : nat) :
  forall (v : Z) (l b : option label_text),
    Z.of_nat k < v <= 5 ->
    run (ticks k) (mk_state true v true l b None) =
      mk_state true (v - Z.of_nat k) true
        (match k with
         | O => l
         | S _ => set_text_if_exists l (ResettingIn (v - Z.of_nat k))
         end) b None.
Proof.
  induction k as [| k IH]; intros v l b Hv.
  - cbn. f_equal. lia.
  - cbn [ticks repeat run fold_left]. fold (ticks k).
    fold (run (ticks k) (step (mk_state true v true l b None) TimerTick)).
    rewrite tick_counts by lia. rewrite IH by lia.
    replace (v - 1 - Z.of_nat k) with (v - Z.of_nat (S k)) by lia.
    f_equal. destruct k as [| k']; [reflexivity |]. apply set_text_twice.
Qed.

Lemma step_ok (s : state) (ev : event) : countdown_ok s -> countdown_ok (step s ev).
Proof.
  unfold countdown_ok, step.
  destruct (restarted s) as [c |] eqn:Hr; [rewrite Hr; intros H; exact H |].
  intros Hinv. destruct ev.
  - unfold delayed_reset_btn_cb. destruct (countdown_active s); cbn; rewrite Hr; cbn.
    + reflexivity.
    + split; [reflexivity | lia].
  - unfold reset_btn_cb. cbn. exact I.
  - destruct (countdown_timer s) eqn:Ht; [| rewrite Hr, Ht; exact Hinv].
    unfold countdown_timer_cb. destruct (countdown_active s) eqn:Ha; cbn [negb].
    + destruct Hinv as [_ Hv].
      assert (Hsub : CInt.sub (countdown_value s) 1 = countdown_value s - 1)
        by (apply cint_wrap_id; cint_range).
      rewrite Hsub.
      destruct (Z.leb_spec (countdown_value s - 1) 0); cbn; rewrite ?Hr, ?Ha, ?Ht; cbn.
      * repeat split. lia.
      * split; [reflexivity | lia].
    + cbn. rewrite ?Hr, ?Ha. exact Hinv.
Qed.

Lemma run_ok (evs : list event) :
  forall s : state, countdown_ok s -> countdown_ok (run evs s).
Proof.
  induction evs as [| ev evs IH]; intros s Hs; [exact Hs |].
  cbn [run fold_left]. apply IH. apply step_ok. exact Hs.
Qed.

End ResetRuns.

(** X11. A delayed reset takes exactly five timer ticks: started from any
    idle state (also one whose previous countdown was cancelled and whose
    timer is still around), the countdown shows "Resetting in (5-k)..." and
    has not restarted the chip after [k] < 5 ticks, and at the fifth tick it
    shows "Resetting NOW!", deletes its timer and calls [esp_restart]. *)
Theorem countdown_fires_at_fifth_tick (s : ResetDevice.state) (k : nat) :
  ResetDevice.restarted s = None ->
  ResetDevice.countdown_active s = false ->
  let s' := ResetDevice.run (ResetDevice.ClickDelayedReset :: ResetDevice.ticks k) s in
  ((k < 5)%nat ->
   ResetDevice.restarted s' = None /\
   ResetDevice.countdown_active s' = true /\
   ResetDevice.countdown_value s' = 5 - Z.of_nat k /\
   ResetDevice.countdown_label s' =
     ResetDevice.set_text_if_exists (ResetDevice.countdown_label s)
       (ResetDevice.ResettingIn (5 - Z.of_nat k))) /\
  ((5 <= k)%nat ->
   ResetDevice.restarted s' = Some ResetDevice.ByCountdownTimer /\
   ResetDevice.countdown_active s' = false /\
   ResetDevice.countdown_timer s' = false /\
   ResetDevice.countdown_label s' =
     ResetDevice.set_text_if_exists (ResetDevice.countdown_label s)
       (ResetDevice.Text "Resetting NOW!")).
Proof.
  intros Hr Ha s'.
  assert (Hstart : ResetDevice.step s ResetDevice.ClickDelayedReset =
            ResetDevice.mk_state true 5 true
              (ResetDevice.set_text_if_exists (ResetDevice.countdown_label s)
                 (ResetDevice.ResettingIn 5))
              (ResetDevice.set_text_if_exists (ResetDevice.delayed_btn_label s)
                 (ResetDevice.Text "Cancel"))
              None).
  { unfold ResetDevice.step, ResetDevice.delayed_reset_btn_cb. rewrite Hr, Ha. reflexivity. }
  assert (Hs' : s' = ResetDevice.run (ResetDevice.ticks k)
                       (ResetDevice.step s ResetDevice.ClickDelayedReset)) by reflexivity.
  rewrite Hstart in Hs'. split; intros Hk.
  - rewrite ticks_state in Hs' by lia. rewrite Hs'.
    cbn [ResetDevice.restarted ResetDevice.countdown_active ResetDevice.countdown_value
         ResetDevice.countdown_label].
    repeat split. destruct k as [| k']; [reflexivity | apply set_text_twice].
  - replace k with (4 + (1 + (k - 5)))%nat in Hs' by lia.
    unfold ResetDevice.ticks in Hs'. rewrite !repeat_app in Hs'.
    fold (ResetDevice.ticks 4) in Hs'. rewrite !run_app, ticks_state in Hs' by lia.
    change (5 - Z.of_nat 4) with 1 in Hs'.
    change (ResetDevice.run (repeat ResetDevice.TimerTick 1) ?x)
      with (ResetDevice.step x ResetDevice.TimerTick) in Hs'.
    rewrite tick_fires in Hs'.
    rewrite (run_after_restart _ _ ResetDevice.ByCountdownTimer) in Hs' by reflexivity.
    rewrite Hs'.
    cbn [ResetDevice.restarted ResetDevice.countdown_active ResetDevice.countdown_timer
         ResetDevice.countdown_label].
    repeat split. rewrite !set_text_twice. reflexivity.
Qed.

Lemma countdown_fires_at_fifth_tick_witness :
  let cancelled :=
    ResetDevice.run
      (ResetDevice.ClickDelayedReset :: ResetDevice.ticks 3 ++ [ResetDevice.ClickDelayedReset])
      ResetDevice.initial_state in
  ResetDevice.restarted
    (ResetDevice.run (ResetDevice.ClickDelayedReset :: ResetDevice.ticks 4) cancelled) = None /\
  ResetDevice.restarted
    (ResetDevice.run (ResetDevice.ClickDelayedReset :: ResetDevice.ticks 5) cancelled)
    = Some ResetDevice.ByCountdownTimer.
Proof.
  intros cancelled. split.
  - apply (proj1 (countdown_fires_at_fifth_tick cancelled 4 eq_refl eq_refl)). lia.
  - apply (proj2 (countdown_fires_at_fifth_tick cancelled 5 eq_refl eq_refl)). lia.
Defined.

(** X12. Along every sequence of button clicks and timer ticks from the
    initial state: while the chip has not restarted, an active countdown has
    its timer and between 1 and 5 seconds left, and an idle one stands at 5;
    and the timer restarts the chip only with the counter at zero, the
    countdown over and its timer deleted. *)
Theorem countdown_invariant (evs : list ResetDevice.event) :
  let s := ResetDevice.run evs ResetDevice.initial_state in
  (ResetDevice.restarted s = None -> ResetDevice.countdown_active s = true ->
   ResetDevice.countdown_timer s = true /\ 1 <= ResetDevice.countdown_value s <= 5) /\
  (ResetDevice.restarted s = None -> ResetDevice.countdown_active s = false ->
   ResetDevice.countdown_value s = 5) /\
  (ResetDevice.restarted s = Some ResetDevice.ByCountdownTimer ->
   ResetDevice.countdown_active s = false /\ ResetDevice.countdown_value s = 0 /\
   ResetDevice.countdown_timer s = false).
Proof.
  intros s.
  assert (Hok : ResetDevice.countdown_ok s) by (apply run_ok; reflexivity).
  unfold ResetDevice.countdown_ok in Hok.
  split; [| split].
  - intros Hr Ha. rewrite Hr, Ha in Hok. exact Hok.
  - intros Hr Ha. rewrite Hr, Ha in Hok. exact Hok.
  - intros Hr. rewrite Hr in Hok. exact Hok.
Qed.

Lemma countdown_invariant_witness :
  let s :=
    ResetDevice.run
      [ResetDevice.ClickDelayedReset; ResetDevice.TimerTick; ResetDevice.TimerTick]
      ResetDevice.initial_state in
  ResetDevice.countdown_timer s = true /\ 1 <= ResetDevice.countdown_value s <= 5.
Proof.
  intros s.
  apply (proj1 (countdown_invariant
                  [ResetDevice.ClickDelayedReset; ResetDevice.TimerTick;
                   ResetDevice.TimerTick])); reflexivity.
Defined.

(** ** Bluetooth: address text, advertisement names *)

Section BleText.
Import Bluetooth.

Lemma hex_digit_inj (n m : N) :
  (n < 16)%N -> (m < 16)%N -> hex_digit n = hex_digit m -> n = m.
Proof.
  intros Hn Hm. unfold hex_digit. intros H. apply N2Nat.inj.
  assert (Hi : (N.to_nat n < 16)%nat) by lia.
  assert (Hj : (N.to_nat m < 16)%nat) by lia.
  revert H Hi Hj. generalize (N.to_nat n) as i, (N.to_nat m) as j. intros i j H Hi Hj.
  do 16 (destruct i as [| i];
         [do 16 (destruct j as [| j]; [first [reflexivity | discriminate H] |]); lia |]).
  lia.
Qed.

Lemma hex2_inj (x y : byte) : hex2 x = hex2 y -> x = y.
Proof.
  unfold hex2. intros H. injection H as Hq Hr.
  pose proof (Byte.to_N_bounded x) as Hx. pose proof (Byte.to_N_bounded y) as Hy.
  assert (Hq' : (Byte.to_N x / 16 = Byte.to_N y / 16)%N).
  { apply hex_digit_inj; [| | exact Hq]; apply N.Div0.div_lt_upper_bound; lia. }
  assert (Hr' : (Byte.to_N x mod 16 = Byte.to_N y mod 16)%N).
  { apply hex_digit_inj; [| | exact Hr]; apply N.mod_lt; lia. }
  assert (HN : Byte.to_N x = Byte.to_N y).
  { rewrite (N.div_mod (Byte.to_N x) 16), (N.div_mod (Byte.to_N y) 16) by lia.
    rewrite Hq', Hr'. reflexivity. }
  pose proof (Byte.of_to_N x) as Hox. rewrite HN, Byte.of_to_N in Hox.
  injection Hox as ->. reflexivity.
Qed.

End BleText.

(** X13. [bda_to_str] into an 18-byte buffer writes the whole 17-character
    text "XX:XX:XX:XX:XX:XX" of a 6-byte address, and two addresses with the
    same text are the same address. *)
Theorem bda_to_str_faithful (a b : list byte) :
  length a = 6%nat -> length b = 6%nat ->
  length (Bluetooth.bda_to_str a 18) = 17%nat /\
  (Bluetooth.bda_to_str a 18 = Bluetooth.bda_to_str b 18 -> a = b).
Proof.
  intros Ha Hb.
  destruct a as [| a0 [| a1 [| a2 [| a3 [| a4 [| a5 [| ? ?]]]]]]]; try discriminate Ha.
  destruct b as [| b0 [| b1 [| b2 [| b3 [| b4 [| b5 [| ? ?]]]]]]]; try discriminate Hb.
  split; [reflexivity |].
  unfold Bluetooth.bda_to_str, Bluetooth.bda_text.
  change (18 - 1)%nat with 17%nat.
  rewrite !take_ge by (cbn; lia).
  intros H.
  unfold Bluetooth.hex2 in H. cbn [app] in H.
  injection H as Ha0 Ha0' Ha1 Ha1' Ha2 Ha2' Ha3 Ha3' Ha4 Ha4' Ha5 Ha5'.
  f_equal; [| f_equal; [| f_equal; [| f_equal; [| f_equal; [| f_equal]]]]];
    apply hex2_inj; unfold Bluetooth.hex2; congruence.
Qed.

Lemma bda_to_str_faithful_witness :
  Bluetooth.bda_to_str (Bluetooth.test_addr 10) 18 =
    list_byte_of_string "00:11:22:33:44:0A" /\
  length (Bluetooth.bda_to_str (Bluetooth.test_addr 10) 18) = 17%nat.
Proof.
  split; [reflexivity |].
  apply (proj1 (bda_to_str_faithful (Bluetooth.test_addr 10) (Bluetooth.test_addr 11)
                  eq_refl eq_refl)).
Defined.

(** ** Bluetooth: what reports do to the entries of the table *)

Section BleFrame.
Import Bluetooth.

Lemma find_in_app_other (l : list ble_device_t) (a : list byte) (d' : ble_device_t) :
  forall i : Z,
    key d' <> take 6 a -> find_in (l ++ [d']) a i = find_in l a i.
Proof.
  induction l as [| d l IH]; intros i Hd; cbn [app find_in].
  - apply same_bda_false in Hd. rewrite Hd. reflexivity.
  - destruct (same_bda (bda d) a); [reflexivity | apply IH; exact Hd].
Qed.

(** The three ways a report ends, with the mutex created. *)
Lemma report_cases (st : state) (b : list byte) (nm : option (list byte)) (r : Z) :
  device_mutex st = true ->
  (exists (kb : nat) (db : ble_device_t),
      find_device st b = Z.of_nat kb /\ devices st !! kb = Some db /\
      (kb < device_count st)%nat /\ key db = take 6 b /\
      add_or_update_device b nm r st =
        mk_state (<[kb := update_entry db nm r]> (devices st)) (device_count st) true) \/
  (exists d0 : ble_device_t,
      find_device st b = -1 /\ (device_count st < MAX_DEVICES)%nat /\
      devices st !! device_count st = Some d0 /\
      add_or_update_device b nm r st =
        mk_state (<[device_count st := new_entry d0 b nm r]> (devices st))
                 (S (device_count st)) true) \/
  (find_device st b = -1 /\ add_or_update_device b nm r st = st).
Proof.
  intros Hm.
  destruct (find_device_spec st b) as [[Hf Hall] | (kb & db & Hf & Hk & Hlt & Hd)].
  - right.
    destruct (Nat.lt_ge_cases (device_count st) MAX_DEVICES) as [Hc | Hc].
    + destruct (devices st !! device_count st) as [d0 |] eqn:Hk.
      * left. exists d0. repeat split; try assumption. apply report_new; assumption.
      * right. split; [exact Hf |]. unfold add_or_update_device.
        rewrite Hm, Hf, Hk. cbn [negb Z.leb Z.compare].
        destruct (_ <? _)%nat; reflexivity.
    + right. split; [exact Hf |]. apply report_full; assumption.
  - left. exists kb, db. repeat split; try assumption. apply report_update; assumption.
Qed.

(** A report leaves alone every entry that carries another address. *)
Lemma report_frame (st : state) (b : list byte) (nm : option (list byte)) (r : Z)
    (k : nat) (d : ble_device_t) :
  devices st !! k = Some d -> (k < device_count st)%nat -> key d <> take 6 b ->
  devices (add_or_update_device b nm r st) !! k = Some d.
Proof.
  intros Hk Hlt Hd.
  destruct (device_mutex st) eqn:Hm;
    [| unfold add_or_update_device; rewrite Hm; exact Hk].
  destruct (report_cases st b nm r Hm)
    as [(kb & db & _ & Hkb & _ & Hdb & ->) | [(d0 & _ & _ & _ & ->) | (_ & ->)]];
    cbn [devices]; [| | exact Hk].
  - rewrite list_lookup_insert_ne; [exact Hk |].
    intros ->. rewrite Hk in Hkb. injection Hkb as ->. contradiction.
  - rewrite list_lookup_insert_ne; [exact Hk | lia].
Qed.

(** A report never removes or moves a listed entry, never changes its
    address, and never changes a name once one is stored. *)
Lemma report_keeps (st : state) (b : list byte) (nm : option (list byte)) (r : Z)
    (k : nat) (d : ble_device_t) :
  devices st !! k = Some d -> (k < device_count st)%nat ->
  exists d' : ble_device_t,
    devices (add_or_update_device b nm r st) !! k = Some d' /\
    (k < device_count (add_or_update_device b nm r st))%nat /\
    bda d' = bda d /\
    (has_name d = true -> name d' = name d /\ has_name d' = true).
Proof.
  intros Hk Hlt.
  destruct (device_mutex st) eqn:Hm;
    [| unfold add_or_update_device; rewrite Hm; exists d; repeat split; assumption].
  destruct (report_cases st b nm r Hm)
    as [(kb & db & _ & Hkb & _ & _ & ->) | [(d0 & _ & _ & _ & ->) | (_ & ->)]];
    cbn [devices device_count].
  - destruct (Nat.eq_dec kb k) as [-> | Hne].
    + rewrite Hk in Hkb. injection Hkb as <-.
      exists (update_entry d nm r).
      split; [apply list_lookup_insert_eq; eapply lookup_lt_Some; exact Hk |].
      split; [exact Hlt |]. unfold update_entry.
      split; [destruct (_ && _); reflexivity |].
      intros Hn. rewrite Hn, andb_false_r. split; reflexivity.
    + exists d. rewrite list_lookup_insert_ne by exact Hne. repeat split; assumption.
  - exists d. rewrite list_lookup_insert_ne by lia. repeat split; (assumption || lia).
  - exists d. repeat split; assumption.
Qed.

(** A report for another address does not change where an address is
    found. *)
Lemma report_other_find (st : state) (a b : list byte) (nm : option (list byte)) (r : Z) :
  (6 <= length b)%nat -> take 6 b <> take 6 a ->
  find_device (add_or_update_device b nm r st) a = find_device st a.
Proof.
  intros Hb Hab.
  destruct (device_mutex st) eqn:Hm;
    [| unfold add_or_update_device; rewrite Hm; reflexivity].
  destruct (report_cases st b nm r Hm)
    as [(kb & db & _ & Hkb & Hlt & _ & ->) | [(d0 & _ & _ & Hk0 & ->) | (_ & ->)]];
    [| | reflexivity].
  - apply (find_device_after_update st a kb db); [assumption | assumption |].
    apply key_update_entry.
  - unfold find_device. rewrite (live_new st d0 _ true Hk0).
    apply find_in_app_other. rewrite key_new_entry by exact Hb. exact Hab.
Qed.

(** After a report, an entry found for its address carries its RSSI. *)
Lemma report_rssi (st : state) (a : list byte) (nm : option (list byte)) (r : Z)
    (k : nat) (d : ble_device_t) :
  device_mutex st = true -> (6 <= length a)%nat ->
  find_device (add_or_update_device a nm r st) a = Z.of_nat k ->
  devices (add_or_update_device a nm r st) !! k = Some d ->
  rssi d = r.
Proof.
  intros Hm Ha.
  destruct (report_cases st a nm r Hm)
    as [(ka & da & Hf & Hka & Hlt & Hda & ->) | [(d0 & Hf & Hc & Hk0 & ->) | (Hf & ->)]].
  - rewrite (find_device_after_update st a ka da) by
      (assumption || apply key_update_entry).
    rewrite Hf. intros Hk. assert (k = ka) by lia. subst k. cbn [devices].
    rewrite list_lookup_insert_eq by (eapply lookup_lt_Some; exact Hka).
    intros Hd. injection Hd as <-. unfold update_entry. destruct (_ && _); reflexivity.
  - unfold find_device. rewrite (live_new st d0 _ true Hk0).
    rewrite find_in_app_miss;
      [| apply find_device_miss; exact Hf | apply key_new_entry; exact Ha].
    intros Hk. assert (k = length (live st)) by lia. subst k.
    unfold live. rewrite length_take_le by (apply lookup_lt_Some in Hk0; lia).
    cbn [devices]. rewrite list_lookup_insert_eq by (eapply lookup_lt_Some; exact Hk0).
    intros Hd. injection Hd as <-. unfold new_entry. destruct (name_given nm); reflexivity.
  - rewrite Hf. lia.
Qed.

Lemma report_mutex (st : state) (b : list byte) (nm : option (list byte)) (r : Z) :
  device_mutex (add_or_update_device b nm r st) = device_mutex st.
Proof.
  destruct (device_mutex st) eqn:Hm;
    [| unfold add_or_update_device; rewrite Hm; exact Hm].
  destruct (report_cases st b nm r Hm)
    as [(kb & db & _ & _ & _ & _ & ->) | [(d0 & _ & _ & _ & ->) | (_ & ->)]];
    (reflexivity || exact Hm).
Qed.

Lemma run_reports_mutex (rs : list report) :
  forall st : state, device_mutex (run_reports rs st) = device_mutex st.
Proof.
  induction rs as [| [[b nm] r] rs IH]; intros st; [reflexivity |].
  cbn [run_reports fold_left]. rewrite IH. apply report_mutex.
Qed.

Lemma run_reports_app (rs1 rs2 : list report) (st : state) :
  run_reports (rs1 ++ rs2) st = run_reports rs2 (run_reports rs1 st).
Proof. unfold run_reports. apply fold_left_app. Qed.

(** Reports for other addresses change neither where an address is found
    nor its entry. *)
Lemma run_reports_other (a : list byte) (rs : list report) :
  Forall (fun rp : report => (6 <= length rp.1.1)%nat /\ report_key rp <> take 6 a) rs ->
  forall st : state,
    find_device (run_reports rs st) a = find_device st a /\
    (forall (k : nat) (d : ble_device_t),
        find_device st a = Z.of_nat k -> devices st !! k = Some d ->
        devices (run_reports rs st) !! k = Some d).
Proof.
  induction 1 as [| [[b nm] r] rs [Hb Hab] _ IH]; intros st.
  - split; [reflexivity | intros k d _ Hk; exact Hk].
  - cbn [run_reports fold_left]. unfold report_key in Hab. cbn [fst] in Hb, Hab.
    destruct (IH (add_or_update_device b nm r st)) as [Hf Hent].
    rewrite (report_other_find st a b nm r Hb Hab) in Hf, Hent.
    split; [exact Hf |].
    intros k d Hk Hd. apply Hent; [exact Hk |].
    destruct (find_device_hit st a k d Hk Hd) as [Hlt Hkey].
    apply report_frame; [exact Hd | exact Hlt | congruence].
Qed.

Lemma entries_for_le_1 (st : state) (a : list byte) :
  wf st -> (entries_for st a <= 1)%nat.
Proof.
  intros Hwf.
  destruct (find_device_spec st a) as [[_ Hall] | (k & d & _ & Hk & Hlt & Hd)].
  - unfold entries_for. rewrite filter_miss by exact Hall. cbn. lia.
  - rewrite (entries_for_listed st a k d Hwf Hk Hlt Hd). lia.
Qed.

End BleFrame.

Section BleAdvertisedName.
Import Bluetooth.

Lemma adv_name_buffer_text (n : list byte) (short : option (list byte)) (cmpl : option (list byte)) :
  (cmpl = Some n \/ (cmpl = None /\ short = Some n)) ->
  (0 < length n)%nat -> Forall (fun b => b <> NUL) n ->
  c_str (adv_name_buffer cmpl short) = take 31 n /\
  length (adv_name_buffer cmpl short) = 32%nat.
Proof.
  intros Hsel Hlen Hno.
  assert (Hbuf : adv_name_buffer cmpl short =
                 let c := if (length n <? 31)%nat then length n else 31%nat in
                 <[c := NUL]> (take c n ++ drop c (repeat NUL 32))).
  { unfold adv_name_buffer.
    destruct Hsel as [-> | [-> ->]];
      (destruct (Nat.ltb_spec 0 (length n)); [reflexivity | lia]). }
  rewrite Hbuf. clear Hbuf. cbv zeta.
  set (c := if (length n <? 31)%nat then length n else 31%nat).
  assert (Hc : c = min (length n) 31) by (unfold c; destruct (Nat.ltb_spec (length n) 31); lia).
  assert (Hlc : length (take c n) = c) by (rewrite length_take; lia).
  assert (Hdrop : drop c (repeat NUL 32) = NUL :: repeat NUL (31 - c)).
  { replace 32%nat with (c + S (31 - c))%nat by lia.
    rewrite repeat_app. rewrite drop_app_length' by (rewrite repeat_length; reflexivity).
    reflexivity. }
  rewrite Hdrop.
  rewrite list_insert_id
    by (rewrite lookup_app_r by lia; rewrite Hlc, Nat.sub_diag; reflexivity).
  split.
  - rewrite c_str_app_nul by (apply Forall_take; exact Hno).
    rewrite Hc, Nat.min_comm. rewrite <- (take_min_length n 31), Nat.min_comm. reflexivity.
  - rewrite length_app, Hlc. cbn [length]. rewrite repeat_length. lia.
Qed.

Lemma c_str_head (l : list byte) : c_str l <> [] -> l !! 0%nat <> Some NUL.
Proof.
  destruct l as [| b l]; cbn [c_str]; [congruence |].
  case_bool_decide; [congruence |]. intros _ Hc. cbn in Hc. congruence.
Qed.

(** A named report for an address that is not listed while the table has
    room, or is listed without a name. *)
Lemma report_named_result (st : state) (a nm : list byte) (r : Z) :
  wf st -> device_mutex st = true -> length a = 6%nat ->
  (0 < strlen nm)%nat ->
  ((find_device st a = -1 /\ (device_count st < MAX_DEVICES)%nat) \/
   (exists (k : nat) (d : ble_device_t),
       find_device st a = Z.of_nat k /\ devices st !! k = Some d /\
       has_name d = false)) ->
  exists (k : nat) (d : ble_device_t),
    find_device (add_or_update_device a (Some nm) r st) a = Z.of_nat k /\
    devices (add_or_update_device a (Some nm) r st) !! k = Some d /\
    rssi d = r /\ has_name d = true /\ c_str (name d) = take 31 (c_str nm).
Proof.
  intros Hwf Hm Ha Hnm [[Hf Hc] | (k & d & Hf & Hk & Hn)].
  - destruct (report_cases st a (Some nm) r Hm)
      as [(ka & da & Hf' & _) | [(d0 & _ & _ & Hk0 & Heq) | (_ & Heq)]].
    + rewrite Hf in Hf'. lia.
    + rewrite Heq. exists (device_count st), (new_entry d0 a (Some nm) r).
      pose proof Hwf as (Hlen & _ & Hslots & _).
      split.
      { unfold find_device. rewrite (live_new st d0 _ true Hk0).
        rewrite find_in_app_miss;
          [| apply find_device_miss; exact Hf | apply key_new_entry; lia].
        unfold live. rewrite length_take_le by lia. lia. }
      split; [cbn [devices]; apply list_lookup_insert_eq; lia |].
      unfold new_entry, name_given.
      destruct (Nat.ltb_spec 0 (strlen nm)); [| lia].
      cbn [rssi has_name name name_bytes]. split; [reflexivity |]. split; [reflexivity |].
      destruct (Forall_lookup_1 _ _ _ _ Hslots Hk0) as [Hl Hlast].
      apply c_str_strncpy; assumption.
    + exfalso. unfold add_or_update_device in Heq.
      rewrite Hm, Hf in Heq. cbn [negb Z.leb Z.compare] in Heq.
      destruct (Nat.ltb_spec (device_count st) MAX_DEVICES); [| lia].
      pose proof Hwf as (Hlen & _).
      destruct (lookup_lt_is_Some_2 (devices st) (device_count st)) as [d0 Hk0]; [lia |].
      rewrite Hk0 in Heq. apply (f_equal device_count) in Heq. cbn in Heq. lia.
  - destruct (report_named_step st a nm r k d Hwf Hm Ha Hnm Hf Hk Hn)
      as (_ & _ & d' & Hf' & Hk' & _ & Hr & Hh & Hc).
    exists k, d'. repeat split; assumption.
Qed.

End BleAdvertisedName.

(** X14. The entry made from an advertisement: when a scan result carries a
    non-empty name without NUL bytes (the complete name, or the short name
    when there is no complete one) and its address is not listed while the
    table has room, or is listed without a name, the entry of the address
    afterwards holds the first 31 bytes of that name, which is also what the
    device list displays, together with the RSSI of the result converted to
    [int8_t] (the RSSI itself when it lies in -128 .. 127). *)
Theorem ble_name_from_advertisement (st : Bluetooth.state) (a n : list byte)
    (cmpl short : option (list byte)) (r : Z) :
  Bluetooth.wf st -> Bluetooth.device_mutex st = true -> length a = 6%nat ->
  (cmpl = Some n \/ (cmpl = None /\ short = Some n)) ->
  (0 < length n)%nat -> Forall (fun b => b <> Bluetooth.NUL) n ->
  ((Bluetooth.find_device st a = -1 /\
    (Bluetooth.device_count st < Bluetooth.MAX_DEVICES)%nat) \/
   (exists (k : nat) (d : Bluetooth.ble_device_t),
       Bluetooth.find_device st a = Z.of_nat k /\
       Bluetooth.devices st !! k = Some d /\ Bluetooth.has_name d = false)) ->
  let st' := Bluetooth.on_scan_result a cmpl short r st in
  exists (k : nat) (d : Bluetooth.ble_device_t),
    Bluetooth.find_device st' a = Z.of_nat k /\
    Bluetooth.devices st' !! k = Some d /\
    Bluetooth.rssi d = Bluetooth.to_int8 r /\
    (-128 <= r <= 127 -> Bluetooth.rssi d = r) /\
    Bluetooth.has_name d = true /\
    Bluetooth.c_str (Bluetooth.name d) = take 31 n /\
    Bluetooth.display_name d = take 31 n.
Proof.
  intros Hwf Hm Ha Hsel Hlen Hno Hpre st'.
  destruct (adv_name_buffer_text n short cmpl Hsel Hlen Hno) as [Htext _].
  assert (Hnm : (0 < Bluetooth.strlen (Bluetooth.adv_name_buffer cmpl short))%nat).
  { unfold Bluetooth.strlen. rewrite Htext, length_take. lia. }
  destruct (report_named_result st a _ (Bluetooth.to_int8 r) Hwf Hm Ha Hnm Hpre)
    as (k & d & Hf & Hk & Hr & Hh & Hc).
  rewrite Htext, take_take in Hc. change (min 31 31) with 31%nat in Hc.
  exists k, d. split; [exact Hf |]. split; [exact Hk |]. split; [exact Hr |].
  split.
  { intros Hrange. rewrite Hr. unfold Bluetooth.to_int8.
    rewrite Z.mod_small by lia. lia. }
  split; [exact Hh |]. split; [exact Hc |].
  unfold Bluetooth.display_name. rewrite Hh. cbn [andb].
  case_bool_decide as Hz; [| exact Hc].
  exfalso. revert Hz. apply c_str_head. rewrite Hc.
  destruct n; [cbn in Hlen; lia | discriminate].
Qed.

Lemma ble_name_from_advertisement_witness :
  let n := list_byte_of_string "A sensor with a name longer than 31 bytes" in
  let st' := Bluetooth.on_scan_result (Bluetooth.test_addr 7) None (Some n) (-71)
               Bluetooth.cleared in
  exists (k : nat) (d : Bluetooth.ble_device_t),
    Bluetooth.find_device st' (Bluetooth.test_addr 7) = Z.of_nat k /\
    Bluetooth.devices st' !! k = Some d /\
    Bluetooth.rssi d = Bluetooth.to_int8 (-71) /\
    (-128 <= -71 <= 127 -> Bluetooth.rssi d = -71) /\
    Bluetooth.has_name d = true /\
    Bluetooth.c_str (Bluetooth.name d) = take 31 n /\
    Bluetooth.display_name d = take 31 n.
Proof.
  intros n.
  apply (ble_name_from_advertisement Bluetooth.cleared (Bluetooth.test_addr 7) n
           None (Some n) (-71)).
  - apply wf_cleared.
  - reflexivity.
  - reflexivity.
  - right. split; reflexivity.
  - vm_compute. lia.
  - repeat constructor; discriminate.
  - left. split; [reflexivity | vm_compute; lia].
Defined.

(** X15. No address is listed twice: in every table reached from the cleared
    one by reports of 6-byte addresses, an address has at most one entry. *)
Theorem ble_no_duplicate_entries (rs : list Bluetooth.report) (a : list byte) :
  Forall (fun rp : Bluetooth.report => (6 <= length rp.1.1)%nat) rs ->
  (Bluetooth.entries_for (Bluetooth.run_reports rs Bluetooth.cleared) a <= 1)%nat.
Proof.
  intros Hrs. apply entries_for_le_1. apply wf_run_reports; [apply wf_cleared | exact Hrs].
Qed.

Lemma ble_no_duplicate_entries_witness :
  (Bluetooth.entries_for
     (Bluetooth.run_reports
        (Bluetooth.twenty_named ++ Bluetooth.twenty_named) Bluetooth.cleared)
     (Bluetooth.test_addr 4) <= 1)%nat.
Proof.
  apply (ble_no_duplicate_entries (Bluetooth.twenty_named ++ Bluetooth.twenty_named)).
  apply Forall_app. split; apply Forall_forall; intros rp Hin;
    apply list_elem_of_In, in_map_iff in Hin as (i & <- & _); cbn; lia.
Defined.

(** X16. Reports touch only the entry of their own address: a listed entry
    is the same after any sequence of reports made for other addresses. *)
Theorem ble_report_frame (rs : list Bluetooth.report) (st : Bluetooth.state)
    (k : nat) (d : Bluetooth.ble_device_t) :
  Bluetooth.devices st !! k = Some d ->
  (k < Bluetooth.device_count st)%nat ->
  Forall (fun rp : Bluetooth.report => Bluetooth.report_key rp <> Bluetooth.key d) rs ->
  Bluetooth.devices (Bluetooth.run_reports rs st) !! k = Some d.
Proof.
  intros Hk Hlt Hrs. revert st Hk Hlt.
  induction Hrs as [| [[b nm] r] rs Hb _ IH]; intros st Hk Hlt; [exact Hk |].
  cbn [Bluetooth.run_reports fold_left]. unfold Bluetooth.report_key in Hb. cbn [fst] in Hb.
  apply IH.
  - apply report_frame; [exact Hk | exact Hlt | congruence].
  - destruct (report_keeps st b nm r k d Hk Hlt) as (d' & _ & Hlt' & _). exact Hlt'.
Qed.

Lemma ble_report_frame_witness :
  exists d : Bluetooth.ble_device_t,
    Bluetooth.devices Bluetooth.full_table !! 3%nat = Some d /\
    Bluetooth.devices
      (Bluetooth.run_reports
         [(Bluetooth.test_addr 4, Some (list_byte_of_string "other"), -20);
          (Bluetooth.test_addr 30, None, -33)]
         Bluetooth.full_table) !! 3%nat
    = Some d.
Proof.
  eexists. split; [vm_compute; reflexivity |].
  apply ble_report_frame; [vm_compute; reflexivity | vm_compute; lia |].
  repeat constructor; vm_compute; discriminate.
Defined.

(** X17. Entries are never removed, moved or renamed: through any sequence
    of reports, a listed entry stays at its index with its address, and once
    it has a name it keeps that name (the first name reported wins). *)
Theorem ble_entries_persist (rs : list Bluetooth.report) (st : Bluetooth.state)
    (k : nat) (d : Bluetooth.ble_device_t) :
  Bluetooth.devices st !! k = Some d ->
  (k < Bluetooth.device_count st)%nat ->
  exists d' : Bluetooth.ble_device_t,
    Bluetooth.devices (Bluetooth.run_reports rs st) !! k = Some d' /\
    (k < Bluetooth.device_count (Bluetooth.run_reports rs st))%nat /\
    Bluetooth.bda d' = Bluetooth.bda d /\
    (Bluetooth.has_name d = true ->
     Bluetooth.name d' = Bluetooth.name d /\ Bluetooth.has_name d' = true).
Proof.
  revert st k d. induction rs as [| [[b nm] r] rs IH]; intros st k d Hk Hlt.
  - exists d. repeat split; assumption.
  - cbn [Bluetooth.run_reports fold_left].
    destruct (report_keeps st b nm r k d Hk Hlt) as (d1 & Hk1 & Hlt1 & Hb1 & Hn1).
    destruct (IH _ k d1 Hk1 Hlt1) as (d2 & Hk2 & Hlt2 & Hb2 & Hn2).
    exists d2. split; [exact Hk2 |]. split; [exact Hlt2 |].
    split; [congruence |].
    intros Hn. destruct (Hn1 Hn) as [Hname1 Hhas1].
    destruct (Hn2 Hhas1) as [Hname2 Hhas2]. split; [congruence | exact Hhas2].
Qed.

Lemma ble_entries_persist_witness :
  exists d d' : Bluetooth.ble_device_t,
    Bluetooth.devices Bluetooth.full_table !! 2%nat = Some d /\
    Bluetooth.devices
      (Bluetooth.run_reports
         [(Bluetooth.test_addr 2, Some (list_byte_of_string "renamed"), -10)]
         Bluetooth.full_table) !! 2%nat = Some d' /\
    Bluetooth.name d' = Bluetooth.name d.
Proof.
  assert (Hk : Bluetooth.devices Bluetooth.full_table !! 2%nat =
               Some (Bluetooth.mk_device (Bluetooth.test_addr 2)
                       (Bluetooth.name
                          (default Bluetooth.zero_device
                             (Bluetooth.devices Bluetooth.full_table !! 2%nat)))
                       (-50) true)) by (vm_compute; reflexivity).
  destruct (ble_entries_persist
              [(Bluetooth.test_addr 2, Some (list_byte_of_string "renamed"), -10)]
              Bluetooth.full_table 2 _ Hk ltac:(vm_compute; lia))
    as (d' & Hk' & _ & _ & Hn).
  eexists _, d'. split; [exact Hk |]. split; [exact Hk' |].
  apply Hn. reflexivity.
Defined.

(** X18. An entry shows the latest RSSI: after any sequence of reports
    (mutex created), the entry found for an address carries the RSSI of the
    last report made for that address. *)
Theorem ble_latest_rssi (rs1 rs2 : list Bluetooth.report) (st : Bluetooth.state)
    (a : list byte) (nm : option (list byte)) (r : Z) (k : nat)
    (d : Bluetooth.ble_device_t) :
  Bluetooth.device_mutex st = true -> (6 <= length a)%nat ->
  Forall (fun rp : Bluetooth.report =>
            (6 <= length rp.1.1)%nat /\ Bluetooth.report_key rp <> take 6 a) rs2 ->
  let st' := Bluetooth.run_reports (rs1 ++ (a, nm, r) :: rs2) st in
  Bluetooth.find_device st' a = Z.of_nat k ->
  Bluetooth.devices st' !! k = Some d ->
  Bluetooth.rssi d = r.
Proof.
  intros Hm Ha Hrs2 st' Hf Hk.
  unfold st' in Hf, Hk. rewrite run_reports_app in Hf, Hk.
  change (Bluetooth.run_reports ((a, nm, r) :: rs2) ?s)
    with (Bluetooth.run_reports rs2 (Bluetooth.add_or_update_device a nm r s)) in Hf, Hk.
  set (st1 := Bluetooth.run_reports rs1 st) in *.
  assert (Hm1 : Bluetooth.device_mutex st1 = true)
    by (unfold st1; rewrite run_reports_mutex; exact Hm).
  destruct (run_reports_other a rs2 Hrs2 (Bluetooth.add_or_update_device a nm r st1))
    as [Hfind Hent].
  rewrite Hfind in Hf.
  destruct (find_device_spec (Bluetooth.add_or_update_device a nm r st1) a)
    as [[Hmiss _] | (k2 & d2 & Hf2 & Hk2 & _ & _)]; [lia |].
  assert (k2 = k) by lia. subst k2.
  rewrite (Hent k d2 Hf Hk2) in Hk. injection Hk as <-.
  apply (report_rssi st1 a nm r k d2 Hm1 Ha Hf Hk2).
Qed.

Lemma ble_latest_rssi_witness :
  let st' :=
    Bluetooth.run_reports
      ([(Bluetooth.test_addr 1, None, -80); (Bluetooth.test_addr 2, None, -70)] ++
       (Bluetooth.test_addr 1, None, -42) ::
       [(Bluetooth.test_addr 2, None, -65); (Bluetooth.test_addr 3, None, -90)])
      Bluetooth.cleared in
  exists d : Bluetooth.ble_device_t,
    Bluetooth.devices st' !! 0%nat = Some d /\ Bluetooth.rssi d = -42.
Proof.
  intros st'. eexists. split; [vm_compute; reflexivity |].
  apply (ble_latest_rssi
           [(Bluetooth.test_addr 1, None, -80); (Bluetooth.test_addr 2, None, -70)]
           [(Bluetooth.test_addr 2, None, -65); (Bluetooth.test_addr 3, None, -90)]
           Bluetooth.cleared (Bluetooth.test_addr 1) None (-42) 0).
  - reflexivity.
  - cbn. lia.
  - repeat constructor; cbn; try lia; vm_compute; discriminate.
  - vm_compute. reflexivity.
  - vm_compute. reflexivity.
Defined.

Section BleFirstSeen.
Import Bluetooth.

Lemma first_seen_ext (ks : list (list byte)) :
  forall s1 s2 : list (list byte),
    (forall x, x ∈ s1 <-> x ∈ s2) -> first_seen s1 ks = first_seen s2 ks.
Proof.
  induction ks as [| k ks IH]; intros s1 s2 Hs; [reflexivity |].
  cbn [first_seen].
  rewrite (bool_decide_ext (k ∈ s1) (k ∈ s2) (Hs k)).
  destruct (bool_decide (k ∈ s2)); [apply IH; exact Hs |].
  f_equal. apply IH. intros x. rewrite !elem_of_cons, Hs. reflexivity.
Qed.

Lemma live_keys_length (st : state) :
  wf st -> length (map key (live st)) = device_count st.
Proof.
  intros (Hlen & Hc & _). unfold live. rewrite length_map, length_take_le; lia.
Qed.

Lemma keys_of_run (rs : list report) :
  forall st : state,
    wf st -> device_mutex st = true ->
    Forall (fun rp : report => (6 <= length rp.1.1)%nat) rs ->
    map key (live (run_reports rs st)) =
    take MAX_DEVICES
      (map key (live st) ++ first_seen (map key (live st)) (map report_key rs)).
Proof.
  induction rs as [| [[b nm] r] rs IH]; intros st Hwf Hm Hrs.
  - cbn [run_reports fold_left map first_seen]. rewrite app_nil_r.
    rewrite take_ge; [reflexivity |].
    rewrite live_keys_length by exact Hwf. destruct Hwf as (_ & Hc & _). exact Hc.
  - inversion Hrs as [| ? ? Hb Hrs']; subst. cbn [fst] in Hb.
    change (run_reports ((b, nm, r) :: rs) st)
      with (run_reports rs (add_or_update_device b nm r st)).
    cbn [map first_seen].
    change (report_key (b, nm, r)) with (take 6 b).
    assert (Hwf' : wf (add_or_update_device b nm r st)) by (apply wf_report; assumption).
    assert (Hm' : device_mutex (add_or_update_device b nm r st) = true)
      by (rewrite report_mutex; exact Hm).
    specialize (IH _ Hwf' Hm' Hrs'). rewrite IH. clear IH.
    destruct (find_device_spec st b) as [[Hf Hall] | (kb & db & Hf & Hkb & Hlt & Hdb)].
    + assert (Hnotin : take 6 b ∉ map key (live st)).
      { intros Hin. apply list_elem_of_fmap in Hin as (e & He & Hin).
        rewrite Forall_forall in Hall. apply (Hall e Hin). symmetry. exact He. }
      rewrite bool_decide_eq_false_2 by exact Hnotin.
      destruct (Nat.lt_ge_cases (device_count st) MAX_DEVICES) as [Hc | Hc].
      * pose proof Hwf as (Hlen & _).
        destruct (lookup_lt_is_Some_2 (devices st) (device_count st)) as [d0 Hk0]; [lia |].
        rewrite (report_new st b nm r d0 Hm Hf Hc Hk0).
        rewrite (live_new st d0 _ true Hk0).
        change (map key (live st ++ [new_entry d0 b nm r]))
          with (key <$> (live st ++ [new_entry d0 b nm r])).
        rewrite fmap_app. cbn [fmap list_fmap]. rewrite key_new_entry by exact Hb.
        rewrite <- app_assoc. cbn [app]. do 3 f_equal.
        apply first_seen_ext. intros x.
        rewrite elem_of_app, !elem_of_cons, elem_of_nil. tauto.
      * rewrite report_full by assumption.
        assert (HK : length (map key (live st)) = MAX_DEVICES).
        { rewrite live_keys_length by exact Hwf. destruct Hwf as (_ & Hc' & _). lia. }
        rewrite !take_app_length' by (symmetry; exact HK). reflexivity.
    + assert (Hin : take 6 b ∈ map key (live st)).
      { apply list_elem_of_fmap. exists db. split; [symmetry; exact Hdb |].
        apply list_elem_of_lookup. exists kb. unfold live.
        rewrite lookup_take_lt by exact Hlt. exact Hkb. }
      rewrite bool_decide_eq_true_2 by exact Hin.
      rewrite (report_update st b nm r kb db Hm Hf Hkb).
      rewrite live_update by exact Hlt.
      rewrite (keys_insert_same (live st) kb db); [reflexivity | | apply key_update_entry].
      unfold live. rewrite lookup_take_lt by exact Hlt. exact Hkb.
Qed.

End BleFirstSeen.

(** [start_ble_scan] leaves the cleared table (with the mutex created). *)
Lemma start_ble_scan_cleared (st0 : Bluetooth.state) :
  Bluetooth.device_mutex st0 = true -> Bluetooth.start_ble_scan st0 = Bluetooth.cleared.
Proof.
  intros Hm. unfold Bluetooth.start_ble_scan, Bluetooth.cleared. rewrite Hm. reflexivity.
Qed.

(** X19. Which devices a scan lists: after [start_ble_scan] on any table
    (mutex created) and any sequence of reports, the listed addresses are the
    first 20 distinct addresses reported since, in the order in which each
    was first reported, and [device_count] is their number; nothing of the
    table before the scan is left. *)
Theorem ble_lists_first_distinct (st0 : Bluetooth.state) (rs : list Bluetooth.report) :
  Bluetooth.device_mutex st0 = true ->
  Forall (fun rp : Bluetooth.report => (6 <= length rp.1.1)%nat) rs ->
  let st := Bluetooth.run_reports rs (Bluetooth.start_ble_scan st0) in
  map Bluetooth.key (Bluetooth.live st) =
    take 20 (Bluetooth.first_seen [] (map Bluetooth.report_key rs)) /\
  Bluetooth.device_count st =
    min 20 (length (Bluetooth.first_seen [] (map Bluetooth.report_key rs))).
Proof.
  intros Hm Hrs st.
  assert (Hst : st = Bluetooth.run_reports rs Bluetooth.cleared).
  { unfold st. rewrite (start_ble_scan_cleared st0 Hm). reflexivity. }
  assert (Hkeys : map Bluetooth.key (Bluetooth.live st) =
                  take 20 (Bluetooth.first_seen [] (map Bluetooth.report_key rs))).
  { rewrite Hst. rewrite (keys_of_run rs Bluetooth.cleared wf_cleared eq_refl Hrs).
    reflexivity. }
  split; [exact Hkeys |].
  rewrite <- (live_keys_length st)
    by (rewrite Hst; apply wf_run_reports; [apply wf_cleared | exact Hrs]).
  rewrite Hkeys, length_take. reflexivity.
Qed.

Lemma ble_lists_first_distinct_witness :
  let st0 := Bluetooth.run_reports Bluetooth.twenty_named Bluetooth.cleared in
  let rs := [(Bluetooth.test_addr 5, None, -60); (Bluetooth.test_addr 9, None, -61);
             (Bluetooth.test_addr 5, Some (list_byte_of_string "five"), -62)] in
  let st := Bluetooth.run_reports rs (Bluetooth.start_ble_scan st0) in
  map Bluetooth.key (Bluetooth.live st) =
    take 20 (Bluetooth.first_seen [] (map Bluetooth.report_key rs)) /\
  Bluetooth.device_count st =
    min 20 (length (Bluetooth.first_seen [] (map Bluetooth.report_key rs))).
Proof.
  intros st0 rs. apply (ble_lists_first_distinct st0 rs).
  - vm_compute. reflexivity.
  - repeat constructor; cbn; lia.
Defined.
